(** * ASSHM core: configuration, session repository and IPAM inventory

    A shallow embedding of the persistence layer of the application
    ([src/core/config_manager.py], [src/core/session_manager.py],
    [src/core/ipam.py]) and the properties its specification states,
    followed by the code around it: the read side of the session manager,
    the loading, scanning and CSV export of the inventory, the handlers of
    the IPAM window that change it ([src/ui/ipam_window.py]), and the
    command line the launcher builds ([src/core/launcher.py],
    [src/core/ssh_key_converter.py]).

    Conventions of the embedding:
    - a Python [dict] is an insertion-ordered association list ([PyDict]);
    - a method that mutates [self] becomes a function from the old object to
      the new one, paired with what the method returns;
    - a method that can raise returns a [result];
    - the wall clock ([datetime.now()]) is an argument of the operation that
      reads it;
    - the files a manager owns are part of its state, with what makes a
      write or a deletion fail, since the code catches those failures;
    - a session or an entry is held by value: no operation of a manager
      stores one object under two keys or writes the attribute it is keyed
      by;
    - text is a [string] of code points below 256;
    - the textual form of IPv6 addresses is left to the [ipaddress]
      library, as an interface ([Ipv6Text]). *)

From Stdlib Require Import String Ascii List ZArith Bool Lia Sorted Permutation.
From Stdlib Require Import SpecFloat.
Import ListNotations.

Set Warnings "-register-all".
Local Open Scope string_scope.
Local Open Scope Z_scope.

(* ================================================================== *)
(** * Part I. The program *)
(* ================================================================== *)

(** ** Python values shared by all components *)

Inductive exn : Type :=
| ValueError (msg : string)
| TypeError (msg : string).

Inductive result (A : Type) : Type :=
| Ok (a : A)
| Raise (e : exn).

Arguments Ok {A} a.
Arguments Raise {A} e.

Module PyStr.

(** [str.isspace] on one character, for code points below 256. *)
Definition isspace (c : ascii) : bool :=
  let n := nat_of_ascii c in
  (((9 <=? n) && (n <=? 13)) || ((28 <=? n) && (n <=? 32))
   || (n =? 133) || (n =? 160))%nat.

Fixpoint lstrip (s : string) : string :=
  match s with
  | EmptyString => EmptyString
  | String c r => if isspace c then lstrip r else s
  end.

Fixpoint rstrip (s : string) : string :=
  match s with
  | EmptyString => EmptyString
  | String c r =>
      match rstrip r with
      | EmptyString => if isspace c then EmptyString else String c EmptyString
      | r' => String c r'
      end
  end.

(** [s.strip()] with no argument. *)
Definition strip (s : string) : string := rstrip (lstrip s).

(** Truth value of a [str]: the empty string is false. *)
Definition truthy (s : string) : bool :=
  match s with EmptyString => false | _ => true end.

(** One decimal digit, [0 <= d < 10]. *)
Definition digit (d : Z) : ascii := ascii_of_nat (48 + Z.to_nat d).

(** The [w] low decimal digits of [n], most significant first: the
    zero-padded fields of [strftime] and [isoformat]. *)
Fixpoint digits (w : nat) (n : Z) : string :=
  match w with
  | O => EmptyString
  | S w' => String (digit ((n / 10 ^ Z.of_nat w') mod 10)) (digits w' n)
  end.

(** [str(n)] for [0 <= n], by repeated division; [fuel] bounds the number
    of digits. *)
Fixpoint decimal_aux (fuel : nat) (n : Z) (acc : string) : string :=
  match fuel with
  | O => acc
  | S f =>
      let acc' := String (digit (n mod 10)) acc in
      if n / 10 =? 0 then acc' else decimal_aux f (n / 10) acc'
  end.

Definition decimal (n : Z) : string :=
  decimal_aux (S (Z.to_nat (Z.log2 n))) n EmptyString.

Fixpoint startswith (p s : string) : bool :=
  match p, s with
  | EmptyString, _ => true
  | String a p', String b s' => Ascii.eqb a b && startswith p' s'
  | String _ _, EmptyString => false
  end.

Fixpoint drop (n : nat) (s : string) : string :=
  match n, s with
  | O, _ => s
  | S n', String _ s' => drop n' s'
  | S _, EmptyString => EmptyString
  end.

Definition endswith (p s : string) : bool :=
  (String.length p <=? String.length s)%nat
  && String.eqb (drop (String.length s - String.length p) s) p.

(** [p in s] for two strings. *)
Fixpoint contains (p s : string) : bool :=
  startswith p s
  || match s with
     | EmptyString => false
     | String _ s' => contains p s'
     end.

(** [c.lower()] on one character, for code points below 256: the Latin
    capitals and the accented capitals of the upper half, the
    multiplication sign apart. *)
Definition lower_char (c : ascii) : ascii :=
  let n := nat_of_ascii c in
  if (((65 <=? n) && (n <=? 90))
      || ((192 <=? n) && (n <=? 222) && negb (n =? 215)))%nat
  then ascii_of_nat (n + 32) else c.

(** [s.lower()] *)
Fixpoint lower (s : string) : string :=
  match s with
  | EmptyString => EmptyString
  | String c r => String (lower_char c) (lower r)
  end.

(** [s.split()] with no argument: the maximal runs of characters that are
    not white space. *)
Fixpoint split_whitespace (s : string) : list string :=
  match s with
  | EmptyString => []
  | String c r =>
      if isspace c then split_whitespace r
      else
        match r with
        | EmptyString => [String c EmptyString]
        | String c' _ =>
            if isspace c' then String c EmptyString :: split_whitespace r
            else
              match split_whitespace r with
              | w :: ws => String c w :: ws
              | [] => [String c EmptyString]
              end
        end
  end.

End PyStr.

(** ** Insertion-ordered dictionaries with string keys *)

Module PyDict.

Definition t (V : Type) : Type := list (string * V).

(** [d.get(k)] *)
Fixpoint get {V : Type} (k : string) (d : t V) : option V :=
  match d with
  | [] => None
  | (k', v) :: r => if String.eqb k k' then Some v else get k r
  end.

(** [k in d] *)
Definition contains {V : Type} (k : string) (d : t V) : bool :=
  match get k d with Some _ => true | None => false end.

(** [d[k] = v]: an existing key keeps its place, a new key goes last. *)
Fixpoint set {V : Type} (k : string) (v : V) (d : t V) : t V :=
  match d with
  | [] => [(k, v)]
  | (k', v') :: r =>
      if String.eqb k k' then (k', v) :: r else (k', v') :: set k v r
  end.

(** [d.pop(k, None)] / [del d[k]], the popped value dropped. *)
Definition pop {V : Type} (k : string) (d : t V) : t V :=
  filter (fun kv => negb (String.eqb k (fst kv))) d.

Definition keys {V : Type} (d : t V) : list string := map fst d.
Definition values {V : Type} (d : t V) : list V := map snd d.

(** Representation invariant: a key occurs once. *)
Definition wf {V : Type} (d : t V) : Prop := NoDup (keys d).

End PyDict.

(** ** ConfigManager *)

Module Config.

(** What [json.load] can return. *)
Inductive value : Type :=
| VNull
| VBool (b : bool)
| VInt (z : Z)
| VFloat (f : spec_float)
| VStr (s : string)
| VList (l : list value)
| VDict (d : list (string * value)).

Definition dict : Type := PyDict.t value.

(** [_merge_configs(target, source)], written on the JSON value that holds
    [source] so that the recursion into a nested section is structural. A
    [source] that is no mapping has no [items()] and is handled by [load]. *)
Fixpoint merge_value (target : dict) (source : value) {struct source} : dict :=
  match source with
  | VDict items =>
      (fix loop (target : dict) (items : list (string * value)) {struct items}
         : dict :=
         match items with
         | [] => target
         | (key, v) :: rest =>
             loop
               (match PyDict.get key target, v with
                | Some (VDict sub), VDict _ =>
                    (* Recursively update dictionaries *)
                    PyDict.set key (VDict (merge_value sub v)) target
                | _, _ =>
                    (* Replace or add values *)
                    PyDict.set key v target
                end)
               rest
         end) target items
  | _ => target
  end.

Definition _merge_configs (target source : dict) : dict :=
  merge_value target (VDict source).

(** The configuration file as [load] finds it. *)
Inductive config_file : Type :=
| Missing
| Unparsable
| Parsed (v : value).

(** [ConfigManager.load]: any exception is printed and swallowed. *)
Definition load (config : dict) (f : config_file) : dict :=
  match f with
  | Parsed (VDict loaded_config) => _merge_configs config loaded_config
  | _ => config
  end.

(** [ConfigManager.get(section, key, default)]. The test
    [key in self.config[section]] is dictionary membership when the section
    is a mapping; a merged file can leave another JSON value under the
    section name, and then the test is a substring or list-membership test
    (or a [TypeError]), and indexing the section by [key] a [TypeError]. *)
Definition get (config : dict) (section key : string) (default : value)
  : result value :=
  match PyDict.get section config with
  | None => Ok default
  | Some (VDict sec) =>
      match PyDict.get key sec with
      | Some v => Ok v
      | None => Ok default
      end
  | Some (VStr s) =>
      if PyStr.contains key s
      then Raise (TypeError "string indices must be integers")
      else Ok default
  | Some (VList l) =>
      if existsb (fun v => match v with
                           | VStr s => String.eqb s key
                           | _ => false
                           end) l
      then Raise (TypeError "list indices must be integers or slices")
      else Ok default
  | Some _ => Raise (TypeError "argument is not iterable")
  end.

(** The defaults installed by [__init__]. *)
Definition defaults : dict :=
  [ ("general", VDict [ ("putty_path", VStr "");
                        ("winscp_path", VStr "");
                        ("default_protocol", VStr "ssh");
                        ("save_passwords", VBool true) ]);
    ("ui", VDict [ ("show_toolbar", VBool true);
                   ("show_statusbar", VBool true);
                   ("font_size", VInt 10);
                   ("theme", VStr "system") ]);
    ("ipam", VDict [ ("enabled", VBool true);
                     ("subnet_mask", VStr "255.255.255.0") ]) ].

(** [ConfigManager.set(section, key, value)]: a missing section is created
    empty, then [self.config[section][key] = value]. Under a section name
    that holds no mapping the item assignment is a [TypeError], raised
    before anything is changed. *)
Definition set (config : dict) (section key : string) (value : value)
  : result dict :=
  let config :=
    if PyDict.contains section config then config
    else PyDict.set section (VDict []) config in
  match PyDict.get section config with
  | Some (VDict sec) =>
      Ok (PyDict.set section (VDict (PyDict.set key value sec)) config)
  | Some (VList _) =>
      Raise (TypeError "list indices must be integers or slices, not str")
  | Some (VStr _) =>
      Raise (TypeError "'str' object does not support item assignment")
  | _ => Raise (TypeError "object does not support item assignment")
  end.

(** [ConfigManager.save]: the file is replaced by the configuration when
    it can be written; a failure is printed and answered with [False]. *)
Definition save (config : dict) (writable : bool) (file : config_file)
  : bool * config_file :=
  if writable then (true, Parsed (VDict config)) else (false, file).

(** [ConfigManager.__init__]: the defaults, then the file over them. *)
Definition init (file : config_file) : dict := load defaults file.

(** Nothing but a mapping is stored under [section]. *)
Definition section_free (config : dict) (section : string) : Prop :=
  forall x, PyDict.get section config = Some x -> exists sec, x = VDict sec.

(** A key occurs once in the configuration and once in each section, as in
    every [dict]. *)
Definition well_keyed (config : dict) : Prop :=
  PyDict.wf config
  /\ forall s sec, PyDict.get s config = Some (VDict sec) -> PyDict.wf sec.

End Config.

(** ** Wall-clock readings *)

Module Datetime.

(** A naive [datetime], as [datetime.now()] returns it. *)
Record t : Type := mk {
  year : Z;
  month : Z;
  day : Z;
  hour : Z;
  minute : Z;
  second : Z;
  microsecond : Z
}.

(** [now.strftime("%Y%m%d_%H%M%S")] *)
Definition strftime_stamp (now : t) : string :=
  PyStr.digits 4 (year now) ++ PyStr.digits 2 (month now)
  ++ PyStr.digits 2 (day now) ++ "_"
  ++ PyStr.digits 2 (hour now) ++ PyStr.digits 2 (minute now)
  ++ PyStr.digits 2 (second now).

(** [now.isoformat()] *)
Definition isoformat (now : t) : string :=
  PyStr.digits 4 (year now) ++ "-" ++ PyStr.digits 2 (month now) ++ "-"
  ++ PyStr.digits 2 (day now) ++ "T"
  ++ PyStr.digits 2 (hour now) ++ ":" ++ PyStr.digits 2 (minute now) ++ ":"
  ++ PyStr.digits 2 (second now)
  ++ (if microsecond now =? 0 then ""
      else "." ++ PyStr.digits 6 (microsecond now)).

(** The reading at second resolution, as one number [YYYYMMDDHHMMSS]. *)
Definition seconds_key (now : t) : Z :=
  ((((year now * 100 + month now) * 100 + day now) * 100 + hour now) * 100
   + minute now) * 100 + second now.

(** Field ranges of a [datetime] whose year prints with four digits on
    every platform. *)
Definition valid (now : t) : Prop :=
  1000 <= year now <= 9999 /\ 1 <= month now <= 12 /\ 1 <= day now <= 31
  /\ 0 <= hour now <= 23 /\ 0 <= minute now <= 59 /\ 0 <= second now <= 59
  /\ 0 <= microsecond now <= 999999.

End Datetime.

(** ** Session and SessionManager *)

Module Sessions.

Record Session : Type := mkSession {
  name : string;
  host : string;
  username : string;
  password : string;
  group : string;
  tags : list string;
  description : string;
  last_connection : option string;
  connection_count : Z;
  key_file : string;
  params : string
}.

(** [Session.__init__]: a fresh profile has no connection statistics. *)
Definition new_session (name host username password group : string)
  (tags : list string) (description key_file params : string) : Session :=
  mkSession name host username password group tags description None 0
            key_file params.

(** The sessions file and each backup hold the JSON array of the
    [to_dict()] records, one per session, in dictionary order. *)
Definition file_content : Type := list Session.

(** The manager together with the part of the file system it owns:
    [session_file] is [None] while the file does not exist, [backup_dir]
    maps the name of each file of the backups directory to its content,
    [writable] tells whether opening the sessions file for writing succeeds
    and [locked] lists the files whose [unlink] raises [PermissionError]. *)
Record SessionManager : Type := mkManager {
  config : Config.dict;
  sessions : PyDict.t Session;
  session_file : option file_content;
  backup_dir : PyDict.t file_content;
  writable : bool;
  locked : list string
}.

Definition with_sessions (m : SessionManager) (s : PyDict.t Session)
  : SessionManager :=
  mkManager (config m) s (session_file m) (backup_dir m) (writable m)
            (locked m).

Definition with_session_file (m : SessionManager) (f : option file_content)
  : SessionManager :=
  mkManager (config m) (sessions m) f (backup_dir m) (writable m) (locked m).

Definition with_backup_dir (m : SessionManager) (d : PyDict.t file_content)
  : SessionManager :=
  mkManager (config m) (sessions m) (session_file m) d (writable m)
            (locked m).

(** [_load_sessions]: every record of the file is stored under its name. *)
Definition _load_sessions (m : SessionManager) : SessionManager :=
  match session_file m with
  | None => m
  | Some data =>
      with_sessions m
        (fold_left (fun acc session => PyDict.set (name session) session acc)
                   data (sessions m))
  end.

(** [SessionManager.__init__] on a given file system: it reads
    [max_backups] outside any [try], then loads the sessions file. *)
Definition init (config : Config.dict) (session_file : option file_content)
  (backup_dir : PyDict.t file_content) (writable : bool)
  (locked : list string) : result SessionManager :=
  match Config.get config "general" "max_backups" (Config.VInt 5) with
  | Raise e => Raise e
  | Ok _ =>
      Ok (_load_sessions
            (mkManager config [] session_file backup_dir writable locked))
  end.

Definition backup_name (now : Datetime.t) : string :=
  "sessions_backup_" ++ Datetime.strftime_stamp now ++ ".json".

(** [glob("sessions_backup_*.json")] on one file name. *)
Definition glob_backup (file : string) : bool :=
  PyStr.startswith "sessions_backup_" file
  && PyStr.endswith ".json" file
  && (21 <=? String.length file)%nat.

Fixpoint insert_sorted (x : string) (l : list string) : list string :=
  match l with
  | [] => [x]
  | y :: r => if String.leb x y then x :: l else y :: insert_sorted x r
  end.

(** [sorted(paths)]: file names in increasing code-point order. *)
Definition sorted (l : list string) : list string :=
  fold_right insert_sorted [] l.

(** [l[:stop]] *)
Definition slice_to {A : Type} (stop : Z) (l : list A) : list A :=
  let len := Z.of_nat (length l) in
  let stop' := if stop <? 0 then Z.max 0 (len + stop) else Z.min stop len in
  firstn (Z.to_nat stop') l.

(** [old_file.unlink()] inside its [try]: a [PermissionError] is reported
    and the file stays. *)
Definition unlink_old (locked : list string) (dir : PyDict.t file_content)
  (old_file : string) : PyDict.t file_content :=
  if existsb (String.eqb old_file) locked then dir
  else PyDict.pop old_file dir.

(** [self.config.get("general", "max_backups", 5)] *)
Definition max_backups_setting (m : SessionManager) : result Config.value :=
  Config.get (config m) "general" "max_backups" (Config.VInt 5).

(** [_create_backup]. Whatever raises inside its [try] is reported and
    swallowed; what was done before stays done. *)
Definition _create_backup (now : Datetime.t) (m : SessionManager)
  : SessionManager :=
  match session_file m with
  | None => m
  | Some content =>
      match max_backups_setting m with
      | Raise _ => m
      | Ok max_backups =>
          let dir := PyDict.set (backup_name now) content (backup_dir m) in
          let backup_files := sorted (filter glob_backup (PyDict.keys dir)) in
          let prune (k : Z) :=
            if k <? Z.of_nat (length backup_files)
            then fold_left (unlink_old (locked m))
                           (slice_to (- k) backup_files) dir
            else dir in
          match max_backups with
          | Config.VInt k => with_backup_dir m (prune k)
          | Config.VBool b => with_backup_dir m (prune (Z.b2z b))
          | _ =>
              (* a float compares but cannot index; anything else cannot
                 be compared with [len]: no file is removed *)
              with_backup_dir m dir
          end
      end
  end.

(** [save_sessions] at clock reading [now]. *)
Definition save_sessions (now : Datetime.t) (m : SessionManager)
  : bool * SessionManager :=
  let m := _create_backup now m in
  if writable m
  then (true, with_session_file m (Some (PyDict.values (sessions m))))
  else (false, m).

Definition add_session (now : Datetime.t) (session : Session)
  (m : SessionManager) : result bool * SessionManager :=
  if negb (PyStr.truthy (PyStr.strip (name session)))
  then (Raise (ValueError "Session name cannot be empty"), m)
  else if PyDict.contains (name session) (sessions m)
  then (Raise (ValueError ("Session with name '" ++ name session
                           ++ "' already exists")), m)
  else
    let m := with_sessions m (PyDict.set (name session) session (sessions m)) in
    (Ok true, snd (save_sessions now m)).

Definition update_session (now : Datetime.t) (session : Session)
  (m : SessionManager) : result bool * SessionManager :=
  if negb (PyStr.truthy (PyStr.strip (name session)))
  then (Raise (ValueError "Session name cannot be empty"), m)
  else if negb (PyDict.contains (name session) (sessions m))
  then (Raise (ValueError ("Session with name '" ++ name session
                           ++ "' not found")), m)
  else
    let m := with_sessions m (PyDict.set (name session) session (sessions m)) in
    (Ok true, snd (save_sessions now m)).

Definition delete_session (now : Datetime.t) (session_name : string)
  (m : SessionManager) : result bool * SessionManager :=
  if negb (PyDict.contains session_name (sessions m))
  then (Raise (ValueError ("Session with name '" ++ session_name
                           ++ "' not found")), m)
  else
    let m := with_sessions m (PyDict.pop session_name (sessions m)) in
    (Ok true, snd (save_sessions now m)).

Definition get_session (session_name : string) (m : SessionManager)
  : option Session :=
  PyDict.get session_name (sessions m).

(** [session.last_connection = ...; session.connection_count += 1] *)
Definition touch (stamp : string) (s : Session) : Session :=
  mkSession (name s) (host s) (username s) (password s) (group s) (tags s)
            (description s) (Some stamp) (connection_count s + 1)
            (key_file s) (params s).

(** [update_connection_stats]: [now] is the reading stored in
    [last_connection], [now_save] the later one taken by the save. The
    session object is changed in place, so it keeps its key. *)
Definition update_connection_stats (now now_save : Datetime.t)
  (session_name : string) (m : SessionManager) : SessionManager :=
  match PyDict.get session_name (sessions m) with
  | Some session =>
      let m := with_sessions m
                 (PyDict.set session_name
                    (touch (Datetime.isoformat now) session) (sessions m)) in
      snd (save_sessions now_save m)
  | None => m
  end.

(** The backups as the pruning step lists them. *)
Definition backup_files (m : SessionManager) : list string :=
  sorted (filter glob_backup (PyDict.keys (backup_dir m))).

(** One [save_sessions] per clock reading, in order. *)
Definition saves (readings : list Datetime.t) (m : SessionManager)
  : SessionManager :=
  fold_left (fun m now => snd (save_sessions now m)) readings m.

(** The readings are in time order and no two fall in the same second. *)
Definition chronological (readings : list Datetime.t) : Prop :=
  StronglySorted
    (fun a b => Datetime.seconds_key a < Datetime.seconds_key b) readings.

(** The names of the backups the saves at [readings] create, oldest first:
    a save makes a backup when the sessions file exists already, so the
    first save of a new installation makes none. *)
Definition created (readings : list Datetime.t) (m : SessionManager)
  : list string :=
  map backup_name
      (match session_file m with
       | Some _ => readings
       | None => tl readings
       end).

(** File names in strictly increasing order. *)
Definition ascending (l : list string) : Prop :=
  StronglySorted (fun a b => String.ltb a b = true) l.

(** The last [k] elements of a list. *)
Definition newest {A : Type} (k : nat) (l : list A) : list A :=
  skipn (length l - k) l.

(** The sessions file holds the current mapping. *)
Definition persisted (m : SessionManager) : Prop :=
  session_file m = Some (PyDict.values (sessions m)).

(** Every session is stored under its own name. *)
Definition keyed_by_name (d : PyDict.t Session) : Prop :=
  Forall (fun kv => name (snd kv) = fst kv) d.

(** The states of a repository: built by [__init__], then changed by the
    four operations, whether they succeed or raise. *)
Inductive reachable : SessionManager -> Prop :=
| reach_init config file dir w lk m :
    init config file dir w lk = Ok m -> reachable m
| reach_add now session m :
    reachable m -> reachable (snd (add_session now session m))
| reach_update now session m :
    reachable m -> reachable (snd (update_session now session m))
| reach_delete now session_name m :
    reachable m -> reachable (snd (delete_session now session_name m))
| reach_record now now_save session_name m :
    reachable m ->
    reachable (update_connection_stats now now_save session_name m).

End Sessions.

(** ** The read side of SessionManager *)

Module Queries.
Import Sessions.

Definition get_all_sessions (m : SessionManager) : list Session :=
  PyDict.values (sessions m).

(** The elements of the [set] that receives the items of a list: each one
    once. The order a [set] is iterated in is not specified; every use
    below sorts it. *)
Definition set_of (items : list string) : list string :=
  nodup string_dec items.

(** [session.group and session.group.strip()] as a condition *)
Definition named_group (s : Session) : bool :=
  PyStr.truthy (group s) && PyStr.truthy (PyStr.strip (group s)).

Definition get_groups (m : SessionManager) : list string :=
  sorted (set_of (map group (filter named_group (PyDict.values (sessions m))))).

Definition get_tags (m : SessionManager) : list string :=
  sorted (set_of (flat_map tags (PyDict.values (sessions m)))).

(** Truth value of an optional [str] argument whose default is [None]. *)
Definition given (arg : option string) : bool :=
  match arg with
  | Some s => PyStr.truthy s
  | None => false
  end.

Definition text_of (arg : option string) : string :=
  match arg with
  | Some s => s
  | None => EmptyString
  end.

(** [search_term in s.name.lower() or ...] *)
Definition matches (search_term : string) (s : Session) : bool :=
  PyStr.contains search_term (PyStr.lower (name s))
  || PyStr.contains search_term (PyStr.lower (host s))
  || PyStr.contains search_term (PyStr.lower (description s)).

Definition filter_sessions (group tag search_term : option string)
  (m : SessionManager) : list Session :=
  let filtered := PyDict.values (sessions m) in
  let filtered :=
    if given group
    then filter (fun s => String.eqb (Sessions.group s) (text_of group))
                filtered
    else filtered in
  let filtered :=
    if given tag
    then filter (fun s => existsb (String.eqb (text_of tag)) (tags s)) filtered
    else filtered in
  let filtered :=
    if given search_term && PyStr.truthy (PyStr.strip (text_of search_term))
    then
      let search_term := PyStr.strip (PyStr.lower (text_of search_term)) in
      filter (matches search_term) filtered
    else filtered in
  filtered.

End Queries.

(** ** The session tree of the main window

    [MainWindow._populate_session_tree], up to the widgets: the mapping
    from group names to the sessions listed under them. *)

Module SessionTree.
Import Sessions.

(** [session.group if session.group else "Ungrouped"] *)
Definition group_of (session : Session) : string :=
  if PyStr.truthy (group session) then group session else "Ungrouped".

(** The body of the loop: the list of the group is created when the group
    is met first, then the session is appended to it. *)
Definition place (grouped_sessions : PyDict.t (list Session))
  (session : Session) : PyDict.t (list Session) :=
  let group := group_of session in
  let grouped_sessions :=
    if PyDict.contains group grouped_sessions then grouped_sessions
    else PyDict.set group [] grouped_sessions in
  match PyDict.get group grouped_sessions with
  | Some group_sessions =>
      PyDict.set group (group_sessions ++ [session])%list grouped_sessions
  | None => grouped_sessions
  end.

Definition grouped_sessions (m : SessionManager) : PyDict.t (list Session) :=
  fold_left place (Queries.get_all_sessions m) [].

(** The sessions of a list that go under one group name. *)
Definition under (group : string) (sessions : list Session) : list Session :=
  filter (fun s => String.eqb (group_of s) group) sessions.

End SessionTree.

(** ** Binary64 arithmetic of Python floats *)

Module PyFloat.

Definition prec : Z := 53.
Definition emax : Z := 1024.

(** [float(n)]: the double nearest to an integer. *)
Definition of_int (n : Z) : spec_float := binary_normalize prec emax n 0 false.

(** An integer with its sign, as a float operand. *)
Definition operand (n : Z) : spec_float :=
  match n with
  | Z0 => S754_zero false
  | Zpos x => S754_finite false x 0
  | Zneg x => S754_finite true x 0
  end.

(** [a / b] on two [int]s: the double nearest to the exact quotient. For
    [b = 0] Python raises [ZeroDivisionError]; the caller rules it out. *)
Definition int_truediv (a b : Z) : spec_float :=
  SFdiv prec emax (operand a) (operand b).

Definition mul (x y : spec_float) : spec_float := SFmul prec emax x y.

(** Nearest integer to [num / den] for [0 <= num], [0 < den], ties to
    even. *)
Definition div_half_even (num den : Z) : Z :=
  let q := num / den in
  let r := num mod den in
  match 2 * r ?= den with
  | Lt => q
  | Gt => q + 1
  | Eq => if Z.even q then q else q + 1
  end.

(** [round(x, ndigits)] for a float and [0 <= ndigits]: the exact value of
    [x] is rounded half-even to [ndigits] decimals and the decimal result
    is read back as the nearest double. *)
Definition round (x : spec_float) (ndigits : Z) : spec_float :=
  match x with
  | S754_finite s m e =>
      let scale := 10 ^ ndigits in
      let q := if 0 <=? e
               then Zpos m * 2 ^ e * scale
               else div_half_even (Zpos m * scale) (2 ^ (- e)) in
      if q =? 0 then S754_zero s
      else int_truediv (if s then - q else q) scale
  | _ => x
  end.

End PyFloat.

(** ** The [ipaddress] module *)

Module Ipaddress.

Inductive version : Type := V4 | V6.

Definition version_eqb (a b : version) : bool :=
  match a, b with
  | V4, V4 | V6, V6 => true
  | _, _ => false
  end.

Record IPAddress : Type := mkAddress {
  address_version : version;
  address_int : Z
}.

Record IPNetwork : Type := mkNetwork {
  network_version : version;
  network_address : Z;
  prefixlen : Z
}.

Definition max_prefixlen (v : version) : Z :=
  match v with V4 => 32 | V6 => 128 end.

Definition num_addresses (n : IPNetwork) : Z :=
  2 ^ (max_prefixlen (network_version n) - prefixlen n).

Definition netmask_int (v : version) (prefixlen : Z) : Z :=
  2 ^ max_prefixlen v - 2 ^ (max_prefixlen v - prefixlen).

(** [count] consecutive addresses from [first]. *)
Definition addresses (v : version) (first count : Z) : list IPAddress :=
  map (fun i => mkAddress v (first + Z.of_nat i)) (seq 0 (Z.to_nat count)).

(** [iter(network)]: every address of the block. *)
Definition iter (n : IPNetwork) : list IPAddress :=
  addresses (network_version n) (network_address n) (num_addresses n).

(** [IPv4Network.hosts()]: the block without its network and broadcast
    addresses; a /31 keeps both of its addresses and a /32 its only one. *)
Definition hosts (n : IPNetwork) : list IPAddress :=
  if prefixlen n =? 31 then iter n
  else if prefixlen n =? 32
  then [mkAddress (network_version n) (network_address n)]
  else addresses (network_version n) (network_address n + 1)
                 (num_addresses n - 2).

(** [ip in network] *)
Definition contains (ip : IPAddress) (n : IPNetwork) : bool :=
  version_eqb (address_version ip) (network_version n)
  && (Z.land (address_int ip) (netmask_int (network_version n) (prefixlen n))
      =? network_address n).

(** *** Dotted-quad text *)

(** [s.split(sep)] *)
Fixpoint split (sep : ascii) (s : string) : list string :=
  match s with
  | EmptyString => [EmptyString]
  | String c r =>
      if Ascii.eqb c sep then EmptyString :: split sep r
      else match split sep r with
           | h :: t => String c h :: t
           | [] => [String c EmptyString]
           end
  end.

Definition is_digit (c : ascii) : bool :=
  let n := nat_of_ascii c in ((48 <=? n) && (n <=? 57))%nat.

Fixpoint all_digits (s : string) : bool :=
  match s with
  | EmptyString => true
  | String c r => is_digit c && all_digits r
  end.

(** [s.isascii() and s.isdigit()] *)
Definition isdigit (s : string) : bool := PyStr.truthy s && all_digits s.

Fixpoint int_acc (acc : Z) (s : string) : Z :=
  match s with
  | EmptyString => acc
  | String c r => int_acc (acc * 10 + (Z.of_nat (nat_of_ascii c) - 48)) r
  end.

(** [int(s, 10)] on a string of digits. *)
Definition int (s : string) : Z := int_acc 0 s.

(** [_parse_octet]: one to three digits, no leading zero, at most 255. *)
Definition parse_octet (octet_str : string) : option Z :=
  if negb (isdigit octet_str) then None
  else if (3 <? String.length octet_str)%nat then None
  else if negb (String.eqb octet_str "0") && PyStr.startswith "0" octet_str
  then None
  else if 255 <? int octet_str then None
  else Some (int octet_str).

(** [IPv4Address._ip_int_from_string] *)
Definition ipv4_int_from_string (ip_str : string) : option Z :=
  match map parse_octet (split "." ip_str) with
  | [Some a; Some b; Some c; Some d] =>
      Some (((a * 256 + b) * 256 + c) * 256 + d)
  | _ => None
  end.

Definition bit_length (n : Z) : Z := if n =? 0 then 0 else Z.log2 n + 1.

Definition count_righthand_zero_bits (number bits : Z) : Z :=
  if number =? 0 then bits
  else Z.min bits (bit_length (Z.land (Z.lnot number) (number - 1))).

(** [_prefix_from_ip_int]: the prefix length of a netmask of the form
    ones-then-zeros. *)
Definition prefix_from_ip_int (ip_int : Z) : option Z :=
  let trailing_zeroes := count_righthand_zero_bits ip_int 32 in
  let prefixlen := 32 - trailing_zeroes in
  let leading_ones := Z.shiftr ip_int trailing_zeroes in
  let all_ones := Z.shiftl 1 prefixlen - 1 in
  if leading_ones =? all_ones then Some prefixlen else None.

(** [_make_netmask] on text: a prefix length in digits, else a netmask or
    a hostmask in dotted-quad form. *)
Definition make_netmask (arg : string) : option Z :=
  if isdigit arg && (int arg <=? 32) then Some (int arg)
  else if isdigit arg then None
  else
    match ipv4_int_from_string arg with
    | None => None
    | Some ip_int =>
        match prefix_from_ip_int ip_int with
        | Some p => Some p
        | None => prefix_from_ip_int (Z.lxor ip_int (2 ^ 32 - 1))
        end
    end.

(** [IPv4Network(address, strict=False)] on text. *)
Definition ipv4_network (address : string) : option IPNetwork :=
  match split "/" address with
  | [addr] =>
      match ipv4_int_from_string addr with
      | Some ip => Some (mkNetwork V4 ip 32)
      | None => None
      end
  | [addr; mask] =>
      match ipv4_int_from_string addr, make_netmask mask with
      | Some ip, Some p => Some (mkNetwork V4 (Z.land ip (netmask_int V4 p)) p)
      | _, _ => None
      end
  | _ => None
  end.

(** [str(IPv4Address(n))] *)
Definition ipv4_str (n : Z) : string :=
  PyStr.decimal ((n / 2 ^ 24) mod 256) ++ "."
  ++ PyStr.decimal ((n / 2 ^ 16) mod 256) ++ "."
  ++ PyStr.decimal ((n / 2 ^ 8) mod 256) ++ "."
  ++ PyStr.decimal (n mod 256).

(** An IPv4 block inside the 32-bit address space. *)
Definition ipv4_block (n : IPNetwork) : Prop :=
  network_version n = V4 /\ 0 <= prefixlen n <= 32
  /\ 0 <= network_address n
  /\ network_address n + num_addresses n <= 2 ^ 32.

(** *** IPv6 text

    The textual form of IPv6 addresses is the library's and is not
    modelled: it is an interface. [ipv6_network] is
    [IPv6Network(text, strict=False)] as network address and prefix length,
    [None] when the library raises. *)
Class Ipv6Text : Type := {
  ipv6_address : string -> option Z;
  ipv6_network : string -> option (Z * Z);
  ipv6_str : Z -> string
}.

Section Text.

Context {ipv6 : Ipv6Text}.

(** [ipaddress.ip_address(text)]: IPv4 is tried first; [None] stands for
    [ValueError]. *)
Definition ip_address (address : string) : option IPAddress :=
  match ipv4_int_from_string address with
  | Some n => Some (mkAddress V4 n)
  | None =>
      match ipv6_address address with
      | Some n => Some (mkAddress V6 n)
      | None => None
      end
  end.

(** [ipaddress.ip_network(text, strict=False)] *)
Definition ip_network (address : string) : option IPNetwork :=
  match ipv4_network address with
  | Some n => Some n
  | None =>
      match ipv6_network address with
      | Some (a, p) => Some (mkNetwork V6 a p)
      | None => None
      end
  end.

(** [str(ip)] *)
Definition str (ip : IPAddress) : string :=
  match address_version ip with
  | V4 => ipv4_str (address_int ip)
  | V6 => ipv6_str (address_int ip)
  end.

End Text.

End Ipaddress.

(** ** IPAM: entries, subnets and the manager *)

Module Ipam.
Import Ipaddress.

(** A [str] attribute; [None] is Python's [None], which a short CSV row or
    a JSON [null] puts there. *)
Definition text : Type := option string.

Definition text_eqb (t : text) (s : string) : bool :=
  match t with
  | Some s' => String.eqb s' s
  | None => false
  end.

Record IPAMEntry : Type := mkEntry {
  ip : string;
  subnet : text;
  hostname : text;
  description : text;
  status : text;
  session_name : text;
  last_seen : option spec_float
}.

(** [IPAMEntry.__init__] *)
Definition new_entry (ip : string)
  (subnet hostname description status session_name : text) : IPAMEntry :=
  mkEntry ip subnet hostname description status session_name None.

Record Subnet : Type := mkSubnet {
  cidr : string;
  subnet_name : text;
  subnet_description : text;
  network : IPNetwork
}.

Inductive number : Type :=
| NInt (z : Z)
| NFloat (f : spec_float).

Record usage_stats : Type := mkStats {
  total : Z;
  used : Z;
  available : Z;
  utilization : number
}.

(** The manager with its two files: a file is [None] until it is first
    written, and [*_writable] tells whether writing it succeeds. *)
Record IPAMManager : Type := mkIpam {
  entries : PyDict.t IPAMEntry;
  subnets : PyDict.t Subnet;
  entries_file : option (list IPAMEntry);
  subnets_file : option (list Subnet);
  entries_writable : bool;
  subnets_writable : bool
}.

Definition with_data (m : IPAMManager) (e : PyDict.t IPAMEntry)
  (s : PyDict.t Subnet) : IPAMManager :=
  mkIpam e s (entries_file m) (subnets_file m) (entries_writable m)
         (subnets_writable m).

(** [save_data]: each file is written in its own [try]. *)
Definition save_data (m : IPAMManager) : IPAMManager :=
  mkIpam (entries m) (subnets m)
         (if entries_writable m then Some (PyDict.values (entries m))
          else entries_file m)
         (if subnets_writable m then Some (PyDict.values (subnets m))
          else subnets_file m)
         (entries_writable m) (subnets_writable m).

(** One row of [csv.DictReader]: each column of the header with the text
    of its field, or [None] when the row is too short to have it. *)
Definition row : Type := PyDict.t (option string).

(** What reading the file yields: rows, then the end of the file or a
    failure ([open] failing is a failure before the first row). *)
Inductive csv_stream : Type :=
| Eof
| Row (r : row) (rest : csv_stream)
| ReadError (error : string).

Inductive import_result : Type :=
| Imported (added_ips added_subnets errors : Z)
| ImportFailed (error : string).

(** Which counter one row moves. *)
Inductive row_outcome : Type :=
| Counted_subnet
| Counted_ip
| Counted_error
| Not_counted.

(** ['key' in row and row['key']] *)
Definition has_field (r : row) (key : string) : bool :=
  match PyDict.get key r with
  | Some (Some s) => PyStr.truthy s
  | _ => false
  end.

(** [row['key']] where [has_field] holds. *)
Definition field (r : row) (key : string) : string :=
  match PyDict.get key r with
  | Some (Some s) => s
  | _ => EmptyString
  end.

(** [row.get('key', default)] *)
Definition row_get (r : row) (key : string) (default : string) : text :=
  match PyDict.get key r with
  | Some v => v
  | None => Some default
  end.

Section WithIpv6.

Context {ipv6 : Ipv6Text}.

(** [Subnet.__init__]: [ip_network] raises [ValueError] on text that is no
    network. *)
Definition new_subnet (cidr : string) (name description : text)
  : result Subnet :=
  match ip_network cidr with
  | Some n => Ok (mkSubnet cidr name description n)
  | None =>
      Raise (ValueError ("'" ++ cidr
                         ++ "' does not appear to be an IPv4 or IPv6 network"))
  end.

(** [Subnet.get_ip_range] *)
Definition get_ip_range (s : Subnet) : list string :=
  match network_version (network s) with
  | V4 => map str (hosts (network s))
  | V6 => map str (iter (network s))
  end.

(** [Subnet.get_usage_stats] *)
Definition get_usage_stats (s : Subnet) (entries : PyDict.t IPAMEntry)
  : usage_stats :=
  let total := num_addresses (network s) in
  let total :=
    if version_eqb (network_version (network s)) V4 && (2 <? total)
    then total - 2 else total in
  let used :=
    Z.of_nat (length (filter (fun ip => PyDict.contains ip entries)
                             (get_ip_range s))) in
  mkStats total used (total - used)
          (if 0 <? total
           then NFloat (PyFloat.round
                          (PyFloat.mul (PyFloat.int_truediv used total)
                                       (PyFloat.of_int 100)) 2)
           else NInt 0).

(** The usable range in the words of the specification: the addresses of
    the block, less its network and its broadcast address for an IPv4
    block of more than two addresses. It is stated on the address as a
    number, to be compared with what [get_ip_range] lists. *)
Definition in_usable_range (n : IPNetwork) (a : Z) : bool :=
  (network_address n <=? a) && (a <? network_address n + num_addresses n)
  && (if version_eqb (network_version n) V4 && (2 <? num_addresses n)
      then negb (a =? network_address n)
           && negb (a =? network_address n + num_addresses n - 1)
      else true).

(** An entry registered under [key] has its address in the usable range
    of a subnet: the key reads as an address of the subnet's version, and
    that address is in the range. *)
Definition lies_in_usable_range (s : Subnet) (key : string) : bool :=
  match ip_address key with
  | Some a =>
      version_eqb (address_version a) (network_version (network s))
      && in_usable_range (network s) (address_int a)
  | None => false
  end.

Definition add_subnet (s : Subnet) (m : IPAMManager) : bool * IPAMManager :=
  if PyDict.contains (cidr s) (subnets m) then (false, m)
  else (true, save_data (with_data m (entries m)
                                   (PyDict.set (cidr s) s (subnets m)))).

Definition remove_subnet (cidr : string) (m : IPAMManager)
  : bool * IPAMManager :=
  if negb (PyDict.contains cidr (subnets m)) then (false, m)
  else
    let entries_to_remove :=
      map fst (filter (fun kv => text_eqb (subnet (snd kv)) cidr)
                      (entries m)) in
    let entries' :=
      fold_left (fun d ip => PyDict.pop ip d) entries_to_remove (entries m) in
    (true, save_data (with_data m entries' (PyDict.pop cidr (subnets m)))).

Definition add_ip_entry (entry : IPAMEntry) (m : IPAMManager)
  : bool * IPAMManager :=
  (true, save_data (with_data m (PyDict.set (ip entry) entry (entries m))
                              (subnets m))).

Definition remove_ip_entry (ip : string) (m : IPAMManager)
  : bool * IPAMManager :=
  if negb (PyDict.contains ip (entries m)) then (false, m)
  else (true, save_data (with_data m (PyDict.pop ip (entries m))
                                   (subnets m))).

Definition get_entry (ip : string) (m : IPAMManager) : option IPAMEntry :=
  PyDict.get ip (entries m).

Definition get_subnet (cidr : string) (m : IPAMManager) : option Subnet :=
  PyDict.get cidr (subnets m).

(** [find_subnet_for_ip]: the [ValueError] of [ip_address] is caught and
    the answer is [None]. *)
Definition find_subnet_for_ip (ip : string) (m : IPAMManager)
  : option Subnet :=
  match ip_address ip with
  | Some ip_obj =>
      find (fun s => contains ip_obj (network s)) (PyDict.values (subnets m))
  | None => None
  end.

(** The body of the loop of [import_from_csv] on one row: what the row
    adds to the counters and what it does to the repository. An exception
    raised in the body is caught and counted. *)
Definition import_row (r : row) (m : IPAMManager)
  : row_outcome * IPAMManager :=
  if has_field r "cidr" then
    (* Check if it's a subnet entry *)
    match new_subnet (field r "cidr") (row_get r "name" "")
                     (row_get r "description" "") with
    | Raise _ => (Counted_error, m)
    | Ok s =>
        let (added, m') := add_subnet s m in
        (if added then Counted_subnet else Not_counted, m')
    end
  else if has_field r "ip" then
    (* Check if it's an IP entry *)
    let entry :=
      new_entry (field r "ip") (row_get r "subnet" "")
                (row_get r "hostname" "") (row_get r "description" "")
                (row_get r "status" "Unknown")
                (row_get r "session_name" "") in
    let (added, m') := add_ip_entry entry m in
    (if added then Counted_ip else Not_counted, m')
  else (Not_counted, m).

(** The loop from a given row on, with the three counters; a failure of
    the reader ends the import. *)
Fixpoint import_rows (f : csv_stream) (m : IPAMManager)
  (added_ips added_subnets errors : Z) : import_result * IPAMManager :=
  match f with
  | Eof => (Imported added_ips added_subnets errors, m)
  | ReadError e => (ImportFailed e, m)
  | Row r rest =>
      let (outcome, m') := import_row r m in
      match outcome with
      | Counted_subnet =>
          import_rows rest m' added_ips (added_subnets + 1) errors
      | Counted_ip =>
          import_rows rest m' (added_ips + 1) added_subnets errors
      | Counted_error =>
          import_rows rest m' added_ips added_subnets (errors + 1)
      | Not_counted =>
          import_rows rest m' added_ips added_subnets errors
      end
  end.

Definition import_from_csv (f : csv_stream) (m : IPAMManager)
  : import_result * IPAMManager :=
  import_rows f m 0 0 0.

(** The kinds of row the import tells apart. *)
Definition is_subnet_row (r : row) : bool := has_field r "cidr".

Definition is_entry_row (r : row) : bool :=
  negb (has_field r "cidr") && has_field r "ip".

(** A row the loop body raises on: a subnet row whose [cidr] is no
    network. Nothing else in the body can raise. *)
Definition is_malformed_row (r : row) : bool :=
  is_subnet_row r
  && match ip_network (field r "cidr") with
     | Some _ => false
     | None => true
     end.

(** The repository after the rows of a list, taken in order. *)
Definition rows_effect (rows : list row) (m : IPAMManager) : IPAMManager :=
  fold_left (fun m r => snd (import_row r m)) rows m.

End WithIpv6.

(** How many rows of a list are of a kind. *)
Definition count (p : row -> bool) (rows : list row) : Z :=
  Z.of_nat (length (filter p rows)).

(** The rows of a stream, up to its end or its failure. *)
Fixpoint rows_of (f : csv_stream) : list row :=
  match f with
  | Row r rest => r :: rows_of rest
  | _ => []
  end.

Fixpoint read_error (f : csv_stream) : option string :=
  match f with
  | Eof => None
  | Row _ rest => read_error rest
  | ReadError e => Some e
  end.

End Ipam.

(** ** What the IPAM window does with the manager

    The handlers of [ui/ipam_window.py] that change the inventory, without
    their dialogs: a handler is modelled from the point where its dialog
    was accepted. *)

Module IpamUi.
Import Ipaddress Ipam.

(** Truth value of a [str] attribute that can hold [None]. *)
Definition text_truthy (t : text) : bool :=
  match t with
  | Some s => PyStr.truthy s
  | None => false
  end.

(** [entry.session_name = session.name], then the host name when the entry
    has none: the entry object of the dictionary is changed in place. *)
Definition link_entry (session : Sessions.Session) (entry : IPAMEntry)
  : IPAMEntry :=
  mkEntry (ip entry) (subnet entry)
          (if negb (text_truthy (hostname entry))
              && PyStr.truthy (Sessions.name session)
           then Some (Sessions.name session) else hostname entry)
          (description entry) (status entry)
          (Some (Sessions.name session)) (last_seen entry).

(** The entry created for a session whose host has none. *)
Definition session_entry (session : Sessions.Session) : IPAMEntry :=
  new_entry (Sessions.host session) (Some "")
            (Some (Sessions.name session))
            (Some ("Added from session: " ++ Sessions.name session))
            (Some "Active") (Some (Sessions.name session)).

(** [entry.session_name = ""] *)
Definition unlink_entry (entry : IPAMEntry) : IPAMEntry :=
  mkEntry (ip entry) (subnet entry) (hostname entry) (description entry)
          (status entry) (Some "") (last_seen entry).

Section WithIpv6.

Context {ipv6 : Ipv6Text}.

(** [IPAMWidget.add_session_to_ipam]: a host that is no IP address makes
    [ip_address] raise, and the handler passes. *)
Definition add_session_to_ipam (session : Sessions.Session) (m : IPAMManager)
  : IPAMManager :=
  if negb (PyStr.truthy (Sessions.host session)) then m
  else
    match ip_address (Sessions.host session) with
    | None => m
    | Some _ =>
        match PyDict.get (Sessions.host session) (entries m) with
        | Some entry =>
            (* Update the existing entry *)
            save_data
              (with_data m
                 (PyDict.set (Sessions.host session)
                             (link_entry session entry) (entries m))
                 (subnets m))
        | None =>
            (* Create a new entry *)
            snd (add_ip_entry (session_entry session) m)
        end
    end.

(** [IPAMWidget.update_session_in_ipam(session, old_host)] *)
Definition update_session_in_ipam (session : Sessions.Session)
  (old_host : option string) (m : IPAMManager) : IPAMManager :=
  let old := match old_host with Some h => h | None => EmptyString end in
  let m :=
    if PyStr.truthy old then
      match PyDict.get old (entries m) with
      | Some entry =>
          if text_eqb (session_name entry) (Sessions.name session) then
            (* This entry was linked to our session *)
            if PyStr.truthy (Sessions.host session)
               && negb (String.eqb (Sessions.host session) old)
            then snd (remove_ip_entry old m)
            else if negb (PyStr.truthy (Sessions.host session))
            then save_data
                   (with_data m
                      (PyDict.set old (unlink_entry entry) (entries m))
                      (subnets m))
            else m
          else m
      | None => m
      end
    else m in
  if PyStr.truthy (Sessions.host session)
     && (negb (PyStr.truthy old)
         || negb (String.eqb (Sessions.host session) old))
  then add_session_to_ipam session m
  else m.

End WithIpv6.

(** [IPAMWidget._edit_subnet]: the name and the description of the subnet
    object are replaced, its [cidr] and [network] stay. *)
Definition _edit_subnet (cidr : string) (name description : text)
  (m : IPAMManager) : IPAMManager :=
  match PyDict.get cidr (subnets m) with
  | Some s =>
      save_data
        (with_data m (entries m)
           (PyDict.set cidr
              (mkSubnet (Ipam.cidr s) name description (network s))
              (subnets m)))
  | None => m
  end.

(** [IPAMWidget._edit_ip_entry]: everything but the address. *)
Definition _edit_ip_entry (ip : string)
  (hostname description status session_name : text) (m : IPAMManager)
  : IPAMManager :=
  match PyDict.get ip (entries m) with
  | Some e =>
      save_data
        (with_data m
           (PyDict.set ip
              (mkEntry (Ipam.ip e) (subnet e) hostname description status
                       session_name (last_seen e))
              (entries m))
           (subnets m))
  | None => m
  end.

End IpamUi.

(** ** What a scan records

    The network is the environment of [scan_subnet]: a scan is given the
    probes that were answered, in the order in which their threads recorded
    them, each with the clock reading it stored and the outcome of the
    reverse lookup. *)

Module IpamScan.
Import Ipam.

(** [socket.gethostbyaddr(ip)]: a name, [socket.herror], or another
    exception, which ends the thread. *)
Inductive lookup : Type :=
| Hostname (name : string)
| Herror
| LookupError.

Record reply : Type := mkReply {
  reply_ip : string;
  reply_time : spec_float;
  reply_lookup : lookup
}.

(** The part of [ping_host] that follows a successful [ping]. *)
Definition ping_host (cidr : string) (r : reply)
  (entries : PyDict.t IPAMEntry) : PyDict.t IPAMEntry :=
  match PyDict.get (reply_ip r) entries with
  | Some e =>
      (* Update entry in our database *)
      PyDict.set (reply_ip r)
        (mkEntry (ip e) (subnet e) (hostname e) (description e)
                 (Some "Active") (session_name e) (Some (reply_time r)))
        entries
  | None =>
      (* Create new entry *)
      let entry (hostname : string) :=
        mkEntry (reply_ip r) (Some cidr) (Some hostname) (Some "")
                (Some "Active") (Some "") (Some (reply_time r)) in
      match reply_lookup r with
      | Hostname h => PyDict.set (reply_ip r) (entry h) entries
      | Herror => PyDict.set (reply_ip r) (entry "") entries
      | LookupError => entries
      end
  end.

(** [scan_subnet(cidr)]: the answer is the list of the addresses that
    replied; an unregistered CIDR is answered with the empty list before
    anything is probed or saved. *)
Definition scan_subnet (cidr : string) (replies : list reply)
  (m : IPAMManager) : list string * IPAMManager :=
  if negb (PyDict.contains cidr (subnets m)) then ([], m)
  else
    (map reply_ip replies,
     save_data (with_data m (fold_left (fun e r => ping_host cidr r e)
                                       replies (entries m))
                          (subnets m))).

(** The fields of an entry a scan leaves alone. *)
Definition same_record (e e' : IPAMEntry) : Prop :=
  ip e' = ip e /\ subnet e' = subnet e /\ hostname e' = hostname e
  /\ description e' = description e /\ session_name e' = session_name e.

End IpamScan.

(** ** CSV files

    A CSV file is held as the records the [csv] module reads from it or
    writes to it, a record being the list of its fields; an empty line is
    the empty record. Quoting is the library's. *)

Module Csv.
Import Ipam.

Definition record : Type := list string.

(** One row of [DictReader]: [dict(zip(fieldnames, row))], then [None]
    under every field name the record is too short for. The fields in
    excess are stored under the key [None], which no lookup by name
    finds. *)
Fixpoint zip_row (fieldnames : list string) (r : record) (d : row) : row :=
  match fieldnames, r with
  | [], _ => d
  | key :: keys, [] => zip_row keys [] (PyDict.set key None d)
  | key :: keys, v :: vs => zip_row keys vs (PyDict.set key (Some v) d)
  end.

Definition blank (r : record) : bool :=
  match r with
  | [] => true
  | _ => false
  end.

(** [csv.DictReader(f)]: the first record holds the field names, empty
    records after it are skipped. *)
Definition DictReader (file : list record) : list row :=
  match file with
  | [] => []
  | fieldnames :: records =>
      map (fun r => zip_row fieldnames r [])
          (filter (fun r => negb (blank r)) records)
  end.

(** A file that is read to its end. *)
Fixpoint stream (rows : list row) : csv_stream :=
  match rows with
  | [] => Eof
  | r :: rest => Row r (stream rest)
  end.

(** A field as the writer puts it: [None] is written as the empty
    string. *)
Definition written (t : text) : string :=
  match t with
  | Some s => s
  | None => EmptyString
  end.

Definition subnet_fieldnames : record := ["cidr"; "name"; "description"].

Definition entry_fieldnames : record :=
  ["ip"; "subnet"; "hostname"; "description"; "status"; "session_name";
   "last_seen"].

Definition subnet_record (s : Subnet) : record :=
  [cidr s; written (subnet_name s); written (subnet_description s)].

(** An entry as it is read back from its exported record: text columns
    come back as text, and [last_seen] is not read. *)
Definition reread (e : IPAMEntry) : IPAMEntry :=
  new_entry (ip e) (Some (written (subnet e))) (Some (written (hostname e)))
            (Some (written (description e))) (Some (written (status e)))
            (Some (written (session_name e))).

Section Writer.

(** [repr] of a [float], the text the writer makes of [last_seen]. *)
Variable float_repr : spec_float -> string.

Definition entry_record (e : IPAMEntry) : record :=
  [ip e; written (subnet e); written (hostname e); written (description e);
   written (status e); written (session_name e);
   match last_seen e with
   | Some f => float_repr f
   | None => EmptyString
   end].

Definition nonempty {A : Type} (l : list A) : bool :=
  match l with
  | [] => false
  | _ => true
  end.

(** What [export_to_csv] writes when nothing fails. *)
Definition exported (include_ips include_subnets : bool) (m : IPAMManager)
  : list record :=
  ((if include_subnets && nonempty (subnets m)
    then subnet_fieldnames
         :: map subnet_record (PyDict.values (subnets m))
         ++ (if include_ips then [[]] else [])
    else [])
   ++ (if include_ips && nonempty (entries m)
       then entry_fieldnames :: map entry_record (PyDict.values (entries m))
       else []))%list.

(** [export_to_csv(file_path, include_ips, include_subnets)]: [opens]
    tells whether the file can be opened and written; a failure is printed
    and answered with [False], and what it leaves of the file is not
    modelled. *)
Definition export_to_csv (opens : bool) (include_ips include_subnets : bool)
  (m : IPAMManager) : bool * option (list record) :=
  if opens then (true, Some (exported include_ips include_subnets m))
  else (false, None).

End Writer.

End Csv.

(** ** Loading the inventory, and the states it goes through *)

Module IpamStore.
Import Ipaddress Ipam.

(** Every entry is stored under its own address. *)
Definition entries_keyed (d : PyDict.t IPAMEntry) : Prop :=
  Forall (fun kv => ip (snd kv) = fst kv) d.

Section WithIpv6.

Context {ipv6 : Ipv6Text}.

(** The loop of [load_data] over the records of the entries file. *)
Definition load_entries (data : list IPAMEntry)
  (entries : PyDict.t IPAMEntry) : PyDict.t IPAMEntry :=
  fold_left (fun acc entry => PyDict.set (ip entry) entry acc) data entries.

(** The loop over the records of the subnets file: a record holds [cidr],
    [name] and [description], and [Subnet.from_dict] builds the network
    again. The [try] encloses the loop, so the first record whose [cidr]
    is no network ends it. *)
Fixpoint load_subnets (data : list Subnet) (subnets : PyDict.t Subnet)
  : PyDict.t Subnet :=
  match data with
  | [] => subnets
  | d :: rest =>
      match new_subnet (cidr d) (subnet_name d) (subnet_description d) with
      | Ok s => load_subnets rest (PyDict.set (cidr s) s subnets)
      | Raise _ => subnets
      end
  end.

(** [IPAMManager.load_data] *)
Definition load_data (m : IPAMManager) : IPAMManager :=
  with_data m
    (match entries_file m with
     | Some data => load_entries data (entries m)
     | None => entries m
     end)
    (match subnets_file m with
     | Some data => load_subnets data (subnets m)
     | None => subnets m
     end).

(** [IPAMManager.__init__] on given files; [home] is the default data
    directory. [Path] accepts a [str] only. *)
Definition init (config : Config.dict) (home : string)
  (entries_file : option (list IPAMEntry))
  (subnets_file : option (list Subnet))
  (entries_writable subnets_writable : bool) : result IPAMManager :=
  match Config.get config "general" "data_dir" (Config.VStr home) with
  | Raise e => Raise e
  | Ok (Config.VStr _) =>
      Ok (load_data (mkIpam [] [] entries_file subnets_file
                            entries_writable subnets_writable))
  | Ok _ => Raise (TypeError "expected str, bytes or os.PathLike object")
  end.

(** Every subnet is stored under its own CIDR and is what the constructor
    makes of it. *)
Definition subnets_keyed (d : PyDict.t Subnet) : Prop :=
  Forall (fun kv =>
            new_subnet (fst kv) (subnet_name (snd kv))
                       (subnet_description (snd kv)) = Ok (snd kv)) d.

(** Both dictionaries are keyed by what they are about. *)
Definition consistent (m : IPAMManager) : Prop :=
  PyDict.wf (entries m) /\ PyDict.wf (subnets m)
  /\ entries_keyed (entries m) /\ subnets_keyed (subnets m).

(** The states of the inventory: built by [__init__], then changed by the
    manager's operations and by the handlers of the window. A [Subnet]
    comes from its constructor. *)
Inductive reachable : IPAMManager -> Prop :=
| reach_init config home ef sf ew sw m :
    init config home ef sf ew sw = Ok m -> reachable m
| reach_save m :
    reachable m -> reachable (save_data m)
| reach_add_subnet c n d s m :
    new_subnet c n d = Ok s ->
    reachable m -> reachable (snd (add_subnet s m))
| reach_remove_subnet c m :
    reachable m -> reachable (snd (remove_subnet c m))
| reach_add_ip_entry e m :
    reachable m -> reachable (snd (add_ip_entry e m))
| reach_remove_ip_entry a m :
    reachable m -> reachable (snd (remove_ip_entry a m))
| reach_scan c replies m :
    reachable m -> reachable (snd (IpamScan.scan_subnet c replies m))
| reach_import f m :
    reachable m -> reachable (snd (import_from_csv f m))
| reach_edit_subnet c n d m :
    reachable m -> reachable (IpamUi._edit_subnet c n d m)
| reach_edit_ip_entry a h d st sn m :
    reachable m -> reachable (IpamUi._edit_ip_entry a h d st sn m)
| reach_link session m :
    reachable m -> reachable (IpamUi.add_session_to_ipam session m)
| reach_relink session old_host m :
    reachable m ->
    reachable (IpamUi.update_session_in_ipam session old_host m).

End WithIpv6.

End IpamStore.

(** ** SSHKeyConverter *)

Module SSHKeyConverter.

(** [is_ppk_file(key_path)] on a path given as text *)
Definition is_ppk_file (key_path : string) : bool :=
  PyStr.endswith ".ppk" (PyStr.lower key_path).

End SSHKeyConverter.

(** ** Launcher: the command line of PuTTY

    [launch_putty(session)] with [raw_args] left at its default. The file
    system and the user are the environment: [exists] is
    [os.path.exists], [continue_with_password] the answer to the warning
    about a key that is no PPK file. *)

Module Launcher.
Import Sessions.

Definition potential_paths : list string :=
  [ "C:\Program Files\PuTTY\putty.exe";
    "C:\Program Files (x86)\PuTTY\putty.exe" ].

(** The two names [cmd] and [safe_cmd]: [safe_cmd = cmd] makes them one
    list object, [safe_cmd = cmd.copy()] two. *)
Inductive cmd_lists : Type :=
| Same (cmd : list string)
| Copy (cmd safe_cmd : list string).

(** [cmd.append(param)] then [safe_cmd.append(param)] *)
Definition append_both (ls : cmd_lists) (param : string) : cmd_lists :=
  match ls with
  | Same cmd => Same ((cmd ++ [param]) ++ [param])
  | Copy cmd safe_cmd => Copy (cmd ++ [param]) (safe_cmd ++ [param])
  end.

(** [l.index(x)]; [None] stands for [ValueError]. *)
Fixpoint index (x : string) (l : list string) : option nat :=
  match l with
  | [] => None
  | y :: r =>
      if String.eqb y x then Some O
      else match index x r with
           | Some i => Some (S i)
           | None => None
           end
  end.

(** [l[i] = x] for [i < len(l)] *)
Fixpoint set_item (i : nat) (x : string) (l : list string) : list string :=
  match i, l with
  | _, [] => []
  | O, _ :: r => x :: r
  | S i', y :: r => y :: set_item i' x r
  end.

(** The masking of the password in the copy that is printed. *)
Definition mask (safe_cmd : list string) : option (list string) :=
  match index "-pw" safe_cmd with
  | None => None
  | Some pw_index =>
      Some (if (pw_index + 1 <? length safe_cmd)%nat
            then set_item (pw_index + 1) "********" safe_cmd
            else safe_cmd)
  end.

Inductive outcome : Type :=
| Started (cmd safe_cmd : list string)
| Cancelled
| Failed (error : string).

(** [str(getattr(session, 'port', 22))]: a [Session] has no [port]. *)
Definition port : string := "22".

Definition launch_putty (exists_ : string -> bool)
  (continue_with_password : bool) (session : option Session) : outcome :=
  match find exists_ potential_paths with
  | None => Failed "PuTTY GUI executable (putty.exe) not found"
  | Some putty_executable =>
      let cmd := [putty_executable] in
      match session with
      | None => Started cmd cmd
      | Some session =>
          let has_key :=
            PyStr.truthy (key_file session) && exists_ (key_file session) in
          let is_ppk := PyStr.endswith ".ppk" (PyStr.lower (key_file session)) in
          if has_key && negb is_ppk && negb continue_with_password
          then Cancelled
          else
            let lists :=
              if has_key && is_ppk then
                (* key file: [safe_cmd = cmd] *)
                Some (Same (cmd ++ ["-ssh"; host session; "-P"; port]
                                ++ ["-i"; key_file session]
                                ++ (if PyStr.truthy (username session)
                                    then ["-l"; username session] else [])))
              else
                let target :=
                  if PyStr.truthy (username session)
                  then username session ++ "@" ++ host session
                  else host session in
                let cmd :=
                  (cmd ++ ["-ssh"; target; "-P"; port]
                       ++ (if PyStr.truthy (password session)
                           then ["-pw"; password session] else []))%list in
                if PyStr.truthy (password session)
                then match mask cmd with
                     | Some safe_cmd => Some (Copy cmd safe_cmd)
                     | None => None
                     end
                else Some (Copy cmd cmd) in
            match lists with
            | None => Failed "'-pw' is not in list"
            | Some lists =>
                let lists :=
                  if PyStr.truthy (params session)
                  then fold_left append_both
                                 (PyStr.split_whitespace (params session))
                                 lists
                  else lists in
                match lists with
                | Same cmd => Started cmd cmd
                | Copy cmd safe_cmd => Started cmd safe_cmd
                end
            end
      end
  end.

End Launcher.

(** ** The thread pool of [scan_subnet] *)

Module Scan.

(** Where the calling thread is in [scan_subnet]: about to take the next
    address of the [for] loop, in the [while] loop that follows
    [thread.start()], in the [join] loop, or returned. *)
Inductive location : Type :=
| Dispatching (todo : list string)
| Throttling (todo : list string)
| Joining (pending : list nat)
| Returned.

(** [started] counts the threads created so far (thread [i] probes the
    [i]-th address) and [alive] holds those that have not finished: the
    probes in flight. *)
Record state : Type := mkState {
  pc : location;
  started : nat;
  alive : list nat
}.

Definition limit : nat := 50.

Definition init (ip_range : list string) : state :=
  mkState (Dispatching ip_range) 0 [].

(** One atomic step of the calling thread or of a worker. The sum
    [sum(t.is_alive() for t in threads)] reads the threads one after the
    other while workers may finish, so the value [seen] it yields is at
    least the number alive when it is compared with 50. *)
Inductive step : state -> state -> Prop :=
| step_start ip todo n alive :
    step (mkState (Dispatching (ip :: todo)) n alive)
         (mkState (Throttling todo) (S n) (n :: alive))
| step_sleep todo n alive seen :
    (length alive <= seen)%nat -> (limit <= seen)%nat ->
    step (mkState (Throttling todo) n alive)
         (mkState (Throttling todo) n alive)
| step_next todo n alive seen :
    (length alive <= seen)%nat -> (seen < limit)%nat ->
    step (mkState (Throttling todo) n alive)
         (mkState (Dispatching todo) n alive)
| step_dispatched n alive :
    step (mkState (Dispatching []) n alive)
         (mkState (Joining (seq 0 n)) n alive)
| step_join t pending n alive :
    ~ In t alive ->
    step (mkState (Joining (t :: pending)) n alive)
         (mkState (Joining pending) n alive)
| step_return n alive :
    step (mkState (Joining []) n alive) (mkState Returned n alive)
| step_finish t l n alive :
    In t alive ->
    step (mkState l n alive)
         (mkState l n (filter (fun x => negb (Nat.eqb x t)) alive)).

Inductive reachable (ip_range : list string) : state -> Prop :=
| reach_init : reachable ip_range (init ip_range)
| reach_step s s' : reachable ip_range s -> step s s' -> reachable ip_range s'.

(** Addresses not yet dispatched. *)
Definition todo_of (l : location) : list string :=
  match l with
  | Dispatching todo | Throttling todo => todo
  | Joining _ | Returned => []
  end.

(** What holds in every state of a scan of [ip_range]. *)
Record invariant (ip_range : list string) (s : state) : Prop := {
  inv_limit : (length (alive s) <= limit)%nat;
  inv_room : forall todo, pc s = Dispatching todo ->
                          (length (alive s) < limit)%nat;
  inv_started : forall t, In t (alive s) -> (t < started s)%nat;
  inv_progress : (started s + length (todo_of (pc s)))%nat = length ip_range;
  inv_pending : forall pending, pc s = Joining pending ->
                                forall t, In t (alive s) -> In t pending;
  inv_returned : pc s = Returned -> alive s = []
}.

End Scan.

(** ** Sample inputs *)

Module Samples.
Import Sessions.

Definition session_web : Session :=
  new_session "web-01" "10.0.0.5" "root" "" "prod" ["linux"] "" "" "".

Definition noon : Datetime.t := Datetime.mk 2024 5 17 12 0 0 0.

(** A first start: default configuration, no file yet. *)
Definition fresh_manager : SessionManager :=
  mkManager Config.defaults [] None [] true [].

(** A stored configuration: one default overridden inside a section, one
    key added to a section, one section replaced by a plain value and one
    section unknown to the defaults. *)
Definition stored_config : Config.dict :=
  [ ("ui", Config.VDict [ ("theme", Config.VStr "dark");
                          ("language", Config.VStr "de") ]);
    ("ipam", Config.VBool false);
    ("general", Config.VDict [ ("max_backups", Config.VInt 3) ]);
    ("window", Config.VDict [ ("width", Config.VInt 800) ]) ].

Definition after (seconds : Z) (t : Datetime.t) : Datetime.t :=
  Datetime.mk (Datetime.year t) (Datetime.month t) (Datetime.day t)
              (Datetime.hour t) (Datetime.minute t)
              (Datetime.second t + seconds) (Datetime.microsecond t).

(** A first start with a hand-written [max_backups]. *)
Definition manager_keeping (k : Z) : SessionManager :=
  mkManager [ ("general", Config.VDict [ ("max_backups", Config.VInt k) ]) ]
            [] None [] true [].

(** An installation in use with [max_backups = 2]: the sessions file
    exists, and the backups directory holds three backups of earlier days,
    in no particular order, and a file that is no backup. *)
Definition manager_in_use : SessionManager :=
  mkManager [ ("general", Config.VDict [ ("max_backups", Config.VInt 2) ]) ]
            [] (Some [])
            [ ("sessions_backup_20240516_090000.json", []);
              ("notes.txt", []);
              ("sessions_backup_20240514_090000.json", []);
              ("sessions_backup_20240515_090000.json", []) ]
            true [].

(** An IPv6 codec that accepts no text. Every textual IPv6 address has a
    colon; the sample texts have none, so the library rejects them as IPv6
    as this codec does. *)
Definition colon_free : Ipaddress.Ipv6Text :=
  {| Ipaddress.ipv6_address := fun _ => None;
     Ipaddress.ipv6_network := fun _ => None;
     Ipaddress.ipv6_str := fun _ => EmptyString |}.

(** The library's IPv6 codec on the texts of one sample, the block
    [2001:db8::/126] of the documentation prefix: its four addresses as
    the library prints them, and one of them in upper case, which the
    library reads as the same address. Other texts are unknown to it. *)
Definition documentation_block : Ipaddress.Ipv6Text :=
  {| Ipaddress.ipv6_address := fun text =>
       if String.eqb text "2001:db8::"
       then Some 42540766411282592856903984951653826560
       else if String.eqb text "2001:db8::1" || String.eqb text "2001:DB8::1"
       then Some 42540766411282592856903984951653826561
       else if String.eqb text "2001:db8::2"
       then Some 42540766411282592856903984951653826562
       else if String.eqb text "2001:db8::3"
       then Some 42540766411282592856903984951653826563
       else None;
     Ipaddress.ipv6_network := fun text =>
       if String.eqb text "2001:db8::/126"
       then Some (42540766411282592856903984951653826560, 126)
       else None;
     Ipaddress.ipv6_str := fun n =>
       if n =? 42540766411282592856903984951653826560 then "2001:db8::"
       else if n =? 42540766411282592856903984951653826561 then "2001:db8::1"
       else if n =? 42540766411282592856903984951653826562 then "2001:db8::2"
       else if n =? 42540766411282592856903984951653826563 then "2001:db8::3"
       else EmptyString |}.

(** The subnet the constructor makes of that block. *)
Definition documentation_subnet : Ipam.Subnet :=
  Ipam.mkSubnet "2001:db8::/126" (Some "lab") (Some "")
    (Ipaddress.mkNetwork Ipaddress.V6
                         42540766411282592856903984951653826560 126).

Definition empty_ipam : Ipam.IPAMManager :=
  Ipam.mkIpam [] [] None None true true.

Definition office_entry (ip : string) (subnet : string) : Ipam.IPAMEntry :=
  Ipam.new_entry ip (Some subnet) (Some "") (Some "") (Some "Unknown")
                 (Some "").

(** A CSV file with the header [cidr,name,ip,subnet] and three rows: a
    subnet, an entry, and a subnet whose [cidr] is no network. *)
Definition three_rows : Ipam.csv_stream :=
  Ipam.Row [ ("cidr", Some "192.168.1.0/24"); ("name", Some "office");
             ("ip", Some ""); ("subnet", Some "") ]
    (Ipam.Row [ ("cidr", Some ""); ("name", Some "");
                ("ip", Some "192.168.1.10");
                ("subnet", Some "192.168.1.0/24") ]
       (Ipam.Row [ ("cidr", Some "not-a-cidr"); ("name", Some "");
                   ("ip", Some ""); ("subnet", Some "") ]
          Ipam.Eof)).

(** The same file with, for third row, an entry whose [ip] is no address
    instead of the subnet whose [cidr] is no network. *)
Definition three_rows_bad_ip : Ipam.csv_stream :=
  Ipam.Row [ ("cidr", Some "192.168.1.0/24"); ("name", Some "office");
             ("ip", Some ""); ("subnet", Some "") ]
    (Ipam.Row [ ("cidr", Some ""); ("name", Some "");
                ("ip", Some "192.168.1.10");
                ("subnet", Some "192.168.1.0/24") ]
       (Ipam.Row [ ("cidr", Some ""); ("name", Some "");
                   ("ip", Some "not-an-ip"); ("subnet", Some "") ]
          Ipam.Eof)).

(** The profile of [session_web] after an edit of its host and user. *)
Definition session_web_edited : Session :=
  new_session "web-01" "10.0.0.9" "admin" "" "prod" [] "" "" "".

(** The office subnet as the constructor builds it. *)
Definition office_subnet : Ipam.Subnet :=
  Ipam.mkSubnet "192.168.1.0/24" (Some "office") (Some "")
                (Ipaddress.mkNetwork Ipaddress.V4 3232235776 24).

(** A record of the subnets file whose [cidr] is no network. *)
Definition damaged_subnet : Ipam.Subnet :=
  Ipam.mkSubnet "not-a-cidr" (Some "") (Some "")
                (Ipaddress.mkNetwork Ipaddress.V4 0 0).

Definition lab_subnet : Ipam.Subnet :=
  Ipam.mkSubnet "10.0.0.0/8" (Some "lab") (Some "")
                (Ipaddress.mkNetwork Ipaddress.V4 167772160 8).

(** An inventory with the office subnet and one of its hosts. *)
Definition office_ipam : Ipam.IPAMManager :=
  snd (Ipam.add_ip_entry (office_entry "192.168.1.10" "192.168.1.0/24")
                         (snd (Ipam.add_subnet office_subnet empty_ipam))).

(** A session whose host is the address of that entry, and the same
    session after its host was changed. *)
Definition session_host : Session :=
  new_session "printer" "192.168.1.10" "" "" "" [] "" "" "".

Definition session_host_moved : Session :=
  new_session "printer" "192.168.1.11" "" "" "" [] "" "" "".

(** The same session with no host any more. *)
Definition session_host_cleared : Session :=
  new_session "printer" "" "" "" "" [] "" "" "".

(** The office inventory with the entry of [192.168.1.10] linked to the
    session [printer]. *)
Definition linked_ipam : Ipam.IPAMManager :=
  IpamUi.add_session_to_ipam (ipv6 := colon_free) session_host office_ipam.

(** [repr] of a [float], for inventories that hold no [last_seen]. *)
Definition no_float (f : spec_float) : string := EmptyString.

(** A machine with PuTTY in its first location and one key file. *)
Definition putty_installed (path : string) : bool :=
  String.eqb path "C:\Program Files\PuTTY\putty.exe"
  || String.eqb path "C:\keys\web.PPK".

Definition session_with_key : Session :=
  new_session "web-01" "10.0.0.5" "root" "" "prod" [] "" "C:\keys\web.PPK"
              "-v -C".

Definition session_with_password : Session :=
  new_session "web-01" "10.0.0.5" "root" "secret" "prod" [] "" "" "-v".

End Samples.

(* ================================================================== *)
(** * Part II. Properties *)
(* ================================================================== *)

(** ** Dictionaries *)

Section PyDictFacts.

Context {V : Type}.
Implicit Types (d : PyDict.t V) (k : string) (v : V).

Lemma get_set_same k v d : PyDict.get k (PyDict.set k v d) = Some v.
Proof.
  induction d as [|[k' v'] r IH]; simpl.
  - now rewrite String.eqb_refl.
  - destruct (String.eqb k k') eqn:E; simpl; rewrite E; auto.
Qed.

Lemma get_set_other k k' v d :
  k <> k' -> PyDict.get k' (PyDict.set k v d) = PyDict.get k' d.
Proof.
  intros Hne. induction d as [|[k0 v0] r IH]; simpl.
  - destruct (String.eqb k' k) eqn:E; auto.
    apply String.eqb_eq in E. congruence.
  - destruct (String.eqb k k0) eqn:E; simpl.
    + apply String.eqb_eq in E. subst k0.
      destruct (String.eqb k' k) eqn:E'; auto.
      apply String.eqb_eq in E'. congruence.
    + now rewrite IH.
Qed.

Lemma get_pop_same k d : PyDict.get k (PyDict.pop k d) = None.
Proof.
  unfold PyDict.pop. induction d as [|[k' v'] r IH]; simpl; auto.
  destruct (String.eqb k k') eqn:E; simpl; auto. now rewrite E.
Qed.

Lemma get_pop_other k k' d :
  k <> k' -> PyDict.get k' (PyDict.pop k d) = PyDict.get k' d.
Proof.
  intros Hne. unfold PyDict.pop.
  induction d as [|[k0 v0] r IH]; simpl; auto.
  destruct (String.eqb k k0) eqn:E; simpl.
  - apply String.eqb_eq in E. subst k0.
    destruct (String.eqb k' k) eqn:E'; auto.
    apply String.eqb_eq in E'. congruence.
  - now rewrite IH.
Qed.

Lemma contains_true k d :
  PyDict.contains k d = true <-> exists v, PyDict.get k d = Some v.
Proof.
  unfold PyDict.contains. destruct (PyDict.get k d); split; eauto.
  - discriminate.
  - intros [v Hv]. discriminate.
Qed.

Lemma contains_false k d :
  PyDict.contains k d = false <-> PyDict.get k d = None.
Proof.
  unfold PyDict.contains. destruct (PyDict.get k d); split; congruence.
Qed.

Lemma get_In k v d : PyDict.get k d = Some v -> In (k, v) d.
Proof.
  induction d as [|[k' v'] r IH]; simpl; [discriminate|].
  destruct (String.eqb k k') eqn:E; auto.
  apply String.eqb_eq in E. intros [= ->]. subst. now left.
Qed.

Lemma get_None_keys k d : PyDict.get k d = None <-> ~ In k (PyDict.keys d).
Proof.
  induction d as [|[k' v'] r IH]; simpl.
  - tauto.
  - destruct (String.eqb k k') eqn:E.
    + apply String.eqb_eq in E. subst. split; [discriminate | tauto].
    + apply String.eqb_neq in E. rewrite IH. split.
      * intros H [H' | H']; congruence.
      * tauto.
Qed.

Lemma Forall_set (P : string * V -> Prop) k v d :
  Forall P d -> P (k, v) -> Forall P (PyDict.set k v d).
Proof.
  intros Hd Hk. induction Hd as [|[k' v'] r Hx Hr IH]; simpl.
  - now constructor.
  - destruct (String.eqb k k') eqn:E.
    + apply String.eqb_eq in E. subst. now constructor.
    + now constructor.
Qed.

Lemma Forall_pop (P : string * V -> Prop) k d :
  Forall P d -> Forall P (PyDict.pop k d).
Proof.
  intros Hd. unfold PyDict.pop. rewrite Forall_forall in *.
  intros x Hx. apply filter_In in Hx. now apply Hd.
Qed.

End PyDictFacts.

(** ** SessionManager *)

Module SessionFacts.
Import Sessions Samples.

(** A backup touches the backups directory and nothing else. *)
Lemma create_backup_frame now m :
  let m' := _create_backup now m in
  config m' = config m /\ sessions m' = sessions m
  /\ session_file m' = session_file m /\ writable m' = writable m
  /\ locked m' = locked m.
Proof.
  unfold _create_backup.
  destruct (session_file m) eqn:F; [|now rewrite F].
  destruct (max_backups_setting m) as [v|e]; [destruct v|]; simpl;
    rewrite ?F; auto 6.
Qed.

Lemma save_sessions_frame now m :
  let m' := snd (save_sessions now m) in
  config m' = config m /\ sessions m' = sessions m
  /\ writable m' = writable m /\ locked m' = locked m.
Proof.
  unfold save_sessions.
  destruct (create_backup_frame now m) as (Hc & Hs & _ & Hw & Hl).
  cbv zeta in *.
  destruct (writable (_create_backup now m)) eqn:E; simpl;
    repeat split; congruence.
Qed.

(** A save leaves the mapping as it is. *)
Lemma sessions_after_save now m :
  sessions (snd (save_sessions now m)) = sessions m.
Proof. now destruct (save_sessions_frame now m) as (_ & Hs & _). Qed.

(** Rewrites the mapping of a state just saved. *)
Ltac after_save := rewrite sessions_after_save; cbn [sessions with_sessions].

Lemma save_sessions_persisted now m :
  writable m = true -> persisted (snd (save_sessions now m)).
Proof.
  intros Hw. unfold save_sessions, persisted.
  destruct (create_backup_frame now m) as (_ & Hs & _ & Hw' & _).
  simpl in Hw'. rewrite Hw', Hw. reflexivity.
Qed.

Lemma strip_truthy s :
  PyStr.strip s <> "" -> PyStr.truthy (PyStr.strip s) = true.
Proof. destruct (PyStr.strip s); [congruence | reflexivity]. Qed.

(** C1. For a session [S] whose name is not empty or blank and not in
    the repository, [add_session S] returns [True] and [get_session] of
    [S]'s name then returns [S]; when the name is already present,
    [add_session S] raises [ValueError] and the manager (the stored session,
    the rest of the mapping, the files) is exactly what it was. *)
Theorem add_then_get now (S : Session) (m : SessionManager) :
  (PyStr.strip (name S) <> "" ->
   PyDict.contains (name S) (sessions m) = false ->
   fst (add_session now S m) = Ok true
   /\ get_session (name S) (snd (add_session now S m)) = Some S)
  /\ (PyDict.contains (name S) (sessions m) = true ->
      exists msg, add_session now S m = (Raise (ValueError msg), m)).
Proof.
  split.
  - intros Hname Hnew. unfold add_session.
    rewrite (strip_truthy _ Hname), Hnew. simpl. split; [reflexivity|].
    unfold get_session. after_save. apply get_set_same.
  - intros Hdup. unfold add_session.
    destruct (negb (PyStr.truthy (PyStr.strip (name S)))); eauto.
    rewrite Hdup. eauto.
Qed.

Lemma add_then_get_witness :
  (fst (add_session noon session_web fresh_manager) = Ok true
   /\ get_session "web-01" (snd (add_session noon session_web fresh_manager))
      = Some session_web)
  /\ (exists msg,
        add_session noon session_web
          (snd (add_session noon session_web fresh_manager))
        = (Raise (ValueError msg),
           snd (add_session noon session_web fresh_manager))).
Proof.
  split.
  - apply (proj1 (add_then_get noon session_web fresh_manager)).
    + vm_compute. discriminate.
    + reflexivity.
  - apply (proj2 (add_then_get noon session_web
                    (snd (add_session noon session_web fresh_manager)))).
    reflexivity.
Defined.

(** C6. [update_connection_stats] on a stored name sets
    [last_connection] to the clock reading and adds one to
    [connection_count], leaves the session under its key and, the file being
    writable, persists the mapping; called twice it adds exactly two and
    [last_connection] is the reading of the second call. On an absent name
    nothing at all changes (and nothing can be raised: the operation has
    no error result). *)
Theorem record_connection_twice now1 save1 now2 save2 (n : string)
  (m : SessionManager) :
  (forall s, get_session n m = Some s ->
     let m1 := update_connection_stats now1 save1 n m in
     let m2 := update_connection_stats now2 save2 n m1 in
     get_session n m1 = Some (touch (Datetime.isoformat now1) s)
     /\ connection_count (touch (Datetime.isoformat now1) s)
        = connection_count s + 1
     /\ (writable m = true -> persisted m1)
     /\ (exists s2,
           get_session n m2 = Some s2
           /\ connection_count s2 = connection_count s + 2
           /\ last_connection s2 = Some (Datetime.isoformat now2))
     /\ (writable m = true -> persisted m2))
  /\ (get_session n m = None -> update_connection_stats now1 save1 n m = m).
Proof.
  assert (step : forall t t' m0 s0,
             get_session n m0 = Some s0 ->
             get_session n (update_connection_stats t t' n m0)
             = Some (touch (Datetime.isoformat t) s0)
             /\ writable (update_connection_stats t t' n m0) = writable m0
             /\ (writable m0 = true ->
                 persisted (update_connection_stats t t' n m0))).
  { intros t t' m0 s0 H0. unfold get_session in *.
    unfold update_connection_stats. rewrite H0.
    set (m0' := with_sessions m0 _).
    destruct (save_sessions_frame t' m0') as (_ & Hs & Hw & _).
    cbv zeta in Hs, Hw. rewrite Hs, Hw. simpl.
    split; [apply get_set_same|]. split; [reflexivity|].
    intros W. now apply save_sessions_persisted. }
  split.
  - intros s Hs m1 m2.
    destruct (step now1 save1 m s Hs) as (G1 & W1 & P1).
    destruct (step now2 save2 m1 _ G1) as (G2 & W2 & P2).
    fold m1 in G1, W1, P1. fold m2 in G2, W2, P2.
    repeat split; auto.
    + eexists. split; [exact G2|]. simpl. split; [lia | reflexivity].
    + intros W. apply P2. congruence.
  - unfold get_session, update_connection_stats. now intros ->.
Qed.

Lemma record_connection_twice_witness :
  let m := snd (add_session noon session_web fresh_manager) in
  let m2 := update_connection_stats noon noon "web-01"
              (update_connection_stats noon noon "web-01" m) in
  (exists s2,
      get_session "web-01" m2 = Some s2
      /\ connection_count s2 = connection_count session_web + 2
      /\ last_connection s2 = Some (Datetime.isoformat noon))
  /\ update_connection_stats noon noon "absent" m = m.
Proof.
  intros m m2.
  pose proof (record_connection_twice noon noon noon noon "web-01" m)
    as [Hpresent _].
  pose proof (record_connection_twice noon noon noon noon "absent" m)
    as [_ Habsent].
  split.
  - apply (Hpresent session_web). reflexivity.
  - apply Habsent. reflexivity.
Defined.

Lemma load_keyed data :
  forall acc, keyed_by_name acc ->
    keyed_by_name
      (fold_left (fun acc session => PyDict.set (name session) session acc)
                 data acc).
Proof.
  induction data as [|s r IH]; simpl; intros acc Hacc; auto.
  apply IH. now apply Forall_set.
Qed.

Lemma reachable_keyed m : reachable m -> keyed_by_name (sessions m).
Proof.
  induction 1 as [cfg file dir w lk m Hinit
                 | now s m Hr IH | now s m Hr IH | now n m Hr IH
                 | now now' n m Hr IH].
  - unfold init in Hinit. destruct (Config.get _ _ _ _); [|discriminate].
    injection Hinit as <-. unfold _load_sessions. simpl.
    destruct file; simpl; [|constructor].
    apply load_keyed. constructor.
  - unfold add_session.
    destruct (negb _); simpl; auto. destruct (PyDict.contains _ _); simpl; auto.
    after_save. now apply Forall_set.
  - unfold update_session.
    destruct (negb _); simpl; auto. destruct (negb _); simpl; auto.
    after_save. now apply Forall_set.
  - unfold delete_session. destruct (negb _); simpl; auto.
    after_save. now apply Forall_pop.
  - unfold update_connection_stats.
    destruct (PyDict.get n (sessions m)) as [s|] eqn:G; auto.
    after_save. apply Forall_set; auto. simpl.
    apply get_In in G. unfold keyed_by_name in IH.
    rewrite Forall_forall in IH. exact (IH _ G).
Qed.

(** C10. In every state the repository reaches from its constructor by
    [add_session], [update_session], [delete_session] and
    [update_connection_stats], the session found under a name carries
    that name. *)
Theorem stored_under_own_name (m : SessionManager) :
  reachable m ->
  forall n s, get_session n m = Some s -> name s = n.
Proof.
  intros Hr n s Hg. apply reachable_keyed in Hr.
  unfold keyed_by_name in Hr. rewrite Forall_forall in Hr.
  exact (Hr _ (get_In _ _ _ Hg)).
Qed.

Lemma stored_under_own_name_witness :
  name session_web = "web-01".
Proof.
  apply (stored_under_own_name
           (update_connection_stats noon noon "web-01"
              (snd (add_session noon session_web fresh_manager)))
           (reach_record _ _ _ _
              (reach_add _ _ _
                 (reach_init Config.defaults None [] true [] fresh_manager
                    eq_refl)))
           "web-01"
           (touch (Datetime.isoformat noon) session_web)).
  reflexivity.
Defined.

End SessionFacts.

(** ** ConfigManager *)

Module ConfigFacts.
Import Config Samples.

Lemma merge_nil target : _merge_configs target [] = target.
Proof. reflexivity. Qed.

Lemma merge_cons target key v rest :
  _merge_configs target ((key, v) :: rest)
  = _merge_configs
      (match PyDict.get key target, v with
       | Some (VDict sub), VDict src =>
           PyDict.set key (VDict (_merge_configs sub src)) target
       | _, _ => PyDict.set key v target
       end) rest.
Proof.
  unfold _merge_configs. simpl.
  destruct (PyDict.get key target) as [[]|]; try reflexivity.
  destruct v; reflexivity.
Qed.

Lemma merge_lookup source :
  NoDup (PyDict.keys source) ->
  forall target key,
    PyDict.get key (_merge_configs target source)
    = match PyDict.get key source with
      | None => PyDict.get key target
      | Some v =>
          match PyDict.get key target, v with
          | Some (VDict sub), VDict src => Some (VDict (_merge_configs sub src))
          | _, _ => Some v
          end
      end.
Proof.
  induction source as [|[k v] rest IH]; intros Hnd target key.
  - reflexivity.
  - simpl in Hnd. inversion Hnd as [|? ? Hk Hrest]; subst.
    rewrite merge_cons, (IH Hrest). simpl.
    destruct (String.eqb key k) eqn:E.
    + apply String.eqb_eq in E. subst k.
      apply get_None_keys in Hk. rewrite Hk.
      destruct (PyDict.get key target) as [[]|]; try apply get_set_same.
      destruct v; apply get_set_same.
    + apply String.eqb_neq in E.
      assert (Hsame : forall x, PyDict.get key (PyDict.set k x target)
                                = PyDict.get key target)
        by (intros x; apply get_set_other; congruence).
      destruct (PyDict.get k target) as [[]|]; rewrite ?Hsame; try reflexivity.
      destruct v; rewrite Hsame; reflexivity.
Qed.

(** C7. [load] overlays the stored mapping on the in-memory defaults
    key by key: a key of both sides whose two values are mappings holds
    their recursive merge, any other key of the file holds the stored
    value (replacing the default or added), and a key of the defaults alone
    keeps its default. The keys of a mapping read from JSON are distinct. *)
Theorem load_overlay (config stored : dict) (key : string) :
  NoDup (PyDict.keys stored) ->
  PyDict.get key (load config (Parsed (VDict stored)))
  = match PyDict.get key config, PyDict.get key stored with
    | Some (VDict sub), Some (VDict src) =>
        Some (VDict (_merge_configs sub src))
    | _, Some v => Some v
    | Some d, None => Some d
    | None, None => None
    end.
Proof.
  intros Hnd. simpl. rewrite (merge_lookup _ Hnd).
  destruct (PyDict.get key stored) as [v|];
    destruct (PyDict.get key config) as [[]|]; try reflexivity;
    destruct v; reflexivity.
Qed.

Lemma stored_config_keys : NoDup (PyDict.keys stored_config).
Proof.
  unfold stored_config, PyDict.keys; simpl.
  repeat constructor; simpl; intuition discriminate.
Defined.

Lemma load_overlay_witness :
  PyDict.get "ui" (load defaults (Parsed (VDict stored_config)))
  = Some (VDict [ ("show_toolbar", VBool true);
                  ("show_statusbar", VBool true);
                  ("font_size", VInt 10);
                  ("theme", VStr "dark");
                  ("language", VStr "de") ])
  /\ PyDict.get "ipam" (load defaults (Parsed (VDict stored_config)))
     = Some (VBool false)
  /\ PyDict.get "window" (load defaults (Parsed (VDict stored_config)))
     = Some (VDict [ ("width", VInt 800) ]).
Proof.
  split; [|split].
  - exact (load_overlay defaults stored_config "ui" stored_config_keys).
  - exact (load_overlay defaults stored_config "ipam" stored_config_keys).
  - exact (load_overlay defaults stored_config "window" stored_config_keys).
Defined.

(** A file that is missing, unreadable or no mapping leaves the defaults. *)
Lemma load_failure config :
  load config Missing = config /\ load config Unparsable = config
  /\ forall l, load config (Parsed (VList l)) = config.
Proof. repeat split. Qed.

End ConfigFacts.

(** ** Backup names sort by time *)

Module NameOrder.

Lemma compare_refl s : String.compare s s = Eq.
Proof.
  induction s as [|c s IH]; simpl; auto.
  unfold Ascii.compare. now rewrite N.compare_refl.
Qed.

Lemma compare_app_prefix p a b :
  String.compare (p ++ a) (p ++ b) = String.compare a b.
Proof.
  induction p as [|c p IH]; simpl; auto.
  unfold Ascii.compare. now rewrite N.compare_refl.
Qed.

(** Two texts that start with pieces of the same length compare by the
    pieces first. *)
Lemma compare_app a : forall b c d,
  String.length a = String.length b ->
  String.compare (a ++ c) (b ++ d)
  = match String.compare a b with
    | Eq => String.compare c d
    | r => r
    end.
Proof.
  induction a as [|x a IH]; intros [|y b] c d Hlen; simpl in *;
    try discriminate; auto.
  destruct (Ascii.compare x y); auto.
Qed.

Lemma length_digits w n : String.length (PyStr.digits w n) = w.
Proof. induction w; simpl; auto. Qed.

Lemma compare_digit x y :
  0 <= x < 10 -> 0 <= y < 10 ->
  Ascii.compare (PyStr.digit x) (PyStr.digit y) = Z.compare x y.
Proof.
  intros Hx Hy. unfold Ascii.compare, PyStr.digit, ascii_of_nat.
  rewrite !N_ascii_embedding by lia.
  rewrite <- N2Z.inj_compare, !nat_N_Z, !Nat2Z.inj_add, !Z2Nat.id by lia.
  apply Z.add_compare_mono_l.
Qed.

Lemma compare_lex P q1 q2 r1 r2 :
  0 <= r1 < P -> 0 <= r2 < P ->
  (r1 + P * q1 ?= r2 + P * q2)
  = match q1 ?= q2 with
    | Eq => r1 ?= r2
    | c => c
    end.
Proof.
  intros H1 H2. destruct (Z.compare_spec q1 q2) as [-> | Hlt | Hgt].
  - rewrite (Z.add_comm r1), (Z.add_comm r2). apply Z.add_compare_mono_l.
  - apply Z.compare_lt_iff. nia.
  - apply Z.compare_gt_iff. nia.
Qed.

(** Fields of the same width compare as the numbers they print. *)
Lemma compare_digits w : forall a b,
  String.compare (PyStr.digits w a) (PyStr.digits w b)
  = (a mod 10 ^ Z.of_nat w ?= b mod 10 ^ Z.of_nat w).
Proof.
  induction w as [|w IH]; intros a b.
  - simpl. now rewrite !Z.mod_1_r.
  - cbn [PyStr.digits String.compare].
    assert (Hp : 0 < 10 ^ Z.of_nat w) by (apply Z.pow_pos_nonneg; lia).
    rewrite compare_digit by (apply Z.mod_pos_bound; lia).
    rewrite IH, Nat2Z.inj_succ, Z.pow_succ_r by lia.
    rewrite (Z.mul_comm 10), !Z.rem_mul_r by lia.
    symmetry. apply compare_lex; apply Z.mod_pos_bound; lia.
Qed.

Lemma compare_field w a b :
  0 <= a < 10 ^ Z.of_nat w -> 0 <= b < 10 ^ Z.of_nat w ->
  String.compare (PyStr.digits w a) (PyStr.digits w b) = (a ?= b).
Proof.
  intros Ha Hb. now rewrite compare_digits, !Z.mod_small.
Qed.

Lemma compare_stamp t1 t2 :
  Datetime.valid t1 -> Datetime.valid t2 ->
  String.compare (Datetime.strftime_stamp t1) (Datetime.strftime_stamp t2)
  = (Datetime.seconds_key t1 ?= Datetime.seconds_key t2).
Proof.
  intros (Hy1 & Hm1 & Hd1 & Hh1 & Hi1 & Hs1 & _)
         (Hy2 & Hm2 & Hd2 & Hh2 & Hi2 & Hs2 & _).
  unfold Datetime.strftime_stamp, Datetime.seconds_key.
  rewrite !compare_app by (now rewrite ?length_digits).
  rewrite !compare_field by (simpl; lia).
  change (String.compare "_" "_") with Eq. cbv iota.
  symmetry.
  destruct (Z.compare_spec (Datetime.year t1) (Datetime.year t2));
    [ | apply Z.compare_lt_iff; lia | apply Z.compare_gt_iff; lia ].
  destruct (Z.compare_spec (Datetime.month t1) (Datetime.month t2));
    [ | apply Z.compare_lt_iff; lia | apply Z.compare_gt_iff; lia ].
  destruct (Z.compare_spec (Datetime.day t1) (Datetime.day t2));
    [ | apply Z.compare_lt_iff; lia | apply Z.compare_gt_iff; lia ].
  destruct (Z.compare_spec (Datetime.hour t1) (Datetime.hour t2));
    [ | apply Z.compare_lt_iff; lia | apply Z.compare_gt_iff; lia ].
  destruct (Z.compare_spec (Datetime.minute t1) (Datetime.minute t2));
    [ | apply Z.compare_lt_iff; lia | apply Z.compare_gt_iff; lia ].
  destruct (Z.compare_spec (Datetime.second t1) (Datetime.second t2));
    [ | apply Z.compare_lt_iff; lia | apply Z.compare_gt_iff; lia ].
  apply Z.compare_eq_iff. lia.
Qed.

(** A later second gives a backup name that sorts later. *)
Lemma backup_name_lt t1 t2 :
  Datetime.valid t1 -> Datetime.valid t2 ->
  Datetime.seconds_key t1 < Datetime.seconds_key t2 ->
  String.ltb (Sessions.backup_name t1) (Sessions.backup_name t2) = true.
Proof.
  intros V1 V2 Hlt. unfold String.ltb, Sessions.backup_name.
  rewrite compare_app_prefix, compare_app.
  - rewrite (compare_stamp _ _ V1 V2).
    apply Z.compare_lt_iff in Hlt. now rewrite Hlt.
  - reflexivity.
Qed.

Lemma glob_backup_name t : Sessions.glob_backup (Sessions.backup_name t) = true.
Proof. reflexivity. Qed.

End NameOrder.

(** ** Backup rotation *)

Module BackupFacts.
Import Sessions Samples SessionFacts.

Lemma ltb_leb a b : String.ltb a b = true -> String.leb a b = true.
Proof. unfold String.ltb, String.leb. now destruct (String.compare a b). Qed.

Lemma ltb_irrefl a : String.ltb a a = false.
Proof. unfold String.ltb. now rewrite NameOrder.compare_refl. Qed.

Lemma sorted_ascending l : ascending l -> sorted l = l.
Proof.
  induction 1 as [|x l Hl IH Hx]; [reflexivity|].
  change (sorted (x :: l)) with (insert_sorted x (sorted l)). rewrite IH.
  destruct l as [|y r]; [reflexivity|]. simpl.
  inversion Hx as [|? ? Hxy _]; subst. now rewrite (ltb_leb _ _ Hxy).
Qed.

Lemma ascending_snoc l x :
  ascending l -> Forall (fun y => String.ltb y x = true) l ->
  ascending (l ++ [x]).
Proof.
  induction 1 as [|y l Hl IH Hy]; intros Hall; simpl.
  - repeat constructor.
  - inversion Hall; subst. constructor; [now apply IH|].
    apply Forall_app. split; [assumption | now repeat constructor].
Qed.

Lemma ascending_skipn n : forall l, ascending l -> ascending (skipn n l).
Proof.
  induction n as [|n IH]; intros l Hl; [assumption|].
  destruct l as [|x l]; [constructor|]. simpl. apply IH.
  now inversion Hl.
Qed.

Lemma ascending_NoDup l : ascending l -> NoDup l.
Proof.
  induction 1 as [|x l Hl IH Hx]; constructor; auto.
  intros Hin. rewrite Forall_forall in Hx. specialize (Hx _ Hin).
  now rewrite ltb_irrefl in Hx.
Qed.

Lemma newest_app {A : Type} (k : nat) (a b : list A) :
  newest k (newest k a ++ b) = newest k (a ++ b).
Proof.
  unfold newest. destruct (Nat.le_gt_cases k (length a)) as [Hle | Hgt].
  - rewrite !skipn_app, skipn_skipn, !length_app, !length_skipn.
    f_equal; f_equal; lia.
  - replace (length a - k)%nat with 0%nat by lia. reflexivity.
Qed.

Lemma in_newest {A : Type} (k : nat) (l : list A) x :
  In x (newest k l) -> In x l.
Proof.
  unfold newest. intros H. rewrite <- (firstn_skipn (length l - k) l).
  apply in_or_app. now right.
Qed.

Lemma newest_short {A : Type} (k : nat) (l : list A) :
  (length l <= k)%nat -> newest k l = l.
Proof.
  intros H. unfold newest. now replace (length l - k)%nat with 0%nat by lia.
Qed.

Lemma length_newest {A : Type} (k : nat) (l : list A) :
  length (newest k l) = Nat.min k (length l).
Proof. unfold newest. rewrite length_skipn. lia. Qed.

(** *** The backups directory *)

Section Directory.

Context {V : Type}.
Implicit Types (d : PyDict.t V).

Lemma keys_set_fresh k v d :
  ~ In k (PyDict.keys d) ->
  PyDict.keys (PyDict.set k v d) = (PyDict.keys d ++ [k])%list.
Proof.
  unfold PyDict.keys.
  induction d as [|[k' v'] r IH]; simpl; intros Hk; [reflexivity|].
  destruct (String.eqb k k') eqn:E.
  - apply String.eqb_eq in E. subst. tauto.
  - simpl. f_equal. apply IH. tauto.
Qed.

Lemma keys_pop k d :
  PyDict.keys (PyDict.pop k d)
  = filter (fun x => negb (String.eqb k x)) (PyDict.keys d).
Proof.
  unfold PyDict.pop, PyDict.keys.
  induction d as [|[k' v'] r IH]; simpl; [reflexivity|].
  destruct (String.eqb k k'); simpl; now rewrite IH.
Qed.

End Directory.

Lemma keys_unlink olds : forall dir : PyDict.t file_content,
  PyDict.keys (fold_left (unlink_old []) olds dir)
  = filter (fun x => negb (existsb (String.eqb x) olds)) (PyDict.keys dir).
Proof.
  induction olds as [|o olds IH]; intros dir; simpl.
  - induction (PyDict.keys dir) as [|x l IHl]; simpl; congruence.
  - rewrite IH. unfold unlink_old at 1. simpl. rewrite keys_pop.
    induction (PyDict.keys dir) as [|x l IHl]; simpl; [reflexivity|].
    rewrite (String.eqb_sym x o).
    destruct (String.eqb o x); simpl; [assumption|].
    destruct (existsb (String.eqb x) olds); simpl; now rewrite IHl.
Qed.

Lemma filter_comm {A : Type} (f g : A -> bool) l :
  filter f (filter g l) = filter g (filter f l).
Proof.
  induction l as [|x l IH]; simpl; [reflexivity|].
  destruct (f x) eqn:F, (g x) eqn:G; simpl; rewrite ?F, ?G, IH; reflexivity.
Qed.

(** Removing the first [j] names of a duplicate-free listing leaves the
    rest of it. *)
Lemma filter_firstn j : forall l : list string,
  NoDup l ->
  filter (fun x => negb (existsb (String.eqb x) (firstn j l))) l = skipn j l.
Proof.
  induction j as [|j IH]; intros l Hnd; simpl.
  - induction l as [|x l IHl]; simpl; [reflexivity|].
    inversion Hnd; subst. now rewrite IHl.
  - destruct l as [|a r]; simpl; [reflexivity|].
    rewrite String.eqb_refl. simpl.
    inversion Hnd as [|? ? Ha Hr]; subst.
    rewrite <- (IH r Hr). apply filter_ext_in.
    intros x Hx. destruct (String.eqb x a) eqn:E; [|reflexivity].
    apply String.eqb_eq in E. subst. contradiction.
Qed.

Lemma slice_to_neg {A : Type} (k : Z) (l : list A) :
  1 <= k -> slice_to (- k) l = firstn (length l - Z.to_nat k) l.
Proof.
  intros Hk. unfold slice_to.
  replace (- k <? 0) with true by (symmetry; apply Z.ltb_lt; lia).
  f_equal. lia.
Qed.

Lemma save_sessions_backup_dir now m :
  backup_dir (snd (save_sessions now m)) = backup_dir (_create_backup now m).
Proof. unfold save_sessions. now destruct (writable _). Qed.

(** C2. The retention count 0, which the configuration file can hold
    (the preferences dialog offers 1 to 50): the guard
    [len(backup_files) > max_backups] holds, but the slice
    [backup_files[:-0]] is [backup_files[:0]], the empty list, so no
    backup is removed. Two saves ([k = 0 < N = 2]) of a new installation
    leave the one backup they made, not none, and a third save leaves
    two: the backups pile up. *)
Lemma retention_zero_divergence :
  let m := manager_keeping 0 in
  max_backups_setting m = Ok (Config.VInt 0)
  /\ (Z.to_nat 0 < length [noon; after 1 noon])%nat
  /\ backup_files (saves [noon; after 1 noon] m)
     = [ "sessions_backup_20240517_120001.json" ]
  /\ length (backup_files (saves [noon; after 1 noon] m)) <> Z.to_nat 0
  /\ backup_files (saves [noon; after 1 noon; after 2 noon] m)
     = [ "sessions_backup_20240517_120001.json";
         "sessions_backup_20240517_120002.json" ]
  /\ slice_to (- 0) [ "sessions_backup_20240517_120001.json" ] = [].
Proof.
  intros m. split; [reflexivity|]. split; [simpl; lia|].
  split; [reflexivity|]. split; [vm_compute; discriminate|].
  split; reflexivity.
Qed.

(** A backup whose [unlink] raises [PermissionError] stays, and one more
    than [k] remain. *)
Lemma retention_locked_example :
  let m := mkManager (config (manager_keeping 1)) [] None [] true
                     [ "sessions_backup_20240517_120001.json" ] in
  backup_files (saves [noon; after 1 noon; after 2 noon] m)
  = [ "sessions_backup_20240517_120001.json";
      "sessions_backup_20240517_120002.json" ].
Proof. reflexivity. Qed.

End BackupFacts.

(** ** Dotted-quad text *)

Module Ipv4Facts.
Import Ipaddress.

Lemma land_le_r a b : 0 <= b -> Z.land a b <= b.
Proof.
  intros Hb.
  assert (Hdisjoint : Z.land (Z.land a b) (Z.ldiff b a) = 0).
  { apply Z.bits_inj'. intros n Hn.
    rewrite Z.land_spec, Z.land_spec, Z.ldiff_spec, Z.bits_0.
    destruct (Z.testbit a n), (Z.testbit b n); reflexivity. }
  assert (Hsum : Z.land a b + Z.ldiff b a = b).
  { rewrite (Z.add_nocarry_lxor _ _ Hdisjoint), (Z.lxor_lor _ _ Hdisjoint).
    rewrite Z.land_comm, Z.lor_comm. apply Z.lor_ldiff_and. }
  assert (0 <= Z.ldiff b a) by (apply Z.ldiff_nonneg; auto).
  lia.
Qed.

(** The text of an octet reads back as the octet and has no dot in it. *)
Lemma octets_checked :
  forallb (fun i =>
             let text := PyStr.decimal (Z.of_nat i) in
             match parse_octet text, split "." text with
             | Some v, [piece] => (v =? Z.of_nat i) && String.eqb piece text
             | _, _ => false
             end) (seq 0 256) = true.
Proof. vm_compute. reflexivity. Qed.

Lemma octet_text n :
  0 <= n < 256 ->
  parse_octet (PyStr.decimal n) = Some n
  /\ split "." (PyStr.decimal n) = [PyStr.decimal n].
Proof.
  intros Hn. pose proof octets_checked as Hall.
  rewrite forallb_forall in Hall.
  specialize (Hall (Z.to_nat n)). rewrite Z2Nat.id in Hall by lia.
  cbv zeta in Hall.
  assert (Hin : In (Z.to_nat n) (seq 0 256)) by (apply in_seq; lia).
  specialize (Hall Hin).
  destruct (parse_octet (PyStr.decimal n)) as [v|]; [|discriminate].
  destruct (split "." (PyStr.decimal n)) as [|piece [|? ?]];
    try discriminate.
  apply andb_true_iff in Hall as [Hv Hpiece].
  apply Z.eqb_eq in Hv. apply String.eqb_eq in Hpiece. now subst.
Qed.

Lemma split_piece a : forall rest,
  split "." a = [a] ->
  split "." (a ++ "." ++ rest) = a :: split "." rest.
Proof.
  induction a as [|c a IH]; intros rest Ha; [reflexivity|].
  simpl in *. destruct (Ascii.eqb c "."); [discriminate|].
  destruct (split "." a) as [|h t] eqn:Hsplit.
  - injection Ha as Ha. destruct a; [|discriminate].
    discriminate Hsplit.
  - injection Ha as -> ->. now rewrite (IH rest eq_refl).
Qed.

(** Reading the text of a 32-bit address gives the address back. *)
Lemma ipv4_round_trip n :
  0 <= n < 2 ^ 32 -> ipv4_int_from_string (ipv4_str n) = Some n.
Proof.
  intros Hn. unfold ipv4_int_from_string, ipv4_str.
  assert (Hrange : forall x, 0 <= x mod 256 < 256)
    by (intros x; apply Z.mod_pos_bound; lia).
  destruct (octet_text _ (Hrange (n / 2 ^ 24))) as [Pa Sa].
  destruct (octet_text _ (Hrange (n / 2 ^ 16))) as [Pb Sb].
  destruct (octet_text _ (Hrange (n / 2 ^ 8))) as [Pc Sc].
  destruct (octet_text _ (Hrange n)) as [Pd Sd].
  rewrite !split_piece, Sd by assumption. cbn [map].
  rewrite Pa, Pb, Pc, Pd. f_equal.
  change (2 ^ 24) with 16777216 in *. change (2 ^ 16) with 65536 in *.
  change (2 ^ 8) with 256 in *. change (2 ^ 32) with 4294967296 in *.
  Z.div_mod_to_equations. lia.
Qed.

Lemma ipv4_str_inj a b :
  0 <= a < 2 ^ 32 -> 0 <= b < 2 ^ 32 -> ipv4_str a = ipv4_str b -> a = b.
Proof.
  intros Ha Hb E. apply ipv4_round_trip in Ha, Hb. congruence.
Qed.

Section Texts.

Context {ipv6 : Ipv6Text}.

(** Distinct addresses of the 32-bit space have distinct texts. *)
Lemma addresses_texts first count :
  0 <= first -> first + count <= 2 ^ 32 ->
  NoDup (map str (addresses V4 first count)).
Proof.
  intros Hfirst Hlast. unfold addresses. rewrite map_map.
  apply NoDup_map_NoDup_ForallPairs; [|apply seq_NoDup].
  intros i j Hi Hj E. apply in_seq in Hi, Hj. unfold str in E. simpl in E.
  change (2 ^ 32) with 4294967296 in Hlast.
  apply ipv4_str_inj in E; [lia| |]; change (2 ^ 32) with 4294967296; lia.
Qed.

Lemma hosts_texts n : ipv4_block n -> NoDup (map str (hosts n)).
Proof.
  intros (Hv & Hp & Hfirst & Hlast). unfold hosts, iter.
  assert (0 < num_addresses n)
    by (unfold num_addresses; apply Z.pow_pos_nonneg;
        rewrite ?Hv; cbn [max_prefixlen]; lia).
  rewrite Hv.
  destruct (prefixlen n =? 31); [now apply addresses_texts|].
  destruct (prefixlen n =? 32); [repeat constructor; simpl; tauto|].
  apply addresses_texts; lia.
Qed.

End Texts.

(** *** What the parser returns is a block of the 32-bit space *)

Lemma int_acc_nonneg s : forall acc,
  all_digits s = true -> 0 <= acc -> 0 <= int_acc acc s.
Proof.
  induction s as [|c s IH]; intros acc Hd Hacc; simpl in *; [assumption|].
  apply andb_true_iff in Hd as [Hc Hs]. apply IH; [assumption|].
  unfold is_digit in Hc. apply andb_true_iff in Hc as [Hlo _].
  apply Nat.leb_le in Hlo. lia.
Qed.

Lemma int_nonneg s : isdigit s = true -> 0 <= int s.
Proof.
  unfold isdigit. intros H. apply andb_true_iff in H as [_ H].
  now apply int_acc_nonneg.
Qed.

Lemma parse_octet_range s v : parse_octet s = Some v -> 0 <= v <= 255.
Proof.
  unfold parse_octet.
  destruct (isdigit s) eqn:Hd; cbn [negb]; [|discriminate].
  destruct (3 <? String.length s)%nat; [discriminate|].
  destruct (negb (String.eqb s "0") && PyStr.startswith "0" s);
    [discriminate|].
  destruct (255 <? int s) eqn:Hle; [discriminate|].
  intros [= <-]. apply Z.ltb_ge in Hle. apply int_nonneg in Hd. lia.
Qed.

Lemma ipv4_int_range s n :
  ipv4_int_from_string s = Some n -> 0 <= n < 2 ^ 32.
Proof.
  unfold ipv4_int_from_string.
  destruct (split "." s) as [|a [|b [|c [|d [|? ?]]]]]; simpl;
    try discriminate;
    try (destruct (parse_octet a); discriminate);
    try (destruct (parse_octet a), (parse_octet b); discriminate);
    try (destruct (parse_octet a), (parse_octet b), (parse_octet c);
         discriminate).
  - destruct (parse_octet a) as [va|] eqn:Ha; [|discriminate].
    destruct (parse_octet b) as [vb|] eqn:Hb; [|discriminate].
    destruct (parse_octet c) as [vc|] eqn:Hc; [|discriminate].
    destruct (parse_octet d) as [vd|] eqn:Hd; [|discriminate].
    intros [= <-].
    apply parse_octet_range in Ha, Hb, Hc, Hd.
    change (2 ^ 32) with 4294967296. lia.
  - destruct (parse_octet a), (parse_octet b), (parse_octet c),
      (parse_octet d), (parse_octet s0); discriminate.
Qed.

Lemma prefix_from_ip_int_range x p :
  prefix_from_ip_int x = Some p -> 0 <= p <= 32.
Proof.
  assert (Hzeros : 0 <= count_righthand_zero_bits x 32 <= 32).
  { unfold count_righthand_zero_bits, bit_length.
    destruct (x =? 0); [lia|].
    destruct (Z.land (Z.lnot x) (x - 1) =? 0); [lia|].
    pose proof (Z.log2_nonneg (Z.land (Z.lnot x) (x - 1))). lia. }
  unfold prefix_from_ip_int.
  remember (count_righthand_zero_bits x 32) as zeros.
  cbv zeta. destruct (Z.shiftr _ _ =? _); [|discriminate].
  intros E. assert (Hp : p = 32 - zeros) by congruence. lia.
Qed.

Lemma make_netmask_range arg p : make_netmask arg = Some p -> 0 <= p <= 32.
Proof.
  unfold make_netmask. destruct (isdigit arg) eqn:Hd; simpl.
  - destruct (int arg <=? 32) eqn:Hle; [|discriminate].
    intros [= <-]. apply Z.leb_le in Hle. apply int_nonneg in Hd. lia.
  - destruct (ipv4_int_from_string arg) as [x|]; [|discriminate].
    destruct (prefix_from_ip_int x) as [q|] eqn:Hq.
    + intros [= <-]. exact (prefix_from_ip_int_range _ _ Hq).
    + apply prefix_from_ip_int_range.
Qed.

Lemma ipv4_network_block text n : ipv4_network text = Some n -> ipv4_block n.
Proof.
  unfold ipv4_network, ipv4_block, num_addresses.
  destruct (split "/" text) as [|addr [|mask [|? ?]]]; try discriminate.
  - destruct (ipv4_int_from_string addr) as [ip|] eqn:Hip; [|discriminate].
    intros E. assert (Hn : n = mkNetwork V4 ip 32) by congruence. subst n.
    apply ipv4_int_range in Hip.
    cbn [network_version prefixlen network_address max_prefixlen].
    change (2 ^ (32 - 32)) with 1. split; [reflexivity | lia].
  - destruct (ipv4_int_from_string addr) as [ip|] eqn:Hip; [|discriminate].
    destruct (make_netmask mask) as [p|] eqn:Hp; [|discriminate].
    intros E.
    assert (Hn : n = mkNetwork V4 (Z.land ip (netmask_int V4 p)) p)
      by congruence.
    subst n. apply ipv4_int_range in Hip. apply make_netmask_range in Hp.
    cbn [network_version prefixlen network_address max_prefixlen].
    assert (Hpow : 0 < 2 ^ (32 - p) <= 2 ^ 32).
    { split; [apply Z.pow_pos_nonneg; lia|].
      apply Z.pow_le_mono_r; lia. }
    pose proof (land_le_r ip (netmask_int V4 p)) as Hle.
    assert (Hpos : 0 <= Z.land ip (netmask_int V4 p))
      by (apply Z.land_nonneg; lia).
    unfold netmask_int in *. cbn [max_prefixlen] in *.
    split; [reflexivity | lia].
Qed.

(** *** An IPv4 address has one spelling *)

Lemma digit_chars c :
  is_digit c = true ->
  In c (map (fun i => ascii_of_nat (48 + i)) (seq 0 10)).
Proof.
  destruct c as [[] [] [] [] [] [] [] []]; intros H;
    try discriminate H; vm_compute; tauto.
Qed.

(** Every text of at most three digits that reads as an octet is the
    decimal text of that octet. *)
Lemma octet_texts_checked :
  let digits := map (fun i => ascii_of_nat (48 + i)) (seq 0 10) in
  let one := map (fun c => String c EmptyString) digits in
  let more := fun texts =>
    flat_map (fun c => map (String c) texts) digits in
  forallb (fun s =>
             match parse_octet s with
             | Some x => String.eqb s (PyStr.decimal x)
             | None => true
             end) (one ++ more one ++ more (more one)) = true.
Proof. vm_compute. reflexivity. Qed.

Lemma octet_canonical s x : parse_octet s = Some x -> s = PyStr.decimal x.
Proof.
  intros Hx. pose proof octet_texts_checked as Hall. cbv zeta in Hall.
  rewrite forallb_forall in Hall.
  assert (Hin : In s
    (map (fun c => String c EmptyString)
         (map (fun i => ascii_of_nat (48 + i)) (seq 0 10)) ++
     flat_map (fun c => map (String c)
         (map (fun c => String c EmptyString)
            (map (fun i => ascii_of_nat (48 + i)) (seq 0 10))))
         (map (fun i => ascii_of_nat (48 + i)) (seq 0 10)) ++
     flat_map (fun c => map (String c)
         (flat_map (fun c => map (String c)
            (map (fun c => String c EmptyString)
              (map (fun i => ascii_of_nat (48 + i)) (seq 0 10))))
            (map (fun i => ascii_of_nat (48 + i)) (seq 0 10))))
         (map (fun i => ascii_of_nat (48 + i)) (seq 0 10)))).
  { unfold parse_octet in Hx.
    destruct (isdigit s) eqn:Hd; cbn [negb] in Hx; [|discriminate].
    destruct (3 <? String.length s)%nat eqn:Hlen; [discriminate|].
    apply Nat.ltb_ge in Hlen. clear Hx.
    unfold isdigit in Hd. apply andb_true_iff in Hd as [Hne Hd].
    destruct s as [|c1 [|c2 [|c3 [|c4 s]]]]; simpl in Hlen; try lia;
      [discriminate Hne| | |]; simpl in Hd;
      repeat match type of Hd with
             | _ && _ = true => apply andb_true_iff in Hd as [?H Hd]
             end;
      repeat match goal with
             | H : is_digit _ = true |- _ => apply digit_chars in H
             end.
    - apply in_or_app. left.
      now apply (in_map (fun c => String c EmptyString)).
    - apply in_or_app. right. apply in_or_app. left.
      apply in_flat_map. exists c1. split; [assumption|].
      apply (in_map (String c1)).
      now apply (in_map (fun c => String c EmptyString)).
    - apply in_or_app. right. apply in_or_app. right.
      apply in_flat_map. exists c1. split; [assumption|].
      apply (in_map (String c1)). apply in_flat_map.
      exists c2. split; [assumption|].
      apply (in_map (String c2)).
      now apply (in_map (fun c => String c EmptyString)). }
  specialize (Hall s Hin). rewrite Hx in Hall. now apply String.eqb_eq.
Qed.

Lemma split_nonempty sep s : split sep s <> [].
Proof.
  destruct s as [|c r]; simpl; [discriminate|].
  destruct (Ascii.eqb c sep); [discriminate|].
  destruct (split sep r); discriminate.
Qed.

Lemma concat_split s : String.concat "." (split "." s) = s.
Proof.
  induction s as [|c r IH]; [reflexivity|]. simpl.
  destruct (Ascii.eqb c ".") eqn:E.
  - apply Ascii.eqb_eq in E. subst c.
    destruct (split "." r) as [|h t] eqn:Hs;
      [now apply split_nonempty in Hs|].
    simpl. simpl in IH. now rewrite IH.
  - destruct (split "." r) as [|h t] eqn:Hs;
      [now apply split_nonempty in Hs|].
    simpl in *. destruct t; simpl; now rewrite <- IH.
Qed.

(** The text the parser accepts is the text the library prints: an IPv4
    address has one spelling. *)
Lemma ipv4_canonical s n : ipv4_int_from_string s = Some n -> s = ipv4_str n.
Proof.
  unfold ipv4_int_from_string. intros H.
  rewrite <- (concat_split s).
  destruct (split "." s) as [|a [|b [|c [|d [|? ?]]]]]; simpl in H;
    try discriminate;
    try (destruct (parse_octet a); discriminate);
    try (destruct (parse_octet a), (parse_octet b); discriminate);
    try (destruct (parse_octet a), (parse_octet b), (parse_octet c);
         discriminate).
  - destruct (parse_octet a) as [va|] eqn:Ha; [|discriminate].
    destruct (parse_octet b) as [vb|] eqn:Hb; [|discriminate].
    destruct (parse_octet c) as [vc|] eqn:Hc; [|discriminate].
    destruct (parse_octet d) as [vd|] eqn:Hd; [|discriminate].
    injection H as <-.
    pose proof (Ipv4Facts.parse_octet_range _ _ Ha).
    pose proof (Ipv4Facts.parse_octet_range _ _ Hb).
    pose proof (Ipv4Facts.parse_octet_range _ _ Hc).
    pose proof (Ipv4Facts.parse_octet_range _ _ Hd).
    apply octet_canonical in Ha, Hb, Hc, Hd.
    unfold ipv4_str. cbn [String.concat].
    change (2 ^ 24) with 16777216. change (2 ^ 16) with 65536.
    change (2 ^ 8) with 256.
    replace ((((va * 256 + vb) * 256 + vc) * 256 + vd) / 16777216 mod 256)
      with va by (Z.div_mod_to_equations; lia).
    replace ((((va * 256 + vb) * 256 + vc) * 256 + vd) / 65536 mod 256)
      with vb by (Z.div_mod_to_equations; lia).
    replace ((((va * 256 + vb) * 256 + vc) * 256 + vd) / 256 mod 256)
      with vc by (Z.div_mod_to_equations; lia).
    replace ((((va * 256 + vb) * 256 + vc) * 256 + vd) mod 256)
      with vd by (Z.div_mod_to_equations; lia).
    now subst.
  - destruct (parse_octet a), (parse_octet b), (parse_octet c),
      (parse_octet d), (parse_octet s0); discriminate.
Qed.

End Ipv4Facts.

(** ** IPAM *)

Module IpamFacts.
Import Ipaddress Ipam Samples.

Section Dict.

Context {V : Type}.
Implicit Types (d : PyDict.t V).

Lemma contains_keys k d :
  PyDict.contains k d = existsb (String.eqb k) (PyDict.keys d).
Proof.
  unfold PyDict.contains, PyDict.keys.
  induction d as [|[k' v] r IH]; simpl; [reflexivity|].
  destruct (String.eqb k k'); simpl; auto.
Qed.

Lemma pop_all olds : forall d,
  fold_left (fun d k => PyDict.pop k d) olds d
  = filter (fun kv => negb (existsb (String.eqb (fst kv)) olds)) d.
Proof.
  induction olds as [|o olds IH]; intros d; simpl.
  - induction d as [|x d IHd]; simpl; congruence.
  - rewrite IH. unfold PyDict.pop.
    induction d as [|x d IHd]; simpl; [reflexivity|].
    rewrite (String.eqb_sym (fst x) o).
    destruct (String.eqb o (fst x)); simpl; [assumption|].
    destruct (existsb _ olds); simpl; now rewrite IHd.
Qed.

(** In a well-formed dictionary a key names one binding. *)
Lemma wf_unique d k v v' :
  PyDict.wf d -> In (k, v) d -> In (k, v') d -> v = v'.
Proof.
  unfold PyDict.wf, PyDict.keys.
  induction d as [|[k0 v0] r IH]; simpl; intros Hnd H1 H2; [contradiction|].
  inversion Hnd as [|? ? Hk Hr]; subst.
  destruct H1 as [E1 | H1], H2 as [E2 | H2].
  - congruence.
  - injection E1 as -> _. exfalso. apply Hk. now apply (in_map fst) in H2.
  - injection E2 as -> _. exfalso. apply Hk. now apply (in_map fst) in H1.
  - now apply IH.
Qed.

(** Selecting by key the bindings a predicate selects is selecting by the
    predicate. *)
Lemma filter_by_selected_keys (Q : string * V -> bool) d :
  PyDict.wf d ->
  filter (fun kv => negb (existsb (String.eqb (fst kv))
                                  (map fst (filter Q d)))) d
  = filter (fun kv => negb (Q kv)) d.
Proof.
  intros Hwf. apply filter_ext_in. intros [k v] Hin. f_equal. simpl.
  destruct (Q (k, v)) eqn:HQ.
  - apply existsb_exists. exists k. split; [|apply String.eqb_refl].
    apply (in_map fst (filter Q d) (k, v)). apply filter_In. now split.
  - apply not_true_is_false. intros Hex.
    apply existsb_exists in Hex as (k' & Hk' & E).
    apply String.eqb_eq in E. subst k'.
    apply in_map_iff in Hk' as ([k' v'] & E & Hf). simpl in E. subst k'.
    apply filter_In in Hf as [Hin' HQ'].
    rewrite (wf_unique d k v v' Hwf Hin Hin') in HQ. congruence.
Qed.

Lemma get_filter (P : string * V -> bool) d k :
  PyDict.wf d ->
  PyDict.get k (filter P d)
  = match PyDict.get k d with
    | Some v => if P (k, v) then Some v else None
    | None => None
    end.
Proof.
  unfold PyDict.wf, PyDict.keys.
  induction d as [|[k0 v0] r IH]; simpl; intros Hnd; [reflexivity|].
  inversion Hnd as [|? ? Hk Hr]; subst.
  destruct (String.eqb k k0) eqn:E.
  - apply String.eqb_eq in E. subst k0.
    destruct (P (k, v0)); simpl; [now rewrite String.eqb_refl|].
    rewrite (IH Hr). apply get_None_keys in Hk.
    unfold PyDict.keys in Hk. now rewrite Hk.
  - destruct (P (k0, v0)); simpl; rewrite ?E; auto.
Qed.

End Dict.

Section WithIpv6.

Context {ipv6 : Ipv6Text}.

(** C4. [remove_subnet c] returns [False] and changes nothing when [c]
    is not registered. Otherwise it returns [True]; the entries left are
    exactly those whose [subnet] field is not the string [c], in their
    order, wherever their address lies; the subnet is gone and the other
    subnets stay; and each writable file holds the new state. *)
Theorem remove_subnet_cascade (c : string) (m : IPAMManager) :
  (PyDict.contains c (subnets m) = false -> remove_subnet c m = (false, m))
  /\ (PyDict.contains c (subnets m) = true ->
      PyDict.wf (entries m) ->
      let m' := snd (remove_subnet c m) in
      fst (remove_subnet c m) = true
      /\ entries m'
         = filter (fun kv => negb (text_eqb (subnet (snd kv)) c)) (entries m)
      /\ (forall ip e, get_entry ip m = Some e ->
            get_entry ip m'
            = if text_eqb (subnet e) c then None else Some e)
      /\ get_subnet c m' = None
      /\ (forall c', c' <> c -> get_subnet c' m' = get_subnet c' m)
      /\ (entries_writable m = true ->
          entries_file m' = Some (PyDict.values (entries m')))
      /\ (subnets_writable m = true ->
          subnets_file m' = Some (PyDict.values (subnets m')))).
Proof.
  unfold remove_subnet. split; intros Hc; rewrite Hc; simpl; [reflexivity|].
  intros Hwf.
  assert (Hentries :
            fold_left (fun d ip => PyDict.pop ip d)
              (map fst (filter (fun kv => text_eqb (subnet (snd kv)) c)
                               (entries m))) (entries m)
            = filter (fun kv => negb (text_eqb (subnet (snd kv)) c))
                     (entries m)).
  { rewrite pop_all. now apply filter_by_selected_keys. }
  rewrite Hentries. repeat split; auto.
  - intros ip e Hget. unfold get_entry in *. simpl.
    rewrite get_filter, Hget by assumption. simpl.
    now destruct (text_eqb (subnet e) c).
  - unfold get_subnet. simpl. apply get_pop_same.
  - intros c' Hne. unfold get_subnet. simpl. apply get_pop_other. congruence.
  - now intros ->.
  - now intros ->.
Qed.

(** Counting the members of [b] in [a] or the members of [a] in [b] is
    the same, when neither list repeats an element. *)
Lemma count_common (a b : list string) :
  NoDup a -> NoDup b ->
  length (filter (fun x => existsb (String.eqb x) b) a)
  = length (filter (fun x => existsb (String.eqb x) a) b).
Proof.
  intros Ha Hb. apply Permutation_length.
  apply NoDup_Permutation; try now apply NoDup_filter.
  assert (Hmem : forall x l, existsb (String.eqb x) l = true <-> In x l).
  { intros x l. rewrite existsb_exists. split.
    - intros (y & Hy & E). apply String.eqb_eq in E. now subst.
    - intros Hx. exists x. split; [assumption | apply String.eqb_refl]. }
  intros x. rewrite !filter_In, !Hmem. tauto.
Qed.

Lemma length_filter_keys {V : Type} (f : string -> bool) (d : PyDict.t V) :
  length (filter (fun kv => f (fst kv)) d)
  = length (filter f (PyDict.keys d)).
Proof.
  unfold PyDict.keys. induction d as [|x d IH]; simpl; [reflexivity|].
  destruct (f (fst x)); simpl; now rewrite IH.
Qed.

(** The number of usable addresses that are registered is the number of
    registered entries whose address is a usable address. *)
Lemma used_counts_entries (s : Subnet) (entries : PyDict.t IPAMEntry) :
  PyDict.wf entries -> NoDup (get_ip_range s) ->
  used (get_usage_stats s entries)
  = Z.of_nat (length (filter (fun kv => existsb (String.eqb (fst kv))
                                                (get_ip_range s))
                             entries)).
Proof.
  intros Hwf Hnd. unfold get_usage_stats. simpl. f_equal.
  rewrite (length_filter_keys
             (fun k => existsb (String.eqb k) (get_ip_range s))).
  rewrite <- (count_common _ _ Hnd Hwf).
  f_equal. apply filter_ext. intros ip. apply contains_keys.
Qed.

Lemma usage_stats_eq (s : Subnet) (entries : PyDict.t IPAMEntry) t u :
  total (get_usage_stats s entries) = t ->
  used (get_usage_stats s entries) = u ->
  get_usage_stats s entries
  = mkStats t u (t - u)
            (if 0 <? t
             then NFloat (PyFloat.round
                            (PyFloat.mul (PyFloat.int_truediv u t)
                                         (PyFloat.of_int 100)) 2)
             else NInt 0).
Proof. intros <- <-. reflexivity. Qed.

Lemma NoDup_by_nodup (l : list string) : nodup string_dec l = l -> NoDup l.
Proof. intros <-. apply NoDup_nodup. Qed.

(** The usable addresses of an IPv4 subnet built by the constructor have
    distinct texts. *)
Lemma constructed_ipv4_range cidr name description (s : Subnet) :
  new_subnet cidr name description = Ok s ->
  network_version (network s) = V4 ->
  NoDup (get_ip_range s).
Proof.
  unfold new_subnet, ip_network, get_ip_range.
  destruct (ipv4_network cidr) as [n|] eqn:Hn.
  - intros E _. assert (Hs : s = mkSubnet cidr name description n)
      by congruence.
    subst s. cbn [network]. apply Ipv4Facts.ipv4_network_block in Hn.
    destruct Hn as (Hv & Hrest). rewrite Hv.
    apply Ipv4Facts.hosts_texts. now split.
  - destruct (ipv6_network cidr) as [[a p]|]; [|discriminate].
    intros E. assert (Hs : s = mkSubnet cidr name description
                                        (mkNetwork V6 a p)) by congruence.
    subst s. discriminate.
Qed.

(** *** The usable range *)

Lemma in_addresses v first count x :
  In x (addresses v first count)
  <-> exists a, first <= a < first + count /\ x = mkAddress v a.
Proof.
  unfold addresses. rewrite in_map_iff. split.
  - intros (i & <- & Hi). apply in_seq in Hi.
    exists (first + Z.of_nat i). split; [lia | reflexivity].
  - intros (a & Ha & ->). exists (Z.to_nat (a - first)). split.
    + f_equal. lia.
    + apply in_seq. lia.
Qed.

(** The addresses [get_ip_range] lists are those of the usable range. *)
Lemma range_addresses (n : IPNetwork) (x : IPAddress) :
  In x (match network_version n with V4 => hosts n | V6 => iter n end)
  <-> exists a, in_usable_range n a = true
                /\ x = mkAddress (network_version n) a.
Proof.
  unfold in_usable_range, hosts, iter, num_addresses.
  destruct n as [v na p]. cbn [network_version network_address prefixlen].
  destruct v; cbn [version_eqb max_prefixlen andb].
  - destruct (p =? 31) eqn:E31; [|destruct (p =? 32) eqn:E32].
    + apply Z.eqb_eq in E31. subst p. change (2 ^ (32 - 31)) with 2.
      change (2 <? 2) with false. rewrite in_addresses.
      split; intros (a & Ha & ->); exists a; (split; [|reflexivity]).
      * rewrite andb_true_r. apply andb_true_iff. split; lia.
      * rewrite andb_true_r in Ha. apply andb_true_iff in Ha. lia.
    + apply Z.eqb_eq in E32. subst p. change (2 ^ (32 - 32)) with 1.
      change (2 <? 1) with false. split.
      * intros [<- | []]. exists na. split; [|reflexivity].
        rewrite andb_true_r. apply andb_true_iff. split; lia.
      * intros (a & Ha & ->). left. f_equal.
        rewrite andb_true_r in Ha. apply andb_true_iff in Ha. lia.
    + apply Z.eqb_neq in E31, E32. rewrite in_addresses.
      destruct (Z_lt_le_dec p 31) as [Hp | Hp].
      * assert (Hpow : 2 ^ 2 <= 2 ^ (32 - p))
          by (apply Z.pow_le_mono_r; lia).
        change (2 ^ 2) with 4 in Hpow.
        assert (Hlt : (2 <? 2 ^ (32 - p)) = true) by (apply Z.ltb_lt; lia).
        rewrite Hlt.
        split; intros (a & Ha & ->); exists a; (split; [|reflexivity]).
        -- repeat (apply andb_true_iff; split);
             try apply negb_true_iff; lia.
        -- repeat match type of Ha with
                  | _ && _ = true => apply andb_true_iff in Ha as [?H Ha]
                  end.
           repeat match goal with
                  | H : _ && _ = true |- _ => apply andb_true_iff in H as [? ?]
                  | H : negb _ = true |- _ => apply negb_true_iff in H
                  end.
           lia.
      * assert (Hpow : 2 ^ (32 - p) = 0) by (apply Z.pow_neg_r; lia).
        rewrite Hpow. change (2 <? 0) with false.
        split; intros (a & Ha & ->); exfalso; [lia|].
        rewrite andb_true_r in Ha. apply andb_true_iff in Ha. lia.
  - rewrite in_addresses.
    split; intros (a & Ha & ->); exists a; (split; [|reflexivity]).
    + rewrite andb_true_r. apply andb_true_iff. split; lia.
    + rewrite andb_true_r in Ha. apply andb_true_iff in Ha. lia.
Qed.

Lemma in_ip_range (s : Subnet) (key : string) :
  In key (get_ip_range s)
  <-> exists a, in_usable_range (network s) a = true
                /\ key = str (mkAddress (network_version (network s)) a).
Proof.
  assert (Hrange : get_ip_range s
                   = map str (match network_version (network s) with
                              | V4 => hosts (network s)
                              | V6 => iter (network s)
                              end))
    by (unfold get_ip_range; now destruct (network_version (network s))).
  rewrite Hrange, in_map_iff. split.
  - intros (x & <- & Hx). apply range_addresses in Hx as (a & Ha & ->).
    now exists a.
  - intros (a & Ha & ->). eexists. split; [reflexivity|].
    apply range_addresses. now exists a.
Qed.

Lemma usable_in_block (n : IPNetwork) (a : Z) :
  ipv4_block n -> in_usable_range n a = true -> 0 <= a < 2 ^ 32.
Proof.
  intros (_ & _ & Hfirst & Hlast). unfold in_usable_range. intros H.
  apply andb_true_iff in H as [H _]. apply andb_true_iff in H. lia.
Qed.

(** For an IPv4 block, a key is the text of a usable address exactly when
    it reads as an address of the usable range. *)
Lemma ipv4_key_in_range (s : Subnet) (key : string) :
  ipv4_block (network s) ->
  existsb (String.eqb key) (get_ip_range s) = lies_in_usable_range s key.
Proof.
  intros Hblock. pose proof Hblock as (Hv & _).
  assert (Hmem : existsb (String.eqb key) (get_ip_range s) = true
                 <-> In key (get_ip_range s)).
  { rewrite existsb_exists. split.
    - intros (y & Hy & E). apply String.eqb_eq in E. now subst.
    - intros Hx. exists key. split; [assumption | apply String.eqb_refl]. }
  apply Bool.eq_iff_eq_true. rewrite Hmem, in_ip_range.
  unfold lies_in_usable_range, ip_address, str. rewrite Hv.
  cbn [address_version address_int].
  destruct (ipv4_int_from_string key) as [n|] eqn:Hkey.
  - cbn [address_version address_int version_eqb andb].
    pose proof (Ipv4Facts.ipv4_int_range _ _ Hkey) as Hn.
    apply Ipv4Facts.ipv4_canonical in Hkey. subst key. split.
    + intros (a & Ha & E).
      apply Ipv4Facts.ipv4_str_inj in E;
        [now subst a | assumption | exact (usable_in_block _ _ Hblock Ha)].
    + intros Hin. now exists n.
  - split.
    + intros (a & Ha & ->).
      rewrite Ipv4Facts.ipv4_round_trip in Hkey; [discriminate|].
      exact (usable_in_block _ _ Hblock Ha).
    + destruct (ipv6_address key); [|discriminate].
      cbn [address_version version_eqb andb]. discriminate.
Qed.

Lemma constructed_ipv4_block cidr name description (s : Subnet) :
  new_subnet cidr name description = Ok s ->
  network_version (network s) = V4 ->
  ipv4_block (network s).
Proof.
  unfold new_subnet, ip_network.
  destruct (ipv4_network cidr) as [n|] eqn:Hn.
  - intros E _. assert (Hs : s = mkSubnet cidr name description n)
      by congruence.
    subst s. cbn [network]. now apply Ipv4Facts.ipv4_network_block in Hn.
  - destruct (ipv6_network cidr) as [[a p]|]; [|discriminate].
    intros E. assert (Hs : s = mkSubnet cidr name description
                                        (mkNetwork V6 a p)) by congruence.
    subst s. discriminate.
Qed.

(** For an IPv4 subnet, [used] counts the entries whose address lies in
    the usable range. *)
Lemma used_counts_addresses (s : Subnet) (entries : PyDict.t IPAMEntry) :
  ipv4_block (network s) -> PyDict.wf entries ->
  used (get_usage_stats s entries)
  = Z.of_nat (length (filter (fun kv => lies_in_usable_range s (fst kv))
                             entries)).
Proof.
  intros Hblock Hwf. destruct Hblock as (Hv & Hrest).
  rewrite used_counts_entries; [|assumption|].
  - do 2 f_equal. apply filter_ext. intros kv.
    apply ipv4_key_in_range. now split.
  - unfold get_ip_range. rewrite Hv. apply Ipv4Facts.hosts_texts. now split.
Qed.

(** C3. [get_usage_stats]: [total] is the address count of the block,
    less two for an IPv4 block of more than two addresses. The range
    [get_ip_range] lists is the usable range: the texts [str] prints for
    the addresses of the block, less the network and the broadcast address
    for an IPv4 block of more than two addresses. [used] is the number of
    registered entries whose key is one of these texts (the texts being
    distinct); for every IPv4 subnet the constructor builds this is the
    number of entries whose key reads as an address of the usable range,
    an IPv4 address having one spelling. [available] is [total - used];
    [utilization] is [round(used / total * 100, 2)] in binary64
    arithmetic, and the integer 0 when [total] is 0. For [192.168.1.0/24]
    and no entry this is 254, 0, 254 and 0.0; with two entries in range,
    254, 2, 252 and the double nearest to 0.79. *)
Theorem usage_stats_spec :
  (forall (s : Subnet) (entries : PyDict.t IPAMEntry),
      let st := get_usage_stats s entries in
      let n := num_addresses (network s) in
      (network_version (network s) = V4 -> 2 < n -> total st = n - 2)
      /\ (network_version (network s) = V4 -> n <= 2 -> total st = n)
      /\ (network_version (network s) = V6 -> total st = n)
      /\ (PyDict.wf entries -> NoDup (get_ip_range s) ->
          used st
          = Z.of_nat
              (length (filter (fun kv => existsb (String.eqb (fst kv))
                                                 (get_ip_range s))
                              entries)))
      /\ available st = total st - used st
      /\ (0 < total st ->
          utilization st
          = NFloat (PyFloat.round
                      (PyFloat.mul (PyFloat.int_truediv (used st) (total st))
                                   (PyFloat.of_int 100)) 2))
      /\ (total st <= 0 -> utilization st = NInt 0))
  /\ (forall cidr name description (s : Subnet)
             (entries : PyDict.t IPAMEntry),
        new_subnet cidr name description = Ok s ->
        network_version (network s) = V4 ->
        PyDict.wf entries ->
        used (get_usage_stats s entries)
        = Z.of_nat
            (length (filter (fun kv => existsb (String.eqb (fst kv))
                                               (get_ip_range s))
                            entries)))
  /\ (forall name description, exists office,
        new_subnet "192.168.1.0/24" name description = Ok office
        /\ get_usage_stats office []
           = mkStats 254 0 254 (NFloat (S754_zero false))
        /\ (forall entries : PyDict.t IPAMEntry,
             PyDict.wf entries ->
             length (filter (fun kv => existsb (String.eqb (fst kv))
                                               (get_ip_range office))
                            entries) = 2%nat ->
             get_usage_stats office entries
             = mkStats 254 2 252 (NFloat (PyFloat.int_truediv 79 100)))
        /\ (forall entries : PyDict.t IPAMEntry,
             PyDict.wf entries ->
             length (filter (fun kv => lies_in_usable_range office (fst kv))
                            entries) = 2%nat ->
             get_usage_stats office entries
             = mkStats 254 2 252 (NFloat (PyFloat.int_truediv 79 100))))
  /\ (forall (s : Subnet) (key : string),
        In key (get_ip_range s)
        <-> exists a, in_usable_range (network s) a = true
                      /\ key = str (mkAddress (network_version (network s))
                                              a))
  /\ (forall cidr name description (s : Subnet)
             (entries : PyDict.t IPAMEntry),
        new_subnet cidr name description = Ok s ->
        network_version (network s) = V4 ->
        PyDict.wf entries ->
        used (get_usage_stats s entries)
        = Z.of_nat
            (length (filter (fun kv => lies_in_usable_range s (fst kv))
                            entries))).
Proof.
  split; [|split; [|split; [|split]]].
  - intros s entries st n. subst st n. unfold get_usage_stats; simpl.
    repeat split.
    + intros -> Hn. simpl. apply Z.ltb_lt in Hn. now rewrite Hn.
    + intros -> Hn. simpl. apply Z.ltb_ge in Hn. now rewrite Hn.
    + now intros ->.
    + apply used_counts_entries.
    + intros Hpos. apply Z.ltb_lt in Hpos. now rewrite Hpos.
    + intros Hzero. apply Z.ltb_ge in Hzero. now rewrite Hzero.
  - intros cidr name description s entries Hnew Hv4 Hwf.
    apply used_counts_entries; [assumption|].
    exact (constructed_ipv4_range _ _ _ _ Hnew Hv4).
  - intros name description.
    set (office := mkSubnet "192.168.1.0/24" name description
                            (mkNetwork V4 3232235776 24)).
    assert (Hnew : new_subnet "192.168.1.0/24" name description = Ok office)
      by (vm_compute; reflexivity).
    exists office. split; [exact Hnew|].
    split; [vm_compute; reflexivity|].
    split; intros entries Hwf Hcount.
    + pose proof (constructed_ipv4_range _ _ _ _ Hnew eq_refl) as Hnd.
      pose proof (used_counts_entries office entries Hwf Hnd) as Hused.
      rewrite Hcount in Hused.
      rewrite (usage_stats_eq office entries 254 2).
      * vm_compute. reflexivity.
      * vm_compute. reflexivity.
      * exact Hused.
    + pose proof (constructed_ipv4_block _ _ _ _ Hnew eq_refl) as Hblock.
      pose proof (used_counts_addresses office entries Hblock Hwf) as Hused.
      rewrite Hcount in Hused.
      rewrite (usage_stats_eq office entries 254 2).
      * vm_compute. reflexivity.
      * vm_compute. reflexivity.
      * exact Hused.
  - apply in_ip_range.
  - intros cidr name description s entries Hnew Hv4 Hwf.
    apply used_counts_addresses; [|assumption].
    exact (constructed_ipv4_block _ _ _ _ Hnew Hv4).
Qed.

(** *** CSV import *)

Lemma length_set_new {V : Type} (k : string) (v : V) (d : PyDict.t V) :
  PyDict.contains k d = false ->
  length (PyDict.set k v d) = S (length d).
Proof.
  unfold PyDict.contains.
  induction d as [|[k' v'] r IH]; simpl; [reflexivity|].
  destruct (String.eqb k k'); [discriminate|]. intros H. simpl.
  now rewrite IH.
Qed.

(** What one row does, by the kind of the row. *)
Lemma import_row_cases (r : row) (m : IPAMManager) :
  (is_malformed_row r = true -> import_row r m = (Counted_error, m))
  /\ (forall n, is_subnet_row r = true ->
        ip_network (field r "cidr") = Some n ->
        import_row r m
        = (if PyDict.contains (field r "cidr") (subnets m)
           then Not_counted else Counted_subnet,
           snd (add_subnet (mkSubnet (field r "cidr") (row_get r "name" "")
                                     (row_get r "description" "") n) m)))
  /\ (is_entry_row r = true ->
      import_row r m
      = (Counted_ip,
         snd (add_ip_entry
                (new_entry (field r "ip") (row_get r "subnet" "")
                           (row_get r "hostname" "")
                           (row_get r "description" "")
                           (row_get r "status" "Unknown")
                           (row_get r "session_name" "")) m)))
  /\ (is_subnet_row r = false -> is_entry_row r = false ->
      import_row r m = (Not_counted, m)).
Proof.
  unfold is_malformed_row, is_entry_row, is_subnet_row, import_row, new_subnet.
  repeat split.
  - destruct (has_field r "cidr"); [|discriminate].
    destruct (ip_network _); [discriminate | reflexivity].
  - intros n -> ->. unfold add_subnet. simpl.
    now destruct (PyDict.contains _ _).
  - destruct (has_field r "cidr"); [discriminate|].
    destruct (has_field r "ip"); [reflexivity | discriminate].
  - intros ->. simpl. now intros ->.
Qed.

Lemma count_cons p r rows :
  count p (r :: rows) = Z.b2z (p r) + count p rows.
Proof. unfold count. simpl. destruct (p r); simpl length; simpl Z.b2z; lia. Qed.

(** The counter a row moves, against the kind of the row and the number
    of subnets. *)
Lemma import_row_counts (r : row) (m : IPAMManager) :
  let o := fst (import_row r m) in
  let m' := snd (import_row r m) in
  Z.b2z (is_malformed_row r)
  = match o with Counted_error => 1 | _ => 0 end
  /\ Z.b2z (is_entry_row r) = match o with Counted_ip => 1 | _ => 0 end
  /\ Z.of_nat (length (subnets m')) - Z.of_nat (length (subnets m))
     = match o with Counted_subnet => 1 | _ => 0 end.
Proof.
  destruct (import_row_cases r m) as (Hbad & Hsub & Hentry & Hother).
  unfold is_malformed_row in *.
  destruct (is_subnet_row r) eqn:Hs.
  - assert (He : is_entry_row r = false)
      by (unfold is_entry_row, is_subnet_row in *; now rewrite Hs).
    destruct (ip_network (field r "cidr")) as [n|] eqn:Hn.
    + rewrite (Hsub n eq_refl eq_refl), He. unfold add_subnet. cbn [cidr].
      destruct (PyDict.contains _ _) eqn:Hc; simpl; [lia|].
      rewrite length_set_new by assumption. lia.
    + rewrite (Hbad eq_refl), He. simpl. lia.
  - destruct (is_entry_row r) eqn:He.
    + rewrite (Hentry eq_refl). simpl. lia.
    + rewrite (Hother eq_refl eq_refl). simpl. lia.
Qed.

Lemma import_rows_counts (f : csv_stream) : forall m a s e,
  import_rows f m a s e
  = (match read_error f with
     | Some error => ImportFailed error
     | None =>
         Imported
           (a + count is_entry_row (rows_of f))
           (s + (Z.of_nat (length (subnets (rows_effect (rows_of f) m)))
                 - Z.of_nat (length (subnets m))))
           (e + count is_malformed_row (rows_of f))
     end,
     rows_effect (rows_of f) m).
Proof.
  induction f as [|r rest IH|error]; intros m a s e.
  - simpl. unfold count. simpl. do 3 f_equal; lia.
  - cbn [import_rows rows_of read_error].
    destruct (import_row_counts r m) as (Hbad & Hentry & Hsub).
    unfold rows_effect. cbn [fold_left]. fold (rows_effect (rows_of rest)).
    rewrite !count_cons.
    destruct (import_row r m) as [o m'] eqn:Hrow. simpl in Hbad, Hentry, Hsub.
    rewrite Hbad, Hentry. simpl snd.
    destruct o; rewrite IH; destruct (read_error rest);
      try reflexivity; do 2 f_equal; unfold rows_effect; lia.
  - reflexivity.
Qed.

(** C5, as the code has it. [import_from_csv] takes the rows in order; a
    row with a non-empty [cidr] is a subnet row, a row with a non-empty
    [ip] and no non-empty [cidr] is an entry row. The rows counted as
    errors are the subnet rows whose [cidr] is no network, and no others:
    such a row leaves the repository as it was and the rows after it are
    processed. An entry row is stored whatever its [ip] text and counted
    as added; a row with neither field is passed over and not counted.
    When the reader does not fail the result is a success with the number
    of entry rows, the number of subnets the repository gained and the
    number of rows with a malformed [cidr]; a failure of the reader gives
    the failure result. A file with a new subnet row, an entry row and a
    row with a malformed [cidr] gives one, one and one. *)
Theorem import_from_csv_spec :
  (forall r m,
      (is_malformed_row r = true -> import_row r m = (Counted_error, m))
      /\ (is_subnet_row r = true -> is_malformed_row r = false ->
          exists s,
            new_subnet (field r "cidr") (row_get r "name" "")
                       (row_get r "description" "") = Ok s
            /\ snd (import_row r m) = snd (add_subnet s m))
      /\ (is_entry_row r = true ->
          exists entry, ip entry = field r "ip"
            /\ import_row r m = (Counted_ip, snd (add_ip_entry entry m))
            /\ get_entry (field r "ip") (snd (import_row r m)) = Some entry)
      /\ (is_subnet_row r = false -> is_entry_row r = false ->
          import_row r m = (Not_counted, m)))
  /\ (forall f m,
        read_error f = None ->
        import_from_csv f m
        = (Imported
             (count is_entry_row (rows_of f))
             (Z.of_nat (length (subnets (rows_effect (rows_of f) m)))
              - Z.of_nat (length (subnets m)))
             (count is_malformed_row (rows_of f)),
           rows_effect (rows_of f) m))
  /\ (forall f m error,
        read_error f = Some error ->
        fst (import_from_csv f m) = ImportFailed error)
  /\ (forall m subnet_row entry_row malformed_row n,
        is_subnet_row subnet_row = true ->
        ip_network (field subnet_row "cidr") = Some n ->
        PyDict.contains (field subnet_row "cidr") (subnets m) = false ->
        is_entry_row entry_row = true ->
        is_malformed_row malformed_row = true ->
        fst (import_from_csv
               (Row subnet_row (Row entry_row (Row malformed_row Eof))) m)
        = Imported 1 1 1).
Proof.
  split; [|split; [|split]].
  - intros r m.
    destruct (import_row_cases r m) as (Hbad & Hsub & Hentry & Hother).
    split; [assumption|]. split; [|split; [|assumption]].
    + intros Hs Hok. unfold is_malformed_row in Hok. rewrite Hs in Hok.
      destruct (ip_network (field r "cidr")) as [n|] eqn:Hn; [|discriminate].
      eexists. unfold new_subnet. rewrite Hn. split; [reflexivity|].
      now rewrite (Hsub n Hs eq_refl).
    + intros He.
      exists (new_entry (field r "ip") (row_get r "subnet" "")
                        (row_get r "hostname" "")
                        (row_get r "description" "")
                        (row_get r "status" "Unknown")
                        (row_get r "session_name" "")).
      split; [reflexivity|].
      split; [exact (Hentry He)|]. rewrite (Hentry He).
      unfold get_entry, add_ip_entry. simpl. apply get_set_same.
  - intros f m Hread. unfold import_from_csv.
    rewrite import_rows_counts, Hread. reflexivity.
  - intros f m error Hread. unfold import_from_csv.
    now rewrite import_rows_counts, Hread.
  - intros m rs re rm n Hs Hn Hnew He Hbad. unfold import_from_csv.
    cbn [import_rows].
    destruct (import_row_cases rs m) as (_ & H1 & _).
    rewrite (H1 n Hs Hn), Hnew.
    set (m1 := snd (add_subnet _ m)).
    destruct (import_row_cases re m1) as (_ & _ & H2 & _).
    rewrite (H2 He).
    set (m2 := snd (add_ip_entry _ m1)).
    destruct (import_row_cases rm m2) as (H3 & _).
    rewrite (H3 Hbad). reflexivity.
Qed.

(** C8, as the code has it. An empty or blank session name and a
    duplicate session name make [add_session] raise [ValueError] at the
    call, with nothing changed, and text that is no network makes the
    [Subnet] constructor raise [ValueError], so that no such subnet reaches
    [add_subnet]. The address of an entry is never parsed: [add_ip_entry]
    stores the entry under whatever text it carries and returns [True].
    [find_subnet_for_ip] catches the error of the address parser and
    answers [None]. *)
Theorem validation_errors :
  (forall now S m,
      PyStr.strip (Sessions.name S) = "" ->
      exists msg,
        Sessions.add_session now S m = (Raise (ValueError msg), m))
  /\ (forall now S m,
        PyDict.contains (Sessions.name S) (Sessions.sessions m) = true ->
        exists msg,
          Sessions.add_session now S m = (Raise (ValueError msg), m))
  /\ (forall cidr name description,
        ip_network cidr = None ->
        exists msg, new_subnet cidr name description = Raise (ValueError msg))
  /\ (forall entry m,
        fst (add_ip_entry entry m) = true
        /\ get_entry (ip entry) (snd (add_ip_entry entry m)) = Some entry)
  /\ (forall ip m, ip_address ip = None -> find_subnet_for_ip ip m = None).
Proof.
  split; [|split; [|split; [|split]]].
  - intros now S m Hblank. unfold Sessions.add_session. rewrite Hblank.
    simpl. eauto.
  - intros now S m Hdup. unfold Sessions.add_session. rewrite Hdup.
    destruct (negb _); eauto.
  - intros cidr name description Hbad. unfold new_subnet. rewrite Hbad. eauto.
  - intros entry m. split; [reflexivity|].
    unfold get_entry, add_ip_entry. simpl. apply get_set_same.
  - intros ip m Hbad. unfold find_subnet_for_ip. now rewrite Hbad.
Qed.

End WithIpv6.

Lemma import_from_csv_witness :
  fst (import_from_csv (ipv6 := colon_free) three_rows empty_ipam)
  = Imported 1 1 1
  /\ fst (import_from_csv (ipv6 := colon_free)
            (Row [("ip", Some "10.0.0.1")] (ReadError "disk")) empty_ipam)
     = ImportFailed "disk".
Proof.
  destruct (import_from_csv_spec (ipv6 := colon_free))
    as (_ & _ & Hfail & Hthree).
  split.
  - apply (Hthree empty_ipam _ _ _ (mkNetwork V4 3232235776 24));
      reflexivity.
  - apply Hfail. reflexivity.
Defined.

(** C5 as stated, for every malformed row: a row whose [ip] is no address
    is not counted as an error and not skipped. With such a row as the
    malformed one, the file of a subnet row, an entry row and a malformed
    row gives two added entries and no error, and the malformed address
    is in the repository. *)
Lemma malformed_ip_row_counterexample :
  ip_address (ipv6 := colon_free) "not-an-ip" = None
  /\ fst (import_from_csv (ipv6 := colon_free) three_rows_bad_ip empty_ipam)
     = Imported 2 1 0
  /\ PyDict.contains "not-an-ip"
       (entries (snd (import_from_csv (ipv6 := colon_free)
                        three_rows_bad_ip empty_ipam)))
     = true.
Proof. split; [|split]; reflexivity. Qed.

Lemma validation_errors_witness :
  (exists msg,
      Sessions.add_session noon
        (Sessions.new_session "  " "h" "" "" "" [] "" "" "") fresh_manager
      = (Raise (ValueError msg), fresh_manager))
  /\ (exists msg,
        new_subnet (ipv6 := colon_free) "not-a-cidr" None None
        = Raise (ValueError msg))
  /\ find_subnet_for_ip (ipv6 := colon_free) "not-an-ip" empty_ipam = None.
Proof.
  destruct (validation_errors (ipv6 := colon_free))
    as (Hblank & _ & Hcidr & _ & Hfind).
  split; [|split].
  - apply Hblank. reflexivity.
  - apply Hcidr. reflexivity.
  - apply Hfind. reflexivity.
Defined.

(** C8 as stated: a malformed address given to [add_ip_entry] or to
    [find_subnet_for_ip] is not reported. The text [not-an-ip] is no
    address, yet the entry is stored and [True] returned, and the lookup
    answers [None]. *)
Lemma malformed_ip_counterexample :
  ip_address (ipv6 := colon_free) "not-an-ip" = None
  /\ fst (add_ip_entry (office_entry "not-an-ip" "") empty_ipam) = true
  /\ get_entry "not-an-ip"
       (snd (add_ip_entry (office_entry "not-an-ip" "") empty_ipam))
     = Some (office_entry "not-an-ip" "")
  /\ find_subnet_for_ip (ipv6 := colon_free) "not-an-ip" empty_ipam = None.
Proof. repeat split. Qed.

Lemma usage_stats_witness :
  let office := mkSubnet "192.168.1.0/24" (Some "office") (Some "")
                         (mkNetwork V4 3232235776 24) in
  let entries :=
    [ ("192.168.1.10", office_entry "192.168.1.10" "192.168.1.0/24");
      ("192.168.1.20", office_entry "192.168.1.20" "");
      ("10.0.0.7", office_entry "10.0.0.7" "") ] in
  total (get_usage_stats (ipv6 := colon_free) office entries) = 254
  /\ used (get_usage_stats (ipv6 := colon_free) office entries) = 2
  /\ utilization (get_usage_stats (ipv6 := colon_free) office entries)
     = NFloat (PyFloat.int_truediv 79 100)
  /\ In "192.168.1.254" (get_ip_range (ipv6 := colon_free) office)
  /\ Z.of_nat
       (length (filter (fun kv => lies_in_usable_range (ipv6 := colon_free)
                                    office (fst kv)) entries)) = 2
  /\ get_usage_stats (ipv6 := colon_free) office entries
     = mkStats 254 2 252 (NFloat (PyFloat.int_truediv 79 100)).
Proof.
  intros office entries.
  destruct (usage_stats_spec (ipv6 := colon_free))
    as (Hgeneral & _ & Hoffice & Hrange & Haddresses).
  destruct (Hgeneral office entries)
    as (Htotal & _ & _ & Hused & _ & Hutil & _).
  assert (Hwf : PyDict.wf entries).
  { unfold entries, PyDict.wf, PyDict.keys. simpl.
    repeat constructor; simpl; intuition discriminate. }
  assert (Hnew : new_subnet (ipv6 := colon_free) "192.168.1.0/24"
                            (Some "office") (Some "") = Ok office)
    by (vm_compute; reflexivity).
  split; [apply Htotal; [reflexivity | vm_compute; reflexivity]|].
  split.
  { rewrite Hused.
    - vm_compute. reflexivity.
    - exact Hwf.
    - apply NoDup_by_nodup. vm_compute. reflexivity. }
  split; [rewrite Hutil; [vm_compute; reflexivity | vm_compute; reflexivity]|].
  split.
  { apply Hrange. exists 3232236030.
    split; vm_compute; reflexivity. }
  split.
  { rewrite <- (Haddresses _ _ _ office entries Hnew eq_refl Hwf).
    vm_compute. reflexivity. }
  destruct (Hoffice (Some "office") (Some ""))
    as (office' & Hnew' & _ & _ & Hby).
  assert (Hsame : office' = office) by congruence. subst office'.
  apply Hby; [exact Hwf | vm_compute; reflexivity].
Defined.

(** An IPv6 entry registered under another spelling of its address is in
    the usable range and is not counted. The block [2001:db8::/126] has
    the four addresses [2001:db8::] to [2001:db8::3]; the key
    [2001:DB8::1], which the window for adding an address accepts and
    stores as typed, reads as the second of them, and [used] is 0. *)
Lemma usage_stats_counterexample :
  let entries :=
    [ ("2001:DB8::1", office_entry "2001:DB8::1" "2001:db8::/126") ] in
  let second :=
    mkAddress V6 42540766411282592856903984951653826561 in
  new_subnet (ipv6 := documentation_block) "2001:db8::/126" (Some "lab")
             (Some "") = Ok documentation_subnet
  /\ get_ip_range (ipv6 := documentation_block) documentation_subnet
     = ["2001:db8::"; "2001:db8::1"; "2001:db8::2"; "2001:db8::3"]
  /\ ip_address (ipv6 := documentation_block) "2001:DB8::1" = Some second
  /\ contains second (network documentation_subnet) = true
  /\ length (filter (fun kv => lies_in_usable_range
                                 (ipv6 := documentation_block)
                                 documentation_subnet (fst kv)) entries)
     = 1%nat
  /\ get_usage_stats (ipv6 := documentation_block) documentation_subnet
                     entries
     = mkStats 4 0 4 (NFloat (S754_zero false)).
Proof. vm_compute. repeat split; reflexivity. Qed.

Lemma remove_subnet_cascade_witness :
  let office := mkSubnet "192.168.1.0/24" (Some "office") (Some "")
                         (mkNetwork V4 3232235776 24) in
  let m :=
    mkIpam
      [ ("192.168.1.10", office_entry "192.168.1.10" "192.168.1.0/24");
        ("192.168.1.20", office_entry "192.168.1.20" "");
        ("192.168.1.30", office_entry "192.168.1.30" "10.0.0.0/8") ]
      [ ("192.168.1.0/24", office) ] None None true true in
  remove_subnet "10.9.0.0/16" m = (false, m)
  /\ fst (remove_subnet "192.168.1.0/24" m) = true
  /\ entries (snd (remove_subnet "192.168.1.0/24" m))
     = [ ("192.168.1.20", office_entry "192.168.1.20" "");
         ("192.168.1.30", office_entry "192.168.1.30" "10.0.0.0/8") ].
Proof.
  intros office m.
  destruct (remove_subnet_cascade "10.9.0.0/16" m) as [Habsent _].
  destruct (remove_subnet_cascade "192.168.1.0/24" m) as [_ Hpresent].
  split; [apply Habsent; reflexivity|].
  destruct Hpresent as (Htrue & Hentries & _).
  - reflexivity.
  - unfold m, PyDict.wf, PyDict.keys. simpl.
    repeat constructor; simpl; intuition discriminate.
  - split; [exact Htrue | exact Hentries].
Defined.

End IpamFacts.

(** ** The scan never runs more than fifty probes *)

Module ScanFacts.
Import Scan.

Local Open Scope nat_scope.

Lemma length_filter_le {A : Type} (f : A -> bool) (l : list A) :
  length (filter f l) <= length l.
Proof.
  induction l as [|x l IH]; simpl; [lia|]. destruct (f x); simpl; lia.
Qed.

Lemma invariant_init ip_range : invariant ip_range (init ip_range).
Proof.
  constructor; simpl; try discriminate; try contradiction;
    unfold limit; auto; lia.
Qed.

Lemma invariant_step ip_range s s' :
  invariant ip_range s -> step s s' -> invariant ip_range s'.
Proof.
  intros [Hlimit Hroom Hstarted Hprogress Hpending Hreturned] Hstep.
  destruct Hstep as [ip todo n al | todo n al seen Hseen Hfull
                    | todo n al seen Hseen Hroom' | n al
                    | t pending n al Hdone | n al | t l n al Hin];
    simpl in *.
  - (* thread.start() *)
    specialize (Hroom _ eq_refl).
    constructor; simpl; try discriminate; try lia.
    intros t [<- | Ht]; [lia | specialize (Hstarted _ Ht); lia].
  - (* time.sleep(0.1) *)
    constructor; simpl; auto; discriminate.
  - (* the while loop ends *)
    constructor; simpl; auto; try discriminate. intros _ _. lia.
  - (* the for loop ends *)
    constructor; simpl; auto; try discriminate.
    intros pending [= <-] t Ht. apply in_seq. specialize (Hstarted _ Ht). lia.
  - (* thread.join() returns *)
    constructor; simpl; auto; try discriminate.
    intros pending' [= <-] t' Ht'.
    destruct (Hpending _ eq_refl _ Ht') as [<- | Hin];
      [contradiction | assumption].
  - (* the last join has returned *)
    constructor; simpl; auto; try discriminate.
    intros _. destruct al as [|t al]; [reflexivity|].
    destruct (Hpending _ eq_refl t (or_introl eq_refl)).
  - (* a worker finishes *)
    pose proof (length_filter_le (fun x => negb (Nat.eqb x t)) al) as Hle.
    constructor; simpl.
    + lia.
    + intros todo Hpc. specialize (Hroom _ Hpc). lia.
    + intros t' Ht'. apply filter_In in Ht'. now apply Hstarted.
    + assumption.
    + intros pending Hpc t' Ht'. apply filter_In in Ht'.
      now apply (Hpending _ Hpc).
    + intros Hpc. specialize (Hreturned Hpc). subst al. reflexivity.
Qed.

Lemma reachable_invariant ip_range s :
  reachable ip_range s -> invariant ip_range s.
Proof.
  induction 1 as [|s s' _ IH Hstep];
    [apply invariant_init | exact (invariant_step _ _ _ IH Hstep)].
Qed.

(** C9. In every state of a scan at most fifty worker threads, each
    running one probe, are alive; a thread is started only from a state
    with fewer than fifty alive; and when [scan_subnet] has returned every
    address of the range has had its thread and none is alive. *)
Theorem scan_bounded (ip_range : list string) (s : state) :
  reachable ip_range s ->
  length (alive s) <= 50
  /\ (forall s', step s s' -> started s' = S (started s) ->
                 length (alive s) < 50)
  /\ (pc s = Returned ->
      alive s = [] /\ started s = length ip_range).
Proof.
  intros Hreach. apply reachable_invariant in Hreach.
  destruct Hreach as [Hlimit Hroom Hstarted Hprogress Hpending Hreturned].
  split; [exact Hlimit|]. split.
  - intros s' Hstep Hnew.
    destruct Hstep; simpl in *; try lia.
    exact (Hroom _ eq_refl).
  - intros Hpc. split; [now apply Hreturned|].
    rewrite Hpc in Hprogress. simpl in Hprogress. lia.
Qed.

Lemma scan_bounded_witness :
  length (alive (mkState (Throttling ["10.0.0.2"]) 1 [0%nat])) <= 50.
Proof.
  apply (scan_bounded ["10.0.0.1"; "10.0.0.2"]
                      (mkState (Throttling ["10.0.0.2"]) 1 [0%nat])).
  apply (reach_step _ (init ["10.0.0.1"; "10.0.0.2"])).
  - apply reach_init.
  - apply step_start.
Defined.

End ScanFacts.

(** ** Sorting strings *)

Module OrderFacts.
Import Sessions.

Lemma ascii_compare_lt_trans a b c :
  Ascii.compare a b = Lt -> Ascii.compare b c = Lt -> Ascii.compare a c = Lt.
Proof.
  unfold Ascii.compare. rewrite !N.compare_lt_iff. apply N.lt_trans.
Qed.

Lemma ascii_compare_eq a b : Ascii.compare a b = Eq -> a = b.
Proof.
  unfold Ascii.compare. rewrite N.compare_eq_iff. intro H.
  rewrite <- (ascii_N_embedding a), <- (ascii_N_embedding b). congruence.
Qed.

Lemma compare_lt_trans a : forall b c,
  String.compare a b = Lt -> String.compare b c = Lt ->
  String.compare a c = Lt.
Proof.
  induction a as [|x a IH]; intros [|y b] [|z c]; simpl; try congruence.
  destruct (Ascii.compare x y) eqn:Exy; try congruence;
    destruct (Ascii.compare y z) eqn:Eyz; try congruence; intros H1 H2.
  - apply ascii_compare_eq in Exy, Eyz. subst.
    assert (E : Ascii.compare z z = Eq)
      by (unfold Ascii.compare; apply N.compare_refl).
    rewrite E. eauto.
  - apply ascii_compare_eq in Exy. subst. now rewrite Eyz.
  - apply ascii_compare_eq in Eyz. subst. now rewrite Exy.
  - now rewrite (ascii_compare_lt_trans _ _ _ Exy Eyz).
Qed.

Lemma ltb_trans a b c :
  String.ltb a b = true -> String.ltb b c = true -> String.ltb a c = true.
Proof.
  unfold String.ltb.
  destruct (String.compare a b) eqn:E1; try discriminate.
  destruct (String.compare b c) eqn:E2; try discriminate.
  now rewrite (compare_lt_trans _ _ _ E1 E2).
Qed.

Lemma leb_ltb a b : String.leb a b = true -> a <> b -> String.ltb a b = true.
Proof.
  unfold String.leb, String.ltb.
  destruct (String.compare a b) eqn:E; try discriminate; auto.
  intros _ Hne. apply String.compare_eq_iff in E. congruence.
Qed.

Lemma leb_false_ltb a b : String.leb a b = false -> String.ltb b a = true.
Proof.
  unfold String.leb, String.ltb. rewrite (String.compare_antisym a b).
  destruct (String.compare b a); simpl; congruence.
Qed.

Lemma insert_sorted_perm x l : Permutation (insert_sorted x l) (x :: l).
Proof.
  induction l as [|y r IH]; simpl; auto.
  destruct (String.leb x y); auto.
  rewrite IH. apply perm_swap.
Qed.

Lemma sorted_perm l : Permutation (sorted l) l.
Proof.
  induction l as [|x l IH]; simpl; auto.
  rewrite insert_sorted_perm. auto.
Qed.

Lemma insert_sorted_ascending x l :
  ascending l -> ~ In x l -> ascending (insert_sorted x l).
Proof.
  unfold ascending. induction l as [|y r IH]; simpl; intros Hs Hn.
  - constructor; constructor.
  - apply StronglySorted_inv in Hs. destruct Hs as [Hr Hy].
    destruct (String.leb x y) eqn:E.
    + assert (Hxy : String.ltb x y = true) by (apply leb_ltb; intuition).
      constructor; [constructor; auto|].
      constructor; auto.
      eapply Forall_impl; [|exact Hy]. intros z Hz. eapply ltb_trans; eauto.
    + constructor; [apply IH; intuition|].
      eapply Permutation_Forall; [symmetry; apply insert_sorted_perm|].
      constructor; auto. now apply leb_false_ltb.
Qed.

Lemma sorted_is_ascending l : NoDup l -> ascending (sorted l).
Proof.
  induction 1 as [|x l Hn Hd IH]; simpl.
  - constructor.
  - apply insert_sorted_ascending; auto.
    intro H. apply Hn. eapply Permutation_in; [apply sorted_perm|exact H].
Qed.

(** Two strictly increasing lists with the same elements are equal. *)
Lemma ascending_ext a : forall b,
  ascending a -> ascending b -> (forall x, In x a <-> In x b) -> a = b.
Proof.
  unfold ascending.
  induction a as [|x a IH]; intros [|y b] Ha Hb Hab.
  - reflexivity.
  - exfalso. apply (Hab y). now left.
  - exfalso. apply (Hab x). now left.
  - apply StronglySorted_inv in Ha, Hb. destruct Ha as [Ha Hx], Hb as [Hb Hy].
    rewrite Forall_forall in Hx, Hy.
    assert (x = y).
    { destruct (proj1 (Hab x) (or_introl eq_refl)) as [E|Hin]; auto.
      destruct (proj2 (Hab y) (or_introl eq_refl)) as [E|Hin']; auto.
      pose proof (ltb_trans _ _ _ (Hx _ Hin') (Hy _ Hin)) as F.
      rewrite BackupFacts.ltb_irrefl in F. discriminate. }
    subst y. f_equal. apply IH; auto.
    intro z. split; intro Hz.
    + destruct (proj1 (Hab z) (or_intror Hz)) as [E|]; auto.
      subst z. specialize (Hx _ Hz).
      rewrite BackupFacts.ltb_irrefl in Hx. discriminate.
    + destruct (proj2 (Hab z) (or_intror Hz)) as [E|]; auto.
      subst z. specialize (Hy _ Hz).
      rewrite BackupFacts.ltb_irrefl in Hy. discriminate.
Qed.

(** Sorting distinct strings forgets the order they came in. *)
Lemma sorted_any_order l l' :
  NoDup l -> Permutation l l' -> sorted l' = sorted l.
Proof.
  intros Hd Hp. apply ascending_ext.
  - apply sorted_is_ascending. eapply Permutation_NoDup; eauto.
  - now apply sorted_is_ascending.
  - intro x. split; intro H.
    + eapply Permutation_in; [symmetry; apply sorted_perm|].
      eapply Permutation_in; [symmetry; exact Hp|].
      eapply Permutation_in; [apply sorted_perm|exact H].
    + eapply Permutation_in; [symmetry; apply sorted_perm|].
      eapply Permutation_in; [exact Hp|].
      eapply Permutation_in; [apply sorted_perm|exact H].
Qed.

End OrderFacts.

(** ** Dictionaries, continued *)

Section MoreDictFacts.

Context {V : Type}.
Implicit Types d : PyDict.t V.

Lemma keys_set_present k v d :
  PyDict.contains k d = true -> PyDict.keys (PyDict.set k v d) = PyDict.keys d.
Proof.
  unfold PyDict.contains.
  induction d as [|[k' v'] r IH]; simpl; [discriminate|].
  destruct (String.eqb k k') eqn:E; simpl; auto.
  intro H. now rewrite IH.
Qed.

Lemma set_fresh k v d :
  PyDict.contains k d = false -> PyDict.set k v d = (d ++ [(k, v)])%list.
Proof.
  unfold PyDict.contains.
  induction d as [|[k' v'] r IH]; simpl; auto.
  destruct (String.eqb k k') eqn:E; [discriminate|].
  intro H. now rewrite IH.
Qed.

Lemma set_twice k v d :
  PyDict.set k v (PyDict.set k v d) = PyDict.set k v d.
Proof.
  induction d as [|[k' v'] r IH]; simpl.
  - now rewrite String.eqb_refl.
  - destruct (String.eqb k k') eqn:E; simpl; rewrite E; congruence.
Qed.

Lemma pop_absent k d : PyDict.contains k d = false -> PyDict.pop k d = d.
Proof.
  unfold PyDict.contains, PyDict.pop.
  induction d as [|[k' v'] r IH]; simpl; auto.
  destruct (String.eqb k k') eqn:E; [discriminate|]. simpl.
  intro H. now rewrite IH.
Qed.

Lemma pop_set_fresh k v d :
  PyDict.contains k d = false -> PyDict.pop k (PyDict.set k v d) = d.
Proof.
  intro H. rewrite set_fresh by exact H.
  unfold PyDict.pop. rewrite filter_app. simpl. rewrite String.eqb_refl. simpl.
  rewrite app_nil_r. now apply pop_absent.
Qed.

Lemma wf_set k v d : PyDict.wf d -> PyDict.wf (PyDict.set k v d).
Proof.
  unfold PyDict.wf. intro H.
  destruct (PyDict.contains k d) eqn:E.
  - now rewrite keys_set_present.
  - rewrite set_fresh by exact E. unfold PyDict.keys in *.
    rewrite map_app. simpl.
    apply contains_false in E. apply get_None_keys in E.
    apply NoDup_app; auto.
    + constructor; [intros []|constructor].
    + intros x Hx [<-|[]]. auto.
Qed.

Lemma wf_pop k d : PyDict.wf d -> PyDict.wf (PyDict.pop k d).
Proof.
  unfold PyDict.wf. rewrite BackupFacts.keys_pop. apply NoDup_filter.
Qed.

Lemma pops_preserve (P : PyDict.t V -> Prop) olds :
  (forall k d, P d -> P (PyDict.pop k d)) ->
  forall d, P d -> P (fold_left (fun d k => PyDict.pop k d) olds d).
Proof.
  intro Hpop. induction olds as [|k olds IH]; simpl; auto.
Qed.

(** Storing the values of a dictionary under their own keys, in order,
    builds the dictionary again. *)
Lemma load_own_keys (key : V -> string) d :
  PyDict.wf d -> Forall (fun kv => key (snd kv) = fst kv) d ->
  forall acc,
    (forall k, In k (PyDict.keys d) -> PyDict.contains k acc = false) ->
    fold_left (fun acc x => PyDict.set (key x) x acc) (PyDict.values d) acc
    = (acc ++ d)%list.
Proof.
  unfold PyDict.wf.
  induction d as [|[k s] d IH]; simpl; intros Hwf Hk acc Hacc.
  - now rewrite app_nil_r.
  - apply NoDup_cons_iff in Hwf. destruct Hwf as [Hn Hwf].
    pose proof (Forall_inv Hk) as Hs. simpl in Hs.
    apply Forall_inv_tail in Hk.
    rewrite Hs, set_fresh by auto.
    rewrite IH; auto.
    + now rewrite <- app_assoc.
    + intros k' Hk'. apply contains_false. apply get_None_keys.
      unfold PyDict.keys. rewrite map_app. simpl. intro Hin.
      apply in_app_or in Hin. destruct Hin as [Hin|[<-|[]]]; [|contradiction].
      specialize (Hacc k' (or_intror Hk')).
      apply contains_false in Hacc. apply get_None_keys in Hacc. auto.
Qed.

End MoreDictFacts.

(** ** Backup rotation over a directory in use *)

Module RetentionFacts.
Import Sessions Samples SessionFacts BackupFacts.

Lemma unlink_all_keys olds : forall dir : PyDict.t file_content,
  PyDict.wf dir -> PyDict.wf (fold_left (unlink_old []) olds dir).
Proof.
  induction olds as [|o olds IH]; intros dir Hwf; simpl; [assumption|].
  apply IH. unfold unlink_old. simpl. now apply wf_pop.
Qed.

Lemma get_unlink f olds : forall dir : PyDict.t file_content,
  ~ In f olds ->
  PyDict.get f (fold_left (unlink_old []) olds dir) = PyDict.get f dir.
Proof.
  induction olds as [|o olds IH]; intros dir Hf; simpl; [reflexivity|].
  rewrite IH by (simpl in Hf; tauto).
  unfold unlink_old. simpl. apply get_pop_other. simpl in Hf. intuition.
Qed.

Lemma in_backup_files f m :
  In f (backup_files m)
  <-> In f (PyDict.keys (backup_dir m)) /\ glob_backup f = true.
Proof.
  unfold backup_files. rewrite <- filter_In. split; intros H.
  - eapply Permutation_in; [apply OrderFacts.sorted_perm | exact H].
  - eapply Permutation_in; [symmetry; apply OrderFacts.sorted_perm | exact H].
Qed.

Lemma backup_files_ascending m :
  PyDict.wf (backup_dir m) -> ascending (backup_files m).
Proof.
  intros Hwf. apply OrderFacts.sorted_is_ascending. now apply NoDup_filter.
Qed.

Lemma in_skipn_firstn j (l : list string) x :
  NoDup l ->
  In x (skipn j l)
  <-> In x l /\ existsb (String.eqb x) (firstn j l) = false.
Proof.
  intros Hnd. rewrite <- (filter_firstn j l Hnd), filter_In.
  now rewrite negb_true_iff.
Qed.

(** One backup over any directory whose backups are older than the new
    one: the listing becomes the old one with the new name, cut to its
    last [k] names, and the other files of the directory stay. *)
Lemma create_backup_listing t m content k :
  session_file m = Some content ->
  max_backups_setting m = Ok (Config.VInt k) -> 1 <= k -> locked m = [] ->
  PyDict.wf (backup_dir m) ->
  Forall (fun x => String.ltb x (backup_name t) = true) (backup_files m) ->
  let m' := _create_backup t m in
  backup_files m' = newest (Z.to_nat k) (backup_files m ++ [backup_name t])
  /\ PyDict.wf (backup_dir m')
  /\ (forall f, glob_backup f = false ->
        PyDict.get f (backup_dir m') = PyDict.get f (backup_dir m)).
Proof.
  intros Hfile Hmax Hk Hlocked Hwf Hbelow.
  set (n := backup_name t) in *.
  set (B := backup_files m) in *.
  assert (HascB : ascending B) by now apply backup_files_ascending.
  assert (Hn : glob_backup n = true) by apply NameOrder.glob_backup_name.
  assert (Hfresh : ~ In n (PyDict.keys (backup_dir m))).
  { intros Hin. rewrite Forall_forall in Hbelow.
    assert (HnB : In n B) by (apply in_backup_files; now split).
    specialize (Hbelow _ HnB). now rewrite ltb_irrefl in Hbelow. }
  set (dir := PyDict.set n content (backup_dir m)).
  assert (Hwf1 : PyDict.wf dir) by now apply wf_set.
  assert (Hkeys : filter glob_backup (PyDict.keys dir)
                  = (filter glob_backup (PyDict.keys (backup_dir m)) ++ [n])%list).
  { unfold dir. rewrite keys_set_fresh, filter_app by assumption.
    cbn [filter]. now rewrite Hn. }
  assert (Hasc1 : ascending (B ++ [n])) by now apply ascending_snoc.
  assert (Hlist : sorted (filter glob_backup (PyDict.keys dir))
                  = (B ++ [n])%list).
  { apply OrderFacts.ascending_ext.
    - apply OrderFacts.sorted_is_ascending. now apply NoDup_filter.
    - assumption.
    - intros x. rewrite Hkeys. split; intros Hx.
      + apply (Permutation_in _ (OrderFacts.sorted_perm _)) in Hx.
        apply in_app_or in Hx. apply in_or_app.
        destruct Hx as [Hx | Hx]; [left | now right].
        eapply Permutation_in;
          [symmetry; apply OrderFacts.sorted_perm | exact Hx].
      + apply (Permutation_in _ (Permutation_sym (OrderFacts.sorted_perm _))).
        apply in_app_or in Hx. apply in_or_app.
        destruct Hx as [Hx | Hx]; [left | now right].
        eapply Permutation_in; [apply OrderFacts.sorted_perm | exact Hx]. }
  assert (Hmem : forall x, In x (B ++ [n])
                           <-> In x (filter glob_backup (PyDict.keys dir))).
  { intros x. rewrite <- Hlist. split; intros Hx.
    - eapply Permutation_in; [apply OrderFacts.sorted_perm | exact Hx].
    - eapply Permutation_in;
        [symmetry; apply OrderFacts.sorted_perm | exact Hx]. }
  assert (Hglob : forall x, In x (B ++ [n]) -> glob_backup x = true).
  { intros x Hx. rewrite <- Hlist in Hx.
    apply (Permutation_in _ (OrderFacts.sorted_perm _)) in Hx.
    now apply filter_In in Hx. }
  assert (Hm' : _create_backup t m
                = with_backup_dir m
                    (if k <? Z.of_nat (length (B ++ [n]))
                     then fold_left (unlink_old [])
                                    (slice_to (- k) (B ++ [n])) dir
                     else dir)).
  { unfold _create_backup. rewrite Hfile, Hmax. cbv zeta.
    fold n. fold dir. now rewrite Hlist, Hlocked. }
  cbv zeta. rewrite Hm'. clear Hm'.
  unfold backup_files at 1. cbn [backup_dir with_backup_dir].
  destruct (k <? Z.of_nat (length (B ++ [n]))) eqn:Hcmp.
  - rewrite slice_to_neg by lia. split; [|split].
    + apply OrderFacts.ascending_ext.
      * apply OrderFacts.sorted_is_ascending. apply NoDup_filter.
        now apply unlink_all_keys.
      * now apply ascending_skipn.
      * intros x. unfold newest.
        rewrite (in_skipn_firstn _ _ _ (ascending_NoDup _ Hasc1)).
        rewrite (Hmem x).
        split; intros Hx.
        -- apply (Permutation_in _ (OrderFacts.sorted_perm _)) in Hx.
           rewrite keys_unlink, filter_comm in Hx.
           apply filter_In in Hx as [Hx Hnot].
           apply negb_true_iff in Hnot. now split.
        -- destruct Hx as [Hx Hnot].
           apply (Permutation_in _ (Permutation_sym (OrderFacts.sorted_perm _))).
           rewrite keys_unlink, filter_comm. apply filter_In.
           split; [assumption | now apply negb_true_iff].
    + now apply unlink_all_keys.
    + intros f Hf. rewrite get_unlink.
      * unfold dir. apply get_set_other. intros E.
        rewrite <- E in Hf. congruence.
      * intros Hin.
        assert (Hin' : In f (B ++ [n])).
        { rewrite <- (firstn_skipn (length (B ++ [n]) - Z.to_nat k)
                                   (B ++ [n])).
          apply in_or_app. now left. }
        apply Hglob in Hin'. congruence.
  - apply Z.ltb_ge in Hcmp. split; [|split].
    + rewrite Hlist, newest_short; [reflexivity | lia].
    + assumption.
    + intros f Hf. unfold dir. apply get_set_other. intros E.
      rewrite <- E in Hf. congruence.
Qed.

Lemma save_keeps_file now m :
  session_file m <> None -> session_file (snd (save_sessions now m)) <> None.
Proof.
  intros Hfile. unfold save_sessions.
  destruct (create_backup_frame now m) as (_ & _ & Hf & _).
  cbv zeta in *. destruct (writable (_create_backup now m)); simpl.
  - discriminate.
  - congruence.
Qed.

Lemma save_first_file now m :
  writable m = true -> session_file (snd (save_sessions now m)) <> None.
Proof.
  intros Hw. rewrite (save_sessions_persisted now m Hw). discriminate.
Qed.

Lemma save_setting now m :
  max_backups_setting (snd (save_sessions now m)) = max_backups_setting m.
Proof.
  destruct (save_sessions_frame now m) as (Hc & _).
  unfold max_backups_setting. cbv zeta in Hc. now rewrite Hc.
Qed.

Lemma save_locked now m : locked (snd (save_sessions now m)) = locked m.
Proof. now destruct (save_sessions_frame now m) as (_ & _ & _ & Hl). Qed.

Lemma save_writable now m :
  writable (snd (save_sessions now m)) = writable m.
Proof. now destruct (save_sessions_frame now m) as (_ & _ & Hw & _). Qed.

Lemma newest_long {A : Type} (k : nat) (a b : list A) :
  (k <= length b)%nat -> newest k (a ++ b) = newest k b.
Proof.
  intros Hk. unfold newest. rewrite skipn_app, length_app.
  replace (length a + length b - k - length a)%nat
    with (length b - k)%nat by lia.
  rewrite skipn_all2 by lia. reflexivity.
Qed.

(** Saves over a sessions file that exists, from a directory that holds
    at most [k] backups, all older than the saves to come. *)
Lemma saves_bounded k readings : forall m,
  1 <= k -> max_backups_setting m = Ok (Config.VInt k) ->
  session_file m <> None -> locked m = [] ->
  PyDict.wf (backup_dir m) ->
  (length (backup_files m) <= Z.to_nat k)%nat ->
  (forall x t, In x (backup_files m) -> In t readings ->
               String.ltb x (backup_name t) = true) ->
  chronological readings -> Forall Datetime.valid readings ->
  backup_files (saves readings m)
  = newest (Z.to_nat k) (backup_files m ++ map backup_name readings)
  /\ (forall f, glob_backup f = false ->
        PyDict.get f (backup_dir (saves readings m))
        = PyDict.get f (backup_dir m)).
Proof.
  induction readings as [|t rest IH];
    intros m Hk Hmax Hfile Hlk Hwf Hlen Hbelow Hchr Hval.
  - simpl. rewrite app_nil_r, newest_short by assumption. now split.
  - destruct (StronglySorted_inv Hchr) as [Hchr' Hlater].
    pose proof (Forall_inv Hval) as Hvt.
    pose proof (Forall_inv_tail Hval) as Hval'.
    destruct (session_file m) as [content|] eqn:Hcontent; [|congruence].
    assert (Hbelow_t : Forall (fun x => String.ltb x (backup_name t) = true)
                              (backup_files m)).
    { apply Forall_forall. intros x Hx.
      apply Hbelow; [assumption | now left]. }
    destruct (create_backup_listing t m content k Hcontent Hmax Hk Hlk Hwf
                                    Hbelow_t) as (Hstep & Hwf1 & Hframe1).
    set (m1 := snd (save_sessions t m)).
    assert (Hdir : backup_dir m1 = backup_dir (_create_backup t m))
      by apply save_sessions_backup_dir.
    assert (Hfiles : backup_files m1 = backup_files (_create_backup t m))
      by (unfold backup_files; now rewrite Hdir).
    change (saves (t :: rest) m) with (saves rest m1).
    destruct (IH m1) as [Hlist Hframe]; auto.
    + unfold m1. now rewrite save_setting.
    + apply save_keeps_file. congruence.
    + unfold m1. now rewrite save_locked.
    + now rewrite Hdir.
    + rewrite Hfiles, Hstep, length_newest. lia.
    + intros x t' Hx Ht'. rewrite Hfiles, Hstep in Hx.
      apply in_newest in Hx. apply in_app_or in Hx.
      destruct Hx as [Hx | [<- | []]].
      * apply Hbelow; [assumption | now right].
      * rewrite Forall_forall in Hlater, Hval'.
        apply NameOrder.backup_name_lt; auto.
    + split.
      * rewrite Hlist, Hfiles, Hstep, newest_app, <- app_assoc.
        reflexivity.
      * intros f Hf. rewrite (Hframe f Hf), Hdir. now apply Hframe1.
Qed.

(** Saves over a sessions file that exists, at least [k] of them, from
    any directory whose backups are older. *)
Lemma saves_from_file k t rest m :
  1 <= k -> max_backups_setting m = Ok (Config.VInt k) ->
  session_file m <> None -> locked m = [] ->
  PyDict.wf (backup_dir m) ->
  (forall x t', In x (backup_files m) -> In t' (t :: rest) ->
                String.ltb x (backup_name t') = true) ->
  chronological (t :: rest) -> Forall Datetime.valid (t :: rest) ->
  (Z.to_nat k <= length (t :: rest))%nat ->
  backup_files (saves (t :: rest) m)
  = newest (Z.to_nat k) (map backup_name (t :: rest))
  /\ (forall f, glob_backup f = false ->
        PyDict.get f (backup_dir (saves (t :: rest) m))
        = PyDict.get f (backup_dir m)).
Proof.
  intros Hk Hmax Hfile Hlk Hwf Hbelow Hchr Hval HN.
  destruct (StronglySorted_inv Hchr) as [Hchr' Hlater].
  pose proof (Forall_inv Hval) as Hvt.
  pose proof (Forall_inv_tail Hval) as Hval'.
  destruct (session_file m) as [content|] eqn:Hcontent; [|congruence].
  assert (Hbelow_t : Forall (fun x => String.ltb x (backup_name t) = true)
                            (backup_files m)).
  { apply Forall_forall. intros x Hx. apply Hbelow; [assumption | now left]. }
  destruct (create_backup_listing t m content k Hcontent Hmax Hk Hlk Hwf
                                  Hbelow_t) as (Hstep & Hwf1 & Hframe1).
  set (m1 := snd (save_sessions t m)).
  assert (Hdir : backup_dir m1 = backup_dir (_create_backup t m))
    by apply save_sessions_backup_dir.
  assert (Hfiles : backup_files m1 = backup_files (_create_backup t m))
    by (unfold backup_files; now rewrite Hdir).
  change (saves (t :: rest) m) with (saves rest m1).
  destruct (saves_bounded k rest m1) as [Hlist Hframe]; auto.
  - unfold m1. now rewrite save_setting.
  - apply save_keeps_file. congruence.
  - unfold m1. now rewrite save_locked.
  - now rewrite Hdir.
  - rewrite Hfiles, Hstep, length_newest. lia.
  - intros x t' Hx Ht'. rewrite Hfiles, Hstep in Hx.
    apply in_newest in Hx. apply in_app_or in Hx.
    destruct Hx as [Hx | [<- | []]].
    + apply Hbelow; [assumption | now right].
    + rewrite Forall_forall in Hlater, Hval'.
      apply NameOrder.backup_name_lt; auto.
  - split.
    + rewrite Hlist, Hfiles, Hstep, newest_app, <- app_assoc.
      apply newest_long. cbn [app map length] in *.
      rewrite length_map. exact HN.
    + intros f Hf. rewrite (Hframe f Hf), Hdir. now apply Hframe1.
Qed.

(** X29. Backup rotation over a directory already in use. With a
    retention count [k] of at least one, a sessions file that exists or
    can be written, no deletion refused, and a backups directory whose
    backups all have names below those of the saves to come (they were
    made earlier): after [N > k] saves at clock readings in time order,
    no two in the same second, exactly [k] backups remain, and they are
    the [k] created last, however many older backups the directory held.
    The files of the directory that are no backups are left as they
    were. *)
Theorem retention_over_older_backups (k : Z) (readings : list Datetime.t)
  (m : SessionManager) :
  1 <= k ->
  max_backups_setting m = Ok (Config.VInt k) ->
  writable m = true \/ session_file m <> None ->
  locked m = [] ->
  PyDict.wf (backup_dir m) ->
  (forall x t, In x (backup_files m) -> In t readings ->
               String.ltb x (backup_name t) = true) ->
  chronological readings -> Forall Datetime.valid readings ->
  (Z.to_nat k < length readings)%nat ->
  backup_files (saves readings m) = newest (Z.to_nat k) (created readings m)
  /\ length (backup_files (saves readings m)) = Z.to_nat k
  /\ (forall f, glob_backup f = false ->
        PyDict.get f (backup_dir (saves readings m))
        = PyDict.get f (backup_dir m)).
Proof.
  intros Hk Hmax Hsource Hlk Hwf Hbelow Hchr Hval HN.
  assert (Hmain :
    backup_files (saves readings m) = newest (Z.to_nat k) (created readings m)
    /\ (forall f, glob_backup f = false ->
          PyDict.get f (backup_dir (saves readings m))
          = PyDict.get f (backup_dir m))).
  { destruct readings as [|t rest]; [simpl in HN; lia|].
    destruct (session_file m) as [content|] eqn:Hfile.
    - unfold created. rewrite Hfile.
      apply saves_from_file; auto; [congruence | simpl in *; lia].
    - destruct Hsource as [Hw | Hnone]; [|congruence].
      set (m1 := snd (save_sessions t m)).
      assert (Hdir : backup_dir m1 = backup_dir m).
      { unfold m1. rewrite save_sessions_backup_dir. unfold _create_backup.
        now rewrite Hfile. }
      assert (Hfiles : backup_files m1 = backup_files m)
        by (unfold backup_files; now rewrite Hdir).
      change (saves (t :: rest) m) with (saves rest m1).
      unfold created. rewrite Hfile. cbn [tl].
      destruct rest as [|t2 rest2]; [simpl in HN; lia|].
      rewrite <- Hdir.
      apply StronglySorted_inv in Hchr as [Hchr' _].
      apply Forall_inv_tail in Hval.
      apply saves_from_file; auto.
      + unfold m1. now rewrite save_setting.
      + now apply save_first_file.
      + unfold m1. now rewrite save_locked.
      + now rewrite Hdir.
      + intros x t' Hx Ht'. rewrite Hfiles in Hx.
        apply Hbelow; [assumption | now right].
      + simpl in *. lia. }
  destruct Hmain as [Hlist Hframe]. split; [assumption|].
  split; [|assumption].
  rewrite Hlist, length_newest. unfold created. rewrite length_map.
  destruct (session_file m); [lia|].
  destruct readings; simpl in *; lia.
Qed.

Lemma retention_over_older_backups_witness :
  let readings := [noon; after 1 noon; after 2 noon] in
  backup_files (saves readings manager_in_use)
  = [ "sessions_backup_20240517_120001.json";
      "sessions_backup_20240517_120002.json" ]
  /\ length (backup_files (saves readings manager_in_use)) = 2%nat
  /\ PyDict.get "notes.txt" (backup_dir (saves readings manager_in_use))
     = Some [].
Proof.
  intros readings.
  destruct (retention_over_older_backups 2 readings manager_in_use)
    as (Hlist & Hlength & Hframe).
  - lia.
  - reflexivity.
  - left. reflexivity.
  - reflexivity.
  - unfold PyDict.wf, PyDict.keys. simpl.
    repeat constructor; simpl; intuition discriminate.
  - intros x t Hx Ht.
    assert (Hfiles : backup_files manager_in_use
                     = [ "sessions_backup_20240514_090000.json";
                         "sessions_backup_20240515_090000.json";
                         "sessions_backup_20240516_090000.json" ])
      by reflexivity.
    rewrite Hfiles in Hx. unfold readings in Ht. simpl in Hx, Ht.
    repeat match goal with
           | H : _ \/ _ |- _ => destruct H as [H | H]
           | H : False |- _ => contradiction
           end; subst; reflexivity.
  - unfold readings, chronological.
    repeat (constructor; [| repeat (constructor; [vm_compute; reflexivity|])]);
      constructor.
  - unfold readings, Datetime.valid.
    repeat (constructor; [simpl; lia|]). constructor.
  - simpl. lia.
  - split; [exact Hlist|]. split; [exact Hlength|].
    rewrite (Hframe "notes.txt" eq_refl). reflexivity.
Defined.

End RetentionFacts.

(** ** SessionManager: changing and reloading the repository *)

Module RepositoryFacts.
Import Sessions Queries Samples.

Lemma blank_name s :
  PyStr.truthy (PyStr.strip s) = true <-> PyStr.strip s <> "".
Proof.
  destruct (PyStr.strip s); simpl; split; congruence.
Qed.

(** X1. [update_session] replaces the session stored under the name of the
    one it is given: the new one is what [get_session] returns, the other
    sessions and the order of the names stay, and the file holds the new
    mapping when it can be written. With a blank name, or a name that is
    not stored, it raises [ValueError] and changes nothing. *)
Theorem update_session_spec now (S : Session) (m : SessionManager) :
  (PyStr.strip (name S) <> "" ->
   PyDict.contains (name S) (sessions m) = true ->
   let m' := snd (update_session now S m) in
   fst (update_session now S m) = Ok true
   /\ get_session (name S) m' = Some S
   /\ (forall n, n <> name S -> get_session n m' = get_session n m)
   /\ PyDict.keys (sessions m') = PyDict.keys (sessions m)
   /\ (writable m = true -> persisted m'))
  /\ (PyStr.strip (name S) = ""
      \/ PyDict.contains (name S) (sessions m) = false ->
      exists msg, update_session now S m = (Raise (ValueError msg), m)).
Proof.
  unfold update_session, get_session. split.
  - intros Hname Hin. apply blank_name in Hname. rewrite Hname, Hin. simpl.
    rewrite !SessionFacts.sessions_after_save. cbn [sessions with_sessions].
    split; [reflexivity|]. split; [apply get_set_same|].
    split; [intros n Hn; apply get_set_other; congruence|].
    split; [now apply keys_set_present|].
    intro Hw. now apply SessionFacts.save_sessions_persisted.
  - intros [Hname|Hin].
    + rewrite Hname. simpl. eauto.
    + destruct (PyStr.truthy (PyStr.strip (name S))); simpl; eauto.
      rewrite Hin. simpl. eauto.
Qed.

Lemma update_session_witness :
  let m := snd (add_session noon session_web fresh_manager) in
  get_session "web-01" (snd (update_session noon session_web_edited m))
  = Some session_web_edited
  /\ exists msg,
       update_session noon session_web_edited fresh_manager
       = (Raise (ValueError msg), fresh_manager).
Proof.
  intros m. split.
  - apply (proj1 (update_session_spec noon session_web_edited m));
      [discriminate|reflexivity].
  - apply (proj2 (update_session_spec noon session_web_edited fresh_manager)).
    right. reflexivity.
Defined.

(** X2. [delete_session] removes the session of the given name and no
    other: [get_session] no longer finds it, the other sessions stay in
    their order, and the file holds the new mapping when it can be written.
    On a name that is not stored it raises [ValueError] and changes
    nothing. *)
Theorem delete_session_spec now (n : string) (m : SessionManager) :
  (PyDict.contains n (sessions m) = true ->
   let m' := snd (delete_session now n m) in
   fst (delete_session now n m) = Ok true
   /\ get_session n m' = None
   /\ (forall n', n' <> n -> get_session n' m' = get_session n' m)
   /\ PyDict.keys (sessions m')
      = filter (fun k => negb (String.eqb n k)) (PyDict.keys (sessions m))
   /\ (writable m = true -> persisted m'))
  /\ (PyDict.contains n (sessions m) = false ->
      exists msg, delete_session now n m = (Raise (ValueError msg), m)).
Proof.
  unfold delete_session, get_session. split.
  - intros Hin. rewrite Hin. simpl.
    rewrite !SessionFacts.sessions_after_save. cbn [sessions with_sessions].
    split; [reflexivity|]. split; [apply get_pop_same|].
    split; [intros n' Hn; apply get_pop_other; congruence|].
    split; [apply BackupFacts.keys_pop|].
    intro Hw. now apply SessionFacts.save_sessions_persisted.
  - intros Hin. rewrite Hin. simpl. eauto.
Qed.

Lemma delete_session_witness :
  let m := snd (add_session noon session_web fresh_manager) in
  get_session "web-01" (snd (delete_session noon "web-01" m)) = None
  /\ exists msg,
       delete_session noon "web-01" fresh_manager
       = (Raise (ValueError msg), fresh_manager).
Proof.
  intros m. split.
  - apply (proj1 (delete_session_spec noon "web-01" m)). reflexivity.
  - apply (proj2 (delete_session_spec noon "web-01" fresh_manager)).
    reflexivity.
Defined.

(** X3. Adding a session under a new name and deleting it again gives back
    the mapping as it was, every other session in its place. *)
Theorem add_then_delete t1 t2 (S : Session) (m : SessionManager) :
  PyStr.strip (name S) <> "" ->
  PyDict.contains (name S) (sessions m) = false ->
  let m' := snd (delete_session t2 (name S) (snd (add_session t1 S m))) in
  fst (delete_session t2 (name S) (snd (add_session t1 S m))) = Ok true
  /\ sessions m' = sessions m.
Proof.
  intros Hname Hin. apply blank_name in Hname.
  unfold add_session. rewrite Hname, Hin. cbn [negb snd].
  unfold delete_session.
  rewrite !SessionFacts.sessions_after_save. cbn [sessions with_sessions].
  unfold PyDict.contains at 1 2. rewrite get_set_same. cbn [negb fst snd].
  rewrite !SessionFacts.sessions_after_save. cbn [sessions with_sessions].
  split; [reflexivity|]. now apply pop_set_fresh.
Qed.

Lemma add_then_delete_witness :
  fst (delete_session (after 1 noon) "web-01"
         (snd (add_session noon session_web fresh_manager)))
  = Ok true
  /\ sessions (snd (delete_session (after 1 noon) "web-01"
                      (snd (add_session noon session_web fresh_manager))))
     = sessions fresh_manager.
Proof.
  apply (add_then_delete noon (after 1 noon) session_web fresh_manager);
    [discriminate|reflexivity].
Defined.

(** *** Restarting *)

Lemma reachable_wf m : reachable m -> PyDict.wf (sessions m).
Proof.
  induction 1 as [cfg file dir w lk m Hinit
                 |now S m Hr IH|now S m Hr IH|now n m Hr IH
                 |now now' n m Hr IH].
  - unfold init in Hinit.
    destruct (Config.get cfg "general" "max_backups" (Config.VInt 5));
      [|discriminate].
    injection Hinit as <-. unfold _load_sessions. cbn [session_file].
    destruct file as [data|]; cbn [sessions with_sessions]; [|constructor].
    assert (G : forall acc : PyDict.t Session, PyDict.wf acc ->
              PyDict.wf (fold_left
                           (fun acc session =>
                              PyDict.set (name session) session acc)
                           data acc)).
    { induction data as [|s data IHd]; simpl; auto.
      intros acc Hacc. apply IHd. now apply wf_set. }
    apply G. constructor.
  - unfold add_session.
    destruct (negb _); [exact IH|].
    destruct (PyDict.contains _ _); [exact IH|].
    cbn [snd]. rewrite SessionFacts.sessions_after_save.
    cbn [sessions with_sessions]. now apply wf_set.
  - unfold update_session.
    destruct (negb _); [exact IH|].
    destruct (negb (PyDict.contains _ _)); [exact IH|].
    cbn [snd]. rewrite SessionFacts.sessions_after_save.
    cbn [sessions with_sessions]. now apply wf_set.
  - unfold delete_session.
    destruct (negb _); [exact IH|].
    cbn [snd]. rewrite SessionFacts.sessions_after_save.
    cbn [sessions with_sessions]. now apply wf_pop.
  - unfold update_connection_stats.
    destruct (PyDict.get n (sessions m)); [|exact IH].
    rewrite SessionFacts.sessions_after_save.
    cbn [sessions with_sessions]. now apply wf_set.
Qed.

(** The configuration of a repository that was built answers the question
    about [max_backups]: [__init__] asked it. *)
Lemma reachable_setting m :
  reachable m -> exists v, max_backups_setting m = Ok v.
Proof.
  unfold max_backups_setting.
  induction 1 as [cfg file dir w lk m Hinit
                 |now S m Hr IH|now S m Hr IH|now n m Hr IH
                 |now now' n m Hr IH].
  - unfold init in Hinit.
    destruct (Config.get cfg "general" "max_backups" (Config.VInt 5)) eqn:E;
      [|discriminate].
    injection Hinit as <-. unfold _load_sessions. cbn [session_file].
    destruct file; cbn [config with_sessions]; eauto.
  - unfold add_session.
    destruct (negb _); [exact IH|].
    destruct (PyDict.contains _ _); [exact IH|].
    cbn [snd].
    destruct (SessionFacts.save_sessions_frame now
                (with_sessions m (PyDict.set (name S) S (sessions m))))
      as [-> _]. exact IH.
  - unfold update_session.
    destruct (negb _); [exact IH|].
    destruct (negb (PyDict.contains _ _)); [exact IH|].
    cbn [snd].
    destruct (SessionFacts.save_sessions_frame now
                (with_sessions m (PyDict.set (name S) S (sessions m))))
      as [-> _]. exact IH.
  - unfold delete_session.
    destruct (negb _); [exact IH|].
    cbn [snd].
    destruct (SessionFacts.save_sessions_frame now
                (with_sessions m (PyDict.pop n (sessions m))))
      as [-> _]. exact IH.
  - unfold update_connection_stats.
    destruct (PyDict.get n (sessions m)) as [s|]; [|exact IH].
    destruct (SessionFacts.save_sessions_frame now'
                (with_sessions m
                   (PyDict.set n (touch (Datetime.isoformat now) s)
                      (sessions m))))
      as [-> _]. exact IH.
Qed.

(** X4. What a save writes is what a restart reads: after [save_sessions]
    on a repository whose file can be written, [__init__] on the same
    configuration and files builds the very same repository, every session
    under its name and in the same order. *)
Theorem restart_restores now (m : SessionManager) :
  reachable m -> writable m = true ->
  let m' := snd (save_sessions now m) in
  init (config m') (session_file m') (backup_dir m') (writable m') (locked m')
  = Ok m'.
Proof.
  intros Hr Hw m'.
  destruct (reachable_setting m Hr) as [v Hv].
  pose proof (reachable_wf m Hr) as Hwf.
  pose proof (SessionFacts.reachable_keyed m Hr) as Hk.
  pose proof (SessionFacts.save_sessions_persisted now m Hw) as Hp.
  destruct (SessionFacts.save_sessions_frame now m) as (Hc & Hs & _).
  fold m' in Hp, Hc, Hs. unfold persisted in Hp.
  unfold max_backups_setting in Hv. rewrite <- Hc in Hv.
  rewrite <- Hs in Hwf, Hk.
  clearbody m'. destruct m' as [c s f d w l].
  cbn [sessions session_file config backup_dir writable locked] in *.
  unfold init. rewrite Hv. f_equal.
  unfold _load_sessions. cbn [session_file]. rewrite Hp.
  unfold with_sessions.
  cbn [sessions session_file config backup_dir writable locked].
  now rewrite (load_own_keys name s Hwf Hk []).
Qed.

Lemma restart_restores_witness :
  let m := snd (add_session noon session_web fresh_manager) in
  let m' := snd (save_sessions (after 1 noon) m) in
  init (config m') (session_file m') (backup_dir m') (writable m') (locked m')
  = Ok m'.
Proof.
  intros m.
  apply (restart_restores (after 1 noon) m).
  - apply reach_add.
    apply (reach_init Config.defaults None [] true [] fresh_manager).
    reflexivity.
  - reflexivity.
Defined.

End RepositoryFacts.

(** ** SessionManager: groups, tags and search *)

Module QueryFacts.
Import Sessions Queries Samples OrderFacts.

Lemma named_group_iff s : named_group s = true <-> PyStr.strip (group s) <> "".
Proof.
  unfold named_group. rewrite andb_true_iff, RepositoryFacts.blank_name.
  split; [tauto|]. intro H. split; auto.
  destruct (group s); [contradiction|reflexivity].
Qed.

Lemma in_sorted_set x l : In x (sorted (set_of l)) <-> In x l.
Proof.
  unfold set_of. rewrite <- (nodup_In string_dec l x). split; intro H.
  - eapply Permutation_in; [apply sorted_perm|exact H].
  - eapply Permutation_in; [symmetry; apply sorted_perm|exact H].
Qed.

Lemma in_get_groups g m :
  In g (get_groups m)
  <-> PyStr.strip g <> ""
      /\ exists s, In s (get_all_sessions m) /\ group s = g.
Proof.
  unfold get_groups, get_all_sessions.
  rewrite in_sorted_set, in_map_iff. split.
  - intros (s & <- & Hs). apply filter_In in Hs. destruct Hs as [Hs Hn].
    apply named_group_iff in Hn. eauto.
  - intros (Hg & s & Hs & <-). exists s. split; auto.
    apply filter_In. split; auto. now apply named_group_iff.
Qed.

(** X5. [get_groups] lists, in strictly increasing order and so each one
    once, exactly the group names that are not blank and that some session
    carries; the order in which the [set] hands its elements to [sorted]
    does not matter. *)
Theorem get_groups_spec (m : SessionManager) :
  ascending (get_groups m)
  /\ (forall g, In g (get_groups m)
                <-> PyStr.strip g <> ""
                    /\ exists s, In s (get_all_sessions m) /\ group s = g)
  /\ (forall order,
        Permutation
          (set_of (map group (filter named_group (get_all_sessions m))))
          order ->
        sorted order = get_groups m).
Proof.
  split; [|split].
  - unfold get_groups. apply sorted_is_ascending. apply NoDup_nodup.
  - intro g. apply in_get_groups.
  - intros order Hp. unfold get_groups, get_all_sessions in *.
    apply sorted_any_order; auto. apply NoDup_nodup.
Qed.

(** X6. [get_tags] lists, in strictly increasing order and so each one
    once, exactly the tags that some session carries, whatever the order
    the [set] is iterated in. *)
Theorem get_tags_spec (m : SessionManager) :
  ascending (get_tags m)
  /\ (forall t, In t (get_tags m)
                <-> exists s, In s (get_all_sessions m) /\ In t (tags s))
  /\ (forall order,
        Permutation (set_of (flat_map tags (get_all_sessions m))) order ->
        sorted order = get_tags m).
Proof.
  unfold get_tags, get_all_sessions. split; [|split].
  - apply sorted_is_ascending. apply NoDup_nodup.
  - intro t. rewrite in_sorted_set, in_flat_map. tauto.
  - intros order Hp. apply sorted_any_order; auto. apply NoDup_nodup.
Qed.

(** *** Search *)

Lemma isspace_lower_checked :
  forallb (fun i => Bool.eqb (PyStr.isspace (PyStr.lower_char (ascii_of_nat i)))
                             (PyStr.isspace (ascii_of_nat i)))
          (seq 0 256) = true.
Proof. vm_compute. reflexivity. Qed.

Lemma isspace_lower c : PyStr.isspace (PyStr.lower_char c) = PyStr.isspace c.
Proof.
  pose proof isspace_lower_checked as H. rewrite forallb_forall in H.
  specialize (H (nat_of_ascii c)).
  rewrite ascii_nat_embedding in H. apply Bool.eqb_prop. apply H.
  apply in_seq. pose proof (nat_ascii_bounded c). lia.
Qed.

Lemma lstrip_lower s :
  PyStr.lstrip (PyStr.lower s) = PyStr.lower (PyStr.lstrip s).
Proof.
  induction s as [|c r IH]; simpl; auto.
  rewrite isspace_lower. destruct (PyStr.isspace c); auto.
Qed.

Lemma rstrip_lower s :
  PyStr.rstrip (PyStr.lower s) = PyStr.lower (PyStr.rstrip s).
Proof.
  induction s as [|c r IH]; simpl; auto.
  rewrite IH, isspace_lower.
  destruct (PyStr.rstrip r); simpl; auto.
  destruct (PyStr.isspace c); auto.
Qed.

Lemma strip_lower s : PyStr.strip (PyStr.lower s) = PyStr.lower (PyStr.strip s).
Proof. unfold PyStr.strip. now rewrite lstrip_lower, rstrip_lower. Qed.

Lemma truthy_lower s : PyStr.truthy (PyStr.lower s) = PyStr.truthy s.
Proof. now destruct s. Qed.

(** The test [search_term and search_term.strip()] asks whether the term
    that is searched for, [search_term.lower().strip()], is empty. *)
Lemma searching_term q :
  given (Some q) && PyStr.truthy (PyStr.strip (text_of (Some q)))
  = PyStr.truthy (PyStr.strip (PyStr.lower q)).
Proof.
  simpl. rewrite strip_lower, truthy_lower.
  destruct q; reflexivity.
Qed.

(** X7. [filter_sessions] searches without regard to the case of the term
    or to the blanks around it: two terms with the same lower-case,
    stripped form select the same sessions, in the same order. *)
Theorem search_ignores_case group tag (a b : string) (m : SessionManager) :
  PyStr.strip (PyStr.lower a) = PyStr.strip (PyStr.lower b) ->
  filter_sessions group tag (Some a) m = filter_sessions group tag (Some b) m.
Proof.
  intro H. unfold filter_sessions. rewrite !searching_term.
  cbn [text_of]. now rewrite H.
Qed.

Lemma search_ignores_case_witness :
  let m := snd (add_session noon session_web fresh_manager) in
  filter_sessions None None (Some "  WEB ") m
  = filter_sessions None None (Some "web") m.
Proof.
  intro m. apply (search_ignores_case None None "  WEB " "web" m).
  reflexivity.
Defined.

(** X8. The groups [get_groups] lists are the non-blank names for which
    [filter_sessions] by group finds a session. *)
Theorem group_has_sessions (g : string) (m : SessionManager) :
  In g (get_groups m)
  <-> PyStr.strip g <> "" /\ filter_sessions (Some g) None None m <> [].
Proof.
  rewrite in_get_groups.
  unfold filter_sessions, get_all_sessions.
  cbn [given text_of andb].
  split; intros [Hg H]; split; auto.
  - destruct H as (s & Hs & Hgs).
    assert (Ht : PyStr.truthy g = true)
      by (destruct g; [contradiction|reflexivity]).
    rewrite Ht. intro E.
    assert (Hin : In s (filter (fun s => String.eqb (group s) g)
                               (PyDict.values (sessions m)))).
    { apply filter_In. split; auto. now apply String.eqb_eq. }
    rewrite E in Hin. destruct Hin.
  - assert (Ht : PyStr.truthy g = true)
      by (destruct g; [contradiction|reflexivity]).
    rewrite Ht in H.
    destruct (filter _ _) as [|s l] eqn:E; [contradiction|].
    assert (Hin : In s (s :: l)) by now left.
    rewrite <- E in Hin. apply filter_In in Hin. destruct Hin as [Hin Hg'].
    apply String.eqb_eq in Hg'. eauto.
Qed.

End QueryFacts.

(** ** ConfigManager: changing a setting and starting again *)

Module SettingsFacts.
Import Config.

Lemma get_section config section sec key default :
  PyDict.get section config = Some (VDict sec) ->
  get config section key default
  = Ok (match PyDict.get key sec with Some v => v | None => default end).
Proof.
  unfold get. intros ->. now destruct (PyDict.get key sec).
Qed.

Lemma get_no_section config section key default :
  PyDict.get section config = None ->
  get config section key default = Ok default.
Proof. unfold get. now intros ->. Qed.

(** X9. [set] stores the value where [get] finds it, creating the section
    when there is none, and leaves every other setting as [get] saw it
    before. Under a section name that holds something else than a mapping
    it raises [TypeError]. *)
Theorem set_spec (config : dict) (section key : string) (v : value) :
  (section_free config section ->
   exists config',
     set config section key v = Ok config'
     /\ (forall default, get config' section key default = Ok v)
     /\ (forall s k default,
           s <> section \/ k <> key ->
           get config' s k default = get config s k default))
  /\ (~ section_free config section ->
      exists msg, set config section key v = Raise (TypeError msg)).
Proof.
  unfold section_free, set, PyDict.contains. split.
  - intro Hfree.
    destruct (PyDict.get section config) as [x|] eqn:E.
    + destruct (Hfree x eq_refl) as [sec ->]. rewrite E.
      eexists. split; [reflexivity|]. split.
      * intro default. erewrite get_section by apply get_set_same.
        now rewrite get_set_same.
      * intros s k default [Hs|Hk].
        -- unfold get. rewrite get_set_other by congruence. reflexivity.
        -- destruct (String.eqb s section) eqn:Es.
           ++ apply String.eqb_eq in Es. subst s.
              erewrite get_section by apply get_set_same.
              erewrite get_section by exact E.
              rewrite get_set_other by congruence. reflexivity.
           ++ apply String.eqb_neq in Es.
              unfold get. rewrite get_set_other by congruence.
              reflexivity.
    + rewrite get_set_same.
      eexists. split; [reflexivity|]. split.
      * intro default. erewrite get_section by apply get_set_same.
        now rewrite get_set_same.
      * intros s k default [Hs|Hk].
        -- unfold get. rewrite !get_set_other by congruence. reflexivity.
        -- destruct (String.eqb s section) eqn:Es.
           ++ apply String.eqb_eq in Es. subst s.
              erewrite get_section by apply get_set_same.
              rewrite get_no_section by exact E.
              simpl. destruct (String.eqb key k) eqn:Ek.
              ** apply String.eqb_eq in Ek. congruence.
              ** rewrite String.eqb_sym, Ek. reflexivity.
           ++ apply String.eqb_neq in Es.
              unfold get. rewrite !get_set_other by congruence.
              reflexivity.
  - intro Hn.
    destruct (PyDict.get section config) as [x|] eqn:E.
    + rewrite E. destruct x; eauto.
      exfalso. apply Hn. intros x [= <-]. eauto.
    + exfalso. apply Hn. intros x [=].
Qed.

Lemma set_spec_witness :
  (exists config',
     set defaults "general" "max_backups" (VInt 7) = Ok config'
     /\ (forall default,
           get config' "general" "max_backups" default = Ok (VInt 7))
     /\ (forall s k default,
           s <> "general" \/ k <> "max_backups" ->
           get config' s k default = get defaults s k default))
  /\ exists msg,
       set [("general", VStr "x")] "general" "max_backups" (VInt 7)
       = Raise (TypeError msg).
Proof.
  split.
  - apply (proj1 (set_spec defaults "general" "max_backups" (VInt 7))).
    intros x. simpl. intros [= <-]. eauto.
  - apply (proj2 (set_spec [("general", VStr "x")] "general"
                           "max_backups" (VInt 7))).
    intro H. destruct (H (VStr "x") eq_refl) as [sec Hsec].
    discriminate.
Defined.

(** No default setting is itself a mapping. *)
Lemma default_settings_flat s sub k x :
  PyDict.get s defaults = Some (VDict sub) ->
  PyDict.get k sub = Some x ->
  forall d, x <> VDict d.
Proof.
  unfold defaults. cbn [PyDict.get].
  repeat match goal with
         | |- context [String.eqb s ?c] => destruct (String.eqb s c)
         end;
    intros [= <-]; cbn [PyDict.get];
    repeat match goal with
           | |- context [String.eqb k ?c] => destruct (String.eqb k c)
           end;
    intros [= <-]; discriminate.
Qed.

(** X10. A setting survives a restart: after [set] and a [save] that
    succeeds, a new [ConfigManager] on the same file, which starts from the
    defaults and merges the file over them, answers [get] with the value
    that was set. *)
Theorem setting_survives_restart (config : dict) (section key : string)
  (v : value) :
  well_keyed config -> section_free config section ->
  exists config',
    set config section key v = Ok config'
    /\ forall file default,
         get (init (snd (save config' true file))) section key default = Ok v.
Proof.
  intros [Hwf Hsec] Hfree.
  assert (Hset : exists c1 sec0,
             PyDict.wf c1 /\ PyDict.wf sec0
             /\ set config section key v
                = Ok (PyDict.set section
                        (VDict (PyDict.set key v sec0)) c1)).
  { unfold set, PyDict.contains.
    destruct (PyDict.get section config) as [x|] eqn:E.
    - destruct (Hfree x E) as [sec ->]. rewrite E.
      exists config, sec. split; [auto|]. split; [eauto|reflexivity].
    - rewrite get_set_same.
      exists (PyDict.set section (VDict []) config), [].
      split; [now apply wf_set|]. split; [constructor|reflexivity]. }
  destruct Hset as (c1 & sec0 & Hc1 & Hs0 & ->).
  eexists. split; [reflexivity|]. intros file default.
  cbn [save snd]. unfold init, load.
  set (src := PyDict.set key v sec0).
  assert (Hsrc : PyDict.wf src) by now apply wf_set.
  assert (Hk : PyDict.get key src = Some v) by apply get_set_same.
  pose proof (ConfigFacts.merge_lookup
                (PyDict.set section (VDict src) c1)
                (wf_set _ _ _ Hc1) defaults section) as L.
  rewrite get_set_same in L.
  destruct (PyDict.get section defaults) as [[| | | | | |sub]|] eqn:D;
    try (erewrite get_section by exact L; now rewrite Hk).
  erewrite get_section by exact L.
  rewrite (ConfigFacts.merge_lookup src Hsrc sub key), Hk.
  destruct (PyDict.get key sub) as [x|] eqn:Ex; [|reflexivity].
  pose proof (default_settings_flat _ _ _ _ D Ex) as Hflat.
  destruct x; try reflexivity. destruct (Hflat d eq_refl).
Qed.

Lemma setting_survives_restart_witness :
  exists config',
    set defaults "general" "max_backups" (VInt 7) = Ok config'
    /\ forall file default,
         get (init (snd (save config' true file)))
             "general" "max_backups" default
         = Ok (VInt 7).
Proof.
  apply (setting_survives_restart defaults "general" "max_backups" (VInt 7)).
  - split.
    + unfold PyDict.wf. cbn. repeat constructor; cbn; intuition discriminate.
    + intros s sec. unfold defaults. cbn [PyDict.get].
      repeat match goal with
             | |- context [String.eqb s ?c] => destruct (String.eqb s c)
             end;
        intros [= <-]; unfold PyDict.wf; cbn;
        repeat constructor; cbn; intuition discriminate.
  - intros x. cbn. intros [= <-]. eauto.
Defined.

End SettingsFacts.

(** ** Backup names follow the clock *)

Module BackupNameFacts.
Import Samples.

(** X11. The names [_create_backup] gives to backups compare as the clock
    readings they are made from, at the resolution of one second: a later
    second gives a greater name, which is why [sorted] lists the backups
    oldest first, and two saves within one second give the same name, so
    the second backup replaces the first. *)
Theorem backup_names_follow_time (t1 t2 : Datetime.t) :
  Datetime.valid t1 -> Datetime.valid t2 ->
  String.compare (Sessions.backup_name t1) (Sessions.backup_name t2)
  = (Datetime.seconds_key t1 ?= Datetime.seconds_key t2).
Proof.
  intros V1 V2. unfold Sessions.backup_name.
  rewrite NameOrder.compare_app_prefix, NameOrder.compare_app by reflexivity.
  rewrite (NameOrder.compare_stamp _ _ V1 V2).
  destruct (Datetime.seconds_key t1 ?= Datetime.seconds_key t2); reflexivity.
Qed.

Lemma backup_names_follow_time_witness :
  String.compare (Sessions.backup_name noon)
                 (Sessions.backup_name (after 1 noon))
  = Lt.
Proof.
  apply (backup_names_follow_time noon (after 1 noon));
    unfold Datetime.valid; cbn; lia.
Defined.

End BackupNameFacts.


(** ** IPAM: the states of the inventory *)

Module InventoryFacts.
Import Ipaddress Ipam IpamStore Samples.

Section WithIpv6.

Context {ipv6 : Ipv6Text}.

Lemma new_subnet_inv c n d s :
  new_subnet c n d = Ok s ->
  exists net, ip_network c = Some net /\ s = mkSubnet c n d net.
Proof.
  unfold new_subnet. destruct (ip_network c) as [net|]; [|discriminate].
  intros [= <-]. eauto.
Qed.

Lemma new_subnet_own c n d s :
  new_subnet c n d = Ok s ->
  cidr s = c
  /\ new_subnet (cidr s) (subnet_name s) (subnet_description s) = Ok s.
Proof.
  intro H. destruct (new_subnet_inv _ _ _ _ H) as (net & Hnet & ->).
  cbn. split; [reflexivity|]. unfold new_subnet. now rewrite Hnet.
Qed.

Lemma consistent_data m e s :
  PyDict.wf e -> PyDict.wf s -> entries_keyed e -> subnets_keyed s ->
  consistent (save_data (with_data m e s)).
Proof. intros. repeat split; assumption. Qed.

Lemma consistent_save m : consistent m -> consistent (save_data m).
Proof. intros (? & ? & ? & ?). repeat split; assumption. Qed.

Lemma keyed_get (d : PyDict.t IPAMEntry) k e :
  entries_keyed d -> PyDict.get k d = Some e -> ip e = k.
Proof.
  intros Hk Hg. apply get_In in Hg.
  unfold entries_keyed in Hk. rewrite Forall_forall in Hk.
  exact (Hk _ Hg).
Qed.

Lemma subnet_get (d : PyDict.t Subnet) k s :
  subnets_keyed d -> PyDict.get k d = Some s ->
  new_subnet k (subnet_name s) (subnet_description s) = Ok s.
Proof.
  intros Hk Hg. apply get_In in Hg.
  unfold subnets_keyed in Hk. rewrite Forall_forall in Hk.
  exact (Hk _ Hg).
Qed.

Lemma consistent_add_subnet c n d s m :
  new_subnet c n d = Ok s -> consistent m -> consistent (snd (add_subnet s m)).
Proof.
  intros Hs (He & Hsn & Hek & Hsk). unfold add_subnet.
  destruct (PyDict.contains (cidr s) (subnets m)); [now repeat split|].
  cbn [snd]. apply consistent_data; auto.
  - now apply wf_set.
  - apply Forall_set; auto. cbn [fst snd].
    destruct (new_subnet_own _ _ _ _ Hs) as [_ H]. exact H.
Qed.

Lemma consistent_remove_subnet c m :
  consistent m -> consistent (snd (remove_subnet c m)).
Proof.
  intros (He & Hsn & Hek & Hsk). unfold remove_subnet.
  destruct (negb _); [now repeat split|].
  cbn [snd]. apply consistent_data.
  - apply (pops_preserve (@PyDict.wf IPAMEntry)); auto.
    intros; now apply wf_pop.
  - now apply wf_pop.
  - apply (pops_preserve entries_keyed); auto.
    intros; now apply Forall_pop.
  - now apply Forall_pop.
Qed.

Lemma consistent_add_ip_entry e m :
  consistent m -> consistent (snd (add_ip_entry e m)).
Proof.
  intros (He & Hsn & Hek & Hsk). unfold add_ip_entry. cbn [snd].
  apply consistent_data; auto.
  - now apply wf_set.
  - now apply Forall_set.
Qed.

Lemma consistent_remove_ip_entry a m :
  consistent m -> consistent (snd (remove_ip_entry a m)).
Proof.
  intros (He & Hsn & Hek & Hsk). unfold remove_ip_entry.
  destruct (negb _); [now repeat split|].
  cbn [snd]. apply consistent_data; auto.
  - now apply wf_pop.
  - now apply Forall_pop.
Qed.

Lemma ping_host_keyed c r (d : PyDict.t IPAMEntry) :
  PyDict.wf d /\ entries_keyed d ->
  PyDict.wf (IpamScan.ping_host c r d)
  /\ entries_keyed (IpamScan.ping_host c r d).
Proof.
  intros [Hwf Hk]. unfold IpamScan.ping_host.
  destruct (PyDict.get (IpamScan.reply_ip r) d) as [e|] eqn:E.
  - split; [now apply wf_set|]. apply Forall_set; auto.
    cbn [fst snd ip]. eapply keyed_get; eauto.
  - destruct (IpamScan.reply_lookup r); auto;
      (split; [now apply wf_set|]; apply Forall_set; auto).
Qed.

Lemma consistent_scan c replies m :
  consistent m -> consistent (snd (IpamScan.scan_subnet c replies m)).
Proof.
  intros (He & Hsn & Hek & Hsk). unfold IpamScan.scan_subnet.
  destruct (negb _); [now repeat split|].
  cbn [snd].
  assert (H : PyDict.wf (fold_left (fun e r => IpamScan.ping_host c r e)
                                   replies (entries m))
              /\ entries_keyed (fold_left
                                  (fun e r => IpamScan.ping_host c r e)
                                  replies (entries m))).
  { generalize (entries m) (conj He Hek).
    induction replies as [|r replies IH]; simpl; auto.
    intros d Hd. apply IH. now apply ping_host_keyed. }
  destruct H. now apply consistent_data.
Qed.

Lemma consistent_import_row r m :
  consistent m -> consistent (snd (import_row r m)).
Proof.
  intro H. unfold import_row.
  destruct (has_field r "cidr").
  - destruct (new_subnet _ _ _) as [s|e] eqn:Es; [|exact H].
    pose proof (consistent_add_subnet _ _ _ _ m Es H) as H'.
    destruct (add_subnet s m) as [added m']. exact H'.
  - destruct (has_field r "ip"); [|exact H].
    match goal with
    | |- context [add_ip_entry ?e m] =>
        pose proof (consistent_add_ip_entry e m H) as H';
        destruct (add_ip_entry e m) as [added m']
    end.
    exact H'.
Qed.

Lemma consistent_import f : forall m a s e,
  consistent m -> consistent (snd (import_rows f m a s e)).
Proof.
  induction f as [|r rest IH|err]; intros m a s e H; simpl; auto.
  pose proof (consistent_import_row r m H) as H'.
  destruct (import_row r m) as [outcome m']. cbn [snd] in H'.
  destruct outcome; now apply IH.
Qed.

Lemma consistent_edit_subnet c n d m :
  consistent m -> consistent (IpamUi._edit_subnet c n d m).
Proof.
  intros (He & Hsn & Hek & Hsk). unfold IpamUi._edit_subnet.
  destruct (PyDict.get c (subnets m)) as [s|] eqn:E; [|now repeat split].
  apply consistent_data; auto.
  - now apply wf_set.
  - apply Forall_set; auto. cbn [fst snd subnet_name subnet_description].
    pose proof (subnet_get _ _ _ Hsk E) as Hs.
    destruct (new_subnet_inv _ _ _ _ Hs) as (net & Hnet & Heq).
    rewrite Heq. cbn [cidr network]. unfold new_subnet. now rewrite Hnet.
Qed.

Lemma consistent_edit_ip_entry a h d st sn m :
  consistent m -> consistent (IpamUi._edit_ip_entry a h d st sn m).
Proof.
  intros (He & Hsn & Hek & Hsk). unfold IpamUi._edit_ip_entry.
  destruct (PyDict.get a (entries m)) as [e|] eqn:E; [|now repeat split].
  apply consistent_data; auto.
  - now apply wf_set.
  - apply Forall_set; auto. cbn [fst snd ip]. eapply keyed_get; eauto.
Qed.

Lemma consistent_link session m :
  consistent m -> consistent (IpamUi.add_session_to_ipam session m).
Proof.
  intros H. unfold IpamUi.add_session_to_ipam.
  destruct (negb _); [exact H|].
  destruct (ip_address _); [|exact H].
  destruct (PyDict.get _ _) as [e|] eqn:E.
  - destruct H as (He & Hsn & Hek & Hsk).
    apply consistent_data; auto.
    + now apply wf_set.
    + apply Forall_set; auto. cbn [fst snd IpamUi.link_entry ip].
      eapply keyed_get; eauto.
  - now apply consistent_add_ip_entry.
Qed.

Lemma consistent_relink session old_host m :
  consistent m -> consistent (IpamUi.update_session_in_ipam session old_host m).
Proof.
  intros H. unfold IpamUi.update_session_in_ipam.
  set (old := match old_host with Some h => h | None => "" end).
  cbv zeta.
  match goal with
  | |- consistent (if _ then _ else ?M) => assert (H' : consistent M)
  end.
  { destruct (PyStr.truthy old); [|exact H].
    destruct (PyDict.get old (entries m)) as [e|] eqn:E; [|exact H].
    destruct (text_eqb _ _); [|exact H].
    destruct (_ && _); [now apply consistent_remove_ip_entry|].
    destruct (negb _); [|exact H].
    destruct H as (He & Hsn & Hek & Hsk).
    apply consistent_data; auto.
    - now apply wf_set.
    - apply Forall_set; auto. cbn [fst snd IpamUi.unlink_entry ip].
      eapply keyed_get; eauto. }
  destruct (PyStr.truthy (Sessions.host session) && (_ || _)); [|exact H'].
  now apply consistent_link.
Qed.

Lemma load_subnets_consistent data : forall d,
  PyDict.wf d -> subnets_keyed d ->
  PyDict.wf (load_subnets data d) /\ subnets_keyed (load_subnets data d).
Proof.
  induction data as [|r data IH]; simpl; intros d Hwf Hk; auto.
  destruct (new_subnet _ _ _) as [s|] eqn:Es; auto.
  apply IH.
  - now apply wf_set.
  - apply Forall_set; auto. cbn [fst snd].
    destruct (new_subnet_own _ _ _ _ Es) as [_ Hs]. exact Hs.
Qed.

Lemma load_entries_consistent data : forall d,
  PyDict.wf d -> entries_keyed d ->
  PyDict.wf (load_entries data d) /\ entries_keyed (load_entries data d).
Proof.
  unfold load_entries.
  induction data as [|r data IH]; simpl; intros d Hwf Hk; auto.
  apply IH.
  - now apply wf_set.
  - now apply Forall_set.
Qed.

Lemma consistent_load m : consistent m -> consistent (load_data m).
Proof.
  intros (He & Hsn & Hek & Hsk). unfold load_data.
  assert (H1 : PyDict.wf (match entries_file m with
                          | Some data => load_entries data (entries m)
                          | None => entries m end)
               /\ entries_keyed (match entries_file m with
                          | Some data => load_entries data (entries m)
                          | None => entries m end)).
  { destruct (entries_file m); auto. now apply load_entries_consistent. }
  assert (H2 : PyDict.wf (match subnets_file m with
                          | Some data => load_subnets data (subnets m)
                          | None => subnets m end)
               /\ subnets_keyed (match subnets_file m with
                          | Some data => load_subnets data (subnets m)
                          | None => subnets m end)).
  { destruct (subnets_file m); auto. now apply load_subnets_consistent. }
  destruct H1, H2. repeat split; assumption.
Qed.

Lemma reachable_consistent m : reachable m -> consistent m.
Proof.
  induction 1 as [config home ef sf ew sw m Hinit | | | | | | | | | | | ].
  - unfold init in Hinit.
    destruct (Config.get _ _ _ _) as [[]|]; try discriminate.
    injection Hinit as <-. apply consistent_load.
    repeat split; constructor.
  - now apply consistent_save.
  - eapply consistent_add_subnet; eauto.
  - now apply consistent_remove_subnet.
  - now apply consistent_add_ip_entry.
  - now apply consistent_remove_ip_entry.
  - now apply consistent_scan.
  - now apply consistent_import.
  - now apply consistent_edit_subnet.
  - now apply consistent_edit_ip_entry.
  - now apply consistent_link.
  - now apply consistent_relink.
Qed.

(** X12. In every state the inventory goes through, an entry is stored
    under its own address and a subnet under its own CIDR, with the
    network the library makes of that CIDR. *)
Theorem inventory_keyed (m : IPAMManager) :
  reachable m ->
  (forall a e, get_entry a m = Some e -> ip e = a)
  /\ (forall c s, get_subnet c m = Some s ->
        cidr s = c /\ ip_network c = Some (network s)).
Proof.
  intro Hr. destruct (reachable_consistent m Hr) as (He & Hsn & Hek & Hsk).
  split.
  - intros a e. apply keyed_get; auto.
  - intros c s Hg. pose proof (subnet_get _ _ _ Hsk Hg) as Hs.
    destruct (new_subnet_inv _ _ _ _ Hs) as (net & Hnet & Heq).
    rewrite Heq. cbn [cidr network]. auto.
Qed.

End WithIpv6.

Lemma office_ipam_reachable : reachable (ipv6 := colon_free) office_ipam.
Proof.
  unfold office_ipam. apply reach_add_ip_entry.
  apply (reach_add_subnet "192.168.1.0/24" (Some "office") (Some "")).
  - vm_compute. reflexivity.
  - apply (reach_init Config.defaults "/home/user/.asshm" None None true true).
    reflexivity.
Qed.

Lemma inventory_keyed_witness :
  (forall a e, get_entry a office_ipam = Some e -> ip e = a)
  /\ (forall c s, get_subnet c office_ipam = Some s ->
        cidr s = c
        /\ ip_network (ipv6 := colon_free) c = Some (network s)).
Proof.
  apply (inventory_keyed (ipv6 := colon_free) office_ipam).
  exact office_ipam_reachable.
Defined.

End InventoryFacts.

(** ** The addresses of an IPv4 block *)

Module BlockFacts.
Import Ipaddress.

Lemma netmask_shape p :
  0 <= p <= 32 -> netmask_int V4 p = Z.shiftl (Z.ones p) (32 - p).
Proof.
  intro Hp. unfold netmask_int. cbn [max_prefixlen].
  rewrite Z.shiftl_mul_pow2, Z.ones_equiv by lia.
  replace 32 with (p + (32 - p)) at 1 by lia.
  rewrite Z.pow_add_r by lia. lia.
Qed.

Lemma land_netmask x p :
  0 <= p <= 32 -> 0 <= x < 2 ^ 32 ->
  Z.land x (netmask_int V4 p) = 2 ^ (32 - p) * (x / 2 ^ (32 - p)).
Proof.
  intros Hp Hx. rewrite netmask_shape by exact Hp.
  set (k := 32 - p). assert (Hk : 0 <= k <= 32) by (unfold k; lia).
  rewrite <- (Z.shiftr_div_pow2 x k) by lia.
  rewrite (Z.mul_comm (2 ^ k)).
  rewrite <- (Z.shiftl_mul_pow2 _ k); [|lia].
  apply Z.bits_inj'. intros j Hj.
  rewrite Z.land_spec, !Z.shiftl_spec by lia.
  destruct (Z.ltb_spec j k) as [Hlt|Hge].
  - rewrite (Z.testbit_neg_r (Z.ones p)), (Z.testbit_neg_r (Z.shiftr x k))
      by lia.
    apply andb_false_r.
  - rewrite Z.shiftr_spec by lia. replace (j - k + k) with j by lia.
    destruct (Z.ltb_spec (j - k) p) as [Hin|Hout].
    + rewrite Z.ones_spec_low by lia. apply andb_true_r.
    + rewrite Z.ones_spec_high by lia. rewrite andb_false_r.
      symmetry. apply Z.bits_above_log2; [lia|].
      destruct (Z.eq_dec x 0) as [->|Hne]; [simpl; lia|].
      apply Z.log2_lt_pow2; [lia|].
      apply Z.lt_le_trans with (2 ^ 32); [lia|].
      apply Z.pow_le_mono_r; lia.
Qed.

(** An address of the block of a network made by the parser is in it. *)
Lemma block_contains text n x :
  ipv4_network text = Some n ->
  network_address n <= x < network_address n + num_addresses n ->
  contains (mkAddress V4 x) n = true.
Proof.
  intros Hn Hx.
  pose proof (Ipv4Facts.ipv4_network_block _ _ Hn) as (Hv & Hp & Hfirst & Hlast).
  unfold contains. cbn [address_version address_int]. rewrite Hv.
  cbn [version_eqb andb]. apply Z.eqb_eq.
  unfold num_addresses in *. rewrite Hv in *. cbn [max_prefixlen] in *.
  set (k := 32 - prefixlen n) in *.
  assert (Hpow : 0 < 2 ^ k) by (apply Z.pow_pos_nonneg; unfold k; lia).
  assert (Hx32 : 0 <= x < 2 ^ 32) by lia.
  rewrite land_netmask by assumption. fold k.
  assert (Haligned : network_address n = 2 ^ k * (network_address n / 2 ^ k)).
  { unfold ipv4_network in Hn.
    destruct (split "/" text) as [|addr [|mask [|? ?]]]; try discriminate.
    - destruct (ipv4_int_from_string addr) as [ip|]; [|discriminate].
      injection Hn as <-. cbn [prefixlen network_address] in *.
      unfold k. change (2 ^ (32 - 32)) with 1. rewrite Z.div_1_r. lia.
    - destruct (ipv4_int_from_string addr) as [ip|] eqn:Hip; [|discriminate].
      destruct (make_netmask mask) as [p|] eqn:Hm; [|discriminate].
      injection Hn as <-. cbn [prefixlen network_address] in *.
      apply Ipv4Facts.ipv4_int_range in Hip.
      rewrite land_netmask by assumption. fold k.
      rewrite (Z.mul_comm (2 ^ k) (ip / 2 ^ k)), Z.div_mul by lia. lia. }
  set (q := network_address n / 2 ^ k) in *.
  assert (x / 2 ^ k = q); [|lia].
  symmetry. apply (Z.div_unique x (2 ^ k) q (x - 2 ^ k * q)); lia.
Qed.

End BlockFacts.

(** ** IPAM: the operations of the manager *)

Module InventoryOps.
Import Ipaddress Ipam IpamStore InventoryFacts Samples.

Section WithIpv6.

Context {ipv6 : Ipv6Text}.

Lemma load_subnets_values (d : PyDict.t Subnet) :
  PyDict.wf d -> subnets_keyed d ->
  forall acc,
    (forall k, In k (PyDict.keys d) -> PyDict.contains k acc = false) ->
    load_subnets (PyDict.values d) acc = (acc ++ d)%list.
Proof.
  unfold PyDict.wf, subnets_keyed.
  induction d as [|[k s] d IH]; simpl; intros Hwf Hk acc Hacc.
  - now rewrite app_nil_r.
  - apply NoDup_cons_iff in Hwf. destruct Hwf as [Hn Hwf].
    pose proof (Forall_inv Hk) as Hs. cbn [fst snd] in Hs.
    apply Forall_inv_tail in Hk.
    destruct (new_subnet_own _ _ _ _ Hs) as [Hc Hs'].
    rewrite Hs', Hc, set_fresh by auto.
    rewrite IH; auto.
    + now rewrite <- app_assoc.
    + intros k' Hk'. apply contains_false. apply get_None_keys.
      unfold PyDict.keys. rewrite map_app. simpl. intro Hin.
      apply in_app_or in Hin. destruct Hin as [Hin|[<-|[]]]; [|contradiction].
      specialize (Hacc k' (or_intror Hk')).
      apply contains_false in Hacc. apply get_None_keys in Hacc. auto.
Qed.

(** X13. What [save_data] writes is what a restart reads: when both files
    can be written, [__init__] on the files a save leaves builds the very
    same inventory, entries and subnets in their order, every subnet with
    its network. *)
Theorem inventory_restart (config : Config.dict) (home : string)
  (m : IPAMManager) :
  reachable m ->
  entries_writable m = true -> subnets_writable m = true ->
  (exists dir, Config.get config "general" "data_dir" (Config.VStr home)
               = Ok (Config.VStr dir)) ->
  let m' := save_data m in
  init config home (entries_file m') (subnets_file m')
       (entries_writable m') (subnets_writable m')
  = Ok m'.
Proof.
  intros Hr Hew Hsw [dir Hdir] m'.
  destruct (reachable_consistent m Hr) as (He & Hsn & Hek & Hsk).
  unfold init. rewrite Hdir. f_equal.
  subst m'. unfold save_data, load_data. rewrite Hew, Hsw.
  cbn [entries_file subnets_file entries subnets with_data
       entries_writable subnets_writable].
  unfold load_entries.
  rewrite (load_own_keys ip (entries m) He Hek []) by reflexivity.
  rewrite (load_subnets_values (subnets m) Hsn Hsk []) by reflexivity.
  reflexivity.
Qed.

(** X14. [load_data] stops reading subnets at the first record whose
    [cidr] is no network: the subnets before it are loaded, the ones after
    it are not, whatever they are. *)
Theorem load_stops_at_bad_cidr (good rest : list Subnet) (bad : Subnet)
  (subnets : PyDict.t Subnet) :
  ip_network (cidr bad) = None ->
  load_subnets (good ++ bad :: rest) subnets = load_subnets good subnets.
Proof.
  intro Hbad. revert subnets.
  induction good as [|g good IH]; intro subnets; simpl.
  - unfold new_subnet. now rewrite Hbad.
  - destruct (new_subnet _ _ _); auto.
Qed.

(** X15. [add_subnet] refuses a CIDR that is registered: it answers
    [False] and changes nothing. A new one is stored last, under its CIDR,
    the entries stay, and each file that can be written holds the new
    state. *)
Theorem add_subnet_spec (s : Subnet) (m : IPAMManager) :
  (PyDict.contains (cidr s) (subnets m) = true -> add_subnet s m = (false, m))
  /\ (PyDict.contains (cidr s) (subnets m) = false ->
      let m' := snd (add_subnet s m) in
      fst (add_subnet s m) = true
      /\ get_subnet (cidr s) m' = Some s
      /\ subnets m' = (subnets m ++ [(cidr s, s)])%list
      /\ entries m' = entries m
      /\ (entries_writable m = true ->
          entries_file m' = Some (PyDict.values (entries m')))
      /\ (subnets_writable m = true ->
          subnets_file m' = Some (PyDict.values (subnets m')))).
Proof.
  unfold add_subnet, get_subnet. split; intros H; rewrite H; [reflexivity|].
  cbn [fst snd save_data with_data subnets entries entries_file subnets_file
       entries_writable subnets_writable].
  split; [reflexivity|]. split; [apply get_set_same|].
  split; [now apply set_fresh|]. split; [reflexivity|].
  split; intros ->; reflexivity.
Qed.

(** X16. [add_ip_entry] always answers [True]: it stores the entry under
    its address, replacing in place the entry that was there or going last
    when there was none, and touches no other entry and no subnet. After
    an address that was new, [remove_ip_entry] gives back the entries as
    they were. *)
Theorem ip_entry_upsert (e : IPAMEntry) (m : IPAMManager) :
  let m' := snd (add_ip_entry e m) in
  fst (add_ip_entry e m) = true
  /\ get_entry (ip e) m' = Some e
  /\ (forall a, a <> ip e -> get_entry a m' = get_entry a m)
  /\ (PyDict.contains (ip e) (entries m) = true ->
      PyDict.keys (entries m') = PyDict.keys (entries m))
  /\ (PyDict.contains (ip e) (entries m) = false ->
      entries m' = (entries m ++ [(ip e, e)])%list
      /\ entries (snd (remove_ip_entry (ip e) m')) = entries m)
  /\ subnets m' = subnets m.
Proof.
  unfold add_ip_entry, get_entry.
  cbn [fst snd save_data with_data subnets entries].
  split; [reflexivity|]. split; [apply get_set_same|].
  split; [intros a Ha; apply get_set_other; congruence|].
  split; [apply keys_set_present|]. split; [|reflexivity].
  intro H. split; [now apply set_fresh|].
  unfold remove_ip_entry.
  cbn [fst snd save_data with_data subnets entries].
  unfold PyDict.contains at 1. rewrite get_set_same.
  cbn [negb snd save_data with_data subnets entries].
  now apply pop_set_fresh.
Qed.

(** X17. [remove_ip_entry] answers [False] and changes nothing when the
    address has no entry; otherwise it removes that entry and no other,
    leaves the subnets, and writes the entries file when it can. *)
Theorem remove_ip_entry_spec (a : string) (m : IPAMManager) :
  (PyDict.contains a (entries m) = false -> remove_ip_entry a m = (false, m))
  /\ (PyDict.contains a (entries m) = true ->
      let m' := snd (remove_ip_entry a m) in
      fst (remove_ip_entry a m) = true
      /\ get_entry a m' = None
      /\ (forall b, b <> a -> get_entry b m' = get_entry b m)
      /\ subnets m' = subnets m
      /\ (entries_writable m = true ->
          entries_file m' = Some (PyDict.values (entries m')))).
Proof.
  unfold remove_ip_entry, get_entry. split; intros H; rewrite H;
    [reflexivity|].
  cbn [negb fst snd save_data with_data subnets entries entries_file
       entries_writable].
  split; [reflexivity|]. split; [apply get_pop_same|].
  split; [intros b Hb; apply get_pop_other; congruence|].
  split; [reflexivity|]. intros ->. reflexivity.
Qed.

(** *** Looking an address up *)

Lemma addresses_in v first count h :
  In h (addresses v first count) ->
  address_version h = v /\ first <= address_int h < first + count.
Proof.
  unfold addresses. rewrite in_map_iff. intros (i & <- & Hi).
  apply in_seq in Hi. cbn. split; [reflexivity|lia].
Qed.

Lemma hosts_in_block n h :
  ipv4_block n -> In h (hosts n) ->
  address_version h = V4
  /\ network_address n <= address_int h < network_address n + num_addresses n.
Proof.
  intros (Hv & Hp & Hfirst & Hlast) Hin. unfold hosts, iter in Hin.
  assert (0 < num_addresses n)
    by (unfold num_addresses; apply Z.pow_pos_nonneg;
        rewrite ?Hv; cbn [max_prefixlen]; lia).
  rewrite Hv in Hin.
  destruct (prefixlen n =? 31).
  - apply addresses_in in Hin. intuition lia.
  - destruct (prefixlen n =? 32).
    + destruct Hin as [<-|[]]. cbn. split; [reflexivity|lia].
    + apply addresses_in in Hin. intuition lia.
Qed.

Lemma find_first {A : Type} (f : A -> bool) l x :
  In x l -> f x = true -> exists y, find f l = Some y.
Proof.
  intros Hin Hf. destruct (find f l) as [y|] eqn:E; eauto.
  pose proof (find_none f l E x Hin). congruence.
Qed.

(** X18. [find_subnet_for_ip] finds a subnet for every usable address of
    a registered IPv4 subnet: the text [get_ip_range] lists is read back
    as the address, which lies in the network of that subnet, and the
    subnet that is answered is registered and contains the address. *)
Theorem usable_address_is_found (m : IPAMManager) (c : string) (s : Subnet)
  (a : string) :
  reachable m -> get_subnet c m = Some s ->
  network_version (network s) = V4 -> In a (get_ip_range s) ->
  exists s' addr,
    find_subnet_for_ip a m = Some s'
    /\ In s' (PyDict.values (subnets m))
    /\ ip_address a = Some addr
    /\ contains addr (network s') = true
    /\ contains addr (network s) = true.
Proof.
  intros Hr Hg Hv Hin.
  destruct (reachable_consistent m Hr) as (_ & _ & _ & Hsk).
  unfold get_subnet in Hg.
  pose proof (subnet_get _ _ _ Hsk Hg) as Hs.
  destruct (new_subnet_inv _ _ _ _ Hs) as (net & Hnet & Heq).
  assert (Hn : network s = net) by (rewrite Heq; reflexivity).
  assert (H4 : ipv4_network c = Some net).
  { unfold ip_network in Hnet. destruct (ipv4_network c); [exact Hnet|].
    destruct (ipv6_network c) as [[x p]|]; [|discriminate].
    injection Hnet as <-. rewrite Hn in Hv. discriminate. }
  pose proof (Ipv4Facts.ipv4_network_block _ _ H4) as Hblock.
  unfold get_ip_range in Hin. rewrite Hv, Hn in Hin.
  apply in_map_iff in Hin. destruct Hin as ([v x] & <- & Hh).
  destruct (hosts_in_block _ _ Hblock Hh) as [Hv4 Hx].
  cbn [address_version address_int] in Hv4, Hx. subst v.
  assert (Hparse : ip_address (str (mkAddress V4 x)) = Some (mkAddress V4 x)).
  { unfold str, ip_address. cbn [address_version address_int].
    rewrite Ipv4Facts.ipv4_round_trip; [reflexivity|].
    destruct Hblock as (_ & _ & ? & ?). lia. }
  pose proof (BlockFacts.block_contains _ _ _ H4 Hx) as Hc.
  assert (Hreg : In s (PyDict.values (subnets m))).
  { unfold PyDict.values. apply in_map_iff. exists (c, s).
    split; [reflexivity|]. now apply get_In. }
  destruct (find_first (fun s => contains (mkAddress V4 x) (network s))
                       _ s Hreg) as [s' Hs'].
  { now rewrite Hn. }
  exists s', (mkAddress V4 x).
  unfold find_subnet_for_ip. rewrite Hparse.
  apply find_some in Hs' as Hfound. destruct Hfound as [Hin' Hc'].
  rewrite Hn. auto.
Qed.

End WithIpv6.

Lemma inventory_restart_witness :
  let m' := save_data office_ipam in
  init (ipv6 := colon_free) Config.defaults "/home/user/.asshm"
       (entries_file m') (subnets_file m')
       (entries_writable m') (subnets_writable m')
  = Ok m'.
Proof.
  apply (inventory_restart (ipv6 := colon_free) Config.defaults
                           "/home/user/.asshm" office_ipam).
  - exact office_ipam_reachable.
  - reflexivity.
  - reflexivity.
  - exists "/home/user/.asshm". reflexivity.
Defined.

Lemma load_stops_at_bad_cidr_witness :
  load_subnets (ipv6 := colon_free)
               ([office_subnet] ++ damaged_subnet :: [lab_subnet]) []
  = load_subnets (ipv6 := colon_free) [office_subnet] [].
Proof.
  apply (load_stops_at_bad_cidr (ipv6 := colon_free)
           [office_subnet] [lab_subnet] damaged_subnet []).
  vm_compute. reflexivity.
Defined.

Lemma add_subnet_spec_witness :
  fst (add_subnet office_subnet empty_ipam) = true
  /\ add_subnet office_subnet office_ipam = (false, office_ipam).
Proof.
  split.
  - apply (proj2 (add_subnet_spec office_subnet empty_ipam)). reflexivity.
  - apply (proj1 (add_subnet_spec office_subnet office_ipam)). reflexivity.
Defined.

Lemma remove_ip_entry_spec_witness :
  remove_ip_entry "192.168.1.99" office_ipam = (false, office_ipam)
  /\ get_entry "192.168.1.10" (snd (remove_ip_entry "192.168.1.10" office_ipam))
     = None.
Proof.
  split.
  - apply (proj1 (remove_ip_entry_spec "192.168.1.99" office_ipam)).
    reflexivity.
  - apply (proj2 (remove_ip_entry_spec "192.168.1.10" office_ipam)).
    reflexivity.
Defined.

Lemma usable_address_is_found_witness :
  exists s' addr,
    find_subnet_for_ip (ipv6 := colon_free) "192.168.1.77" office_ipam
    = Some s'
    /\ In s' (PyDict.values (subnets office_ipam))
    /\ ip_address (ipv6 := colon_free) "192.168.1.77" = Some addr
    /\ contains addr (network s') = true
    /\ contains addr (network office_subnet) = true.
Proof.
  apply (usable_address_is_found (ipv6 := colon_free) office_ipam
                                 "192.168.1.0/24" office_subnet "192.168.1.77").
  - exact office_ipam_reachable.
  - reflexivity.
  - reflexivity.
  - vm_compute. do 76 right. left. reflexivity.
Defined.

End InventoryOps.

(** ** IPAM: what a scan records *)

Module ScanRecordFacts.
Import Ipam IpamScan Samples.

Lemma ping_host_other c r (d : PyDict.t IPAMEntry) a :
  a <> reply_ip r -> PyDict.get a (ping_host c r d) = PyDict.get a d.
Proof.
  intro Ha. unfold ping_host.
  destruct (PyDict.get (reply_ip r) d).
  - apply get_set_other. congruence.
  - destruct (reply_lookup r); try reflexivity;
      apply get_set_other; congruence.
Qed.

Lemma pings_known c replies : forall (d : PyDict.t IPAMEntry) a e,
  PyDict.get a d = Some e ->
  exists e',
    PyDict.get a (fold_left (fun e r => ping_host c r e) replies d) = Some e'
    /\ same_record e e'
    /\ (In a (map reply_ip replies) -> status e' = Some "Active")
    /\ (~ In a (map reply_ip replies) -> e' = e).
Proof.
  induction replies as [|r replies IH]; intros d a e Hg; cbn [fold_left map].
  - exists e. unfold same_record. simpl. tauto.
  - destruct (string_dec a (reply_ip r)) as [Ha|Ha].
    + set (e1 := mkEntry (ip e) (subnet e) (hostname e) (description e)
                         (Some "Active") (session_name e)
                         (Some (reply_time r))).
      assert (H1 : PyDict.get a (ping_host c r d) = Some e1).
      { unfold ping_host. rewrite <- Ha, Hg. apply get_set_same. }
      destruct (IH _ _ _ H1) as (e' & Hg' & Hsame & Hin & Hout).
      exists e'. split; [exact Hg'|]. split.
      * unfold same_record in *. cbn in Hsame. exact Hsame.
      * split.
        -- intros _. destruct (in_dec string_dec a (map reply_ip replies))
             as [Hi|Hi]; [auto|]. rewrite (Hout Hi). reflexivity.
        -- intro Hn. exfalso. apply Hn. left. congruence.
    + assert (H1 : PyDict.get a (ping_host c r d) = Some e)
        by (rewrite ping_host_other; auto).
      destruct (IH _ _ _ H1) as (e' & Hg' & Hsame & Hin & Hout).
      exists e'. split; [exact Hg'|]. split; [exact Hsame|]. split.
      * intros [Hi|Hi]; [congruence|auto].
      * intro Hn. apply Hout. intro Hi. apply Hn. now right.
Qed.

Lemma pings_new c replies : forall (d : PyDict.t IPAMEntry) a,
  PyDict.get a d = None ->
  In a (map reply_ip replies) ->
  (forall r, In r replies -> reply_ip r = a -> reply_lookup r <> LookupError) ->
  exists e',
    PyDict.get a (fold_left (fun e r => ping_host c r e) replies d) = Some e'
    /\ ip e' = a /\ subnet e' = Some c /\ status e' = Some "Active"
    /\ session_name e' = Some "".
Proof.
  induction replies as [|r replies IH]; intros d a Hg Hin Hok;
    cbn [fold_left map] in *; [destruct Hin|].
  destruct (string_dec a (reply_ip r)) as [Ha|Ha].
  - assert (H1 : exists e1,
               PyDict.get a (ping_host c r d) = Some e1
               /\ ip e1 = a /\ subnet e1 = Some c
               /\ status e1 = Some "Active" /\ session_name e1 = Some "").
    { unfold ping_host. rewrite <- Ha, Hg.
      pose proof (Hok r (or_introl eq_refl) (eq_sym Ha)) as Hl.
      destruct (reply_lookup r); [| |contradiction];
        eexists; (split; [apply get_set_same|]); cbn; auto. }
    destruct H1 as (e1 & Hg1 & Hip & Hsub & Hst & Hsn).
    destruct (pings_known c replies _ _ _ Hg1)
      as (e' & Hg' & (S1 & S2 & S3 & S4 & S5) & Hi & Ho).
    exists e'. split; [exact Hg'|].
    repeat split; try congruence.
    destruct (in_dec string_dec a (map reply_ip replies)) as [Hin'|Hin'];
      [auto|]. rewrite (Ho Hin'). exact Hst.
  - destruct Hin as [Hin|Hin]; [congruence|].
    apply IH; auto.
    + rewrite ping_host_other; auto.
    + intros r' Hr'. apply Hok. now right.
Qed.

(** X19. What a scan records. For a CIDR that is not registered
    [scan_subnet] answers the empty list and changes nothing. Otherwise it
    answers the addresses that replied and leaves the subnets; an entry
    that existed is still there with its address, subnet, host name,
    description and session, marked [Active] when its address replied and
    unchanged when it did not; an address without entry that replied has
    one afterwards, in the scanned subnet and [Active], unless its reverse
    lookup failed with an error that is not caught; and no entry appears
    for an address that did not reply. *)
Theorem scan_records (c : string) (replies : list reply) (m : IPAMManager) :
  (PyDict.contains c (subnets m) = false -> scan_subnet c replies m = ([], m))
  /\ (PyDict.contains c (subnets m) = true ->
      let m' := snd (scan_subnet c replies m) in
      fst (scan_subnet c replies m) = map reply_ip replies
      /\ subnets m' = subnets m
      /\ (forall a e, get_entry a m = Some e ->
            exists e',
              get_entry a m' = Some e' /\ same_record e e'
              /\ (In a (map reply_ip replies) -> status e' = Some "Active")
              /\ (~ In a (map reply_ip replies) -> e' = e))
      /\ (forall a, get_entry a m = None ->
            In a (map reply_ip replies) ->
            (forall r, In r replies -> reply_ip r = a ->
                       reply_lookup r <> LookupError) ->
            exists e',
              get_entry a m' = Some e'
              /\ ip e' = a /\ subnet e' = Some c
              /\ status e' = Some "Active" /\ session_name e' = Some "")
      /\ (forall a, get_entry a m = None ->
            ~ In a (map reply_ip replies) -> get_entry a m' = None)).
Proof.
  unfold scan_subnet, get_entry. split; intro H; rewrite H; [reflexivity|].
  cbn [negb fst snd save_data with_data subnets entries].
  split; [reflexivity|]. split; [reflexivity|].
  split; [intros a e; apply pings_known|].
  split; [intros a; apply pings_new|].
  intros a Hg Hn. revert Hg Hn. generalize (entries m).
  induction replies as [|r replies IH]; intros d Hg Hn; cbn [fold_left map] in *;
    [exact Hg|].
  apply IH; [|intro Hi; apply Hn; now right].
  rewrite ping_host_other; auto.
  intro E. apply Hn. left. congruence.
Qed.

Lemma scan_records_witness :
  scan_subnet "10.9.0.0/16" [] office_ipam = ([], office_ipam)
  /\ fst (scan_subnet "192.168.1.0/24"
            [mkReply "192.168.1.10" (S754_zero false) Herror] office_ipam)
     = ["192.168.1.10"].
Proof.
  split.
  - apply (proj1 (scan_records "10.9.0.0/16" [] office_ipam)). reflexivity.
  - apply (proj2 (scan_records "192.168.1.0/24"
                    [mkReply "192.168.1.10" (S754_zero false) Herror]
                    office_ipam)).
    reflexivity.
Defined.

End ScanRecordFacts.

(** ** The IPAM window: sessions and their entries *)

Module LinkFacts.
Import Ipaddress Ipam IpamUi Samples.

Lemma save_data_again m e s :
  save_data (with_data (save_data (with_data m e s)) e s)
  = save_data (with_data m e s).
Proof.
  unfold save_data, with_data. cbn.
  destruct (entries_writable m), (subnets_writable m); reflexivity.
Qed.

Lemma link_entry_again session e :
  link_entry session (link_entry session e) = link_entry session e.
Proof.
  unfold link_entry. cbn. f_equal.
  destruct (negb (text_truthy (hostname e)) && PyStr.truthy (Sessions.name session))
    eqn:E.
  - apply andb_true_iff in E. destruct E as [_ E]. cbn. now rewrite E.
  - now rewrite E.
Qed.

Section WithIpv6.

Context {ipv6 : Ipv6Text}.

Lemma link_skips (session : Sessions.Session) (m : IPAMManager) :
  Sessions.host session = "" \/ ip_address (Sessions.host session) = None ->
  add_session_to_ipam session m = m.
Proof.
  unfold add_session_to_ipam. intros [H|H]; rewrite H; [reflexivity|].
  now destruct (negb _).
Qed.

Lemma link_lookup (session : Sessions.Session) (m : IPAMManager) :
  Sessions.host session <> "" ->
  ip_address (Sessions.host session) <> None ->
  let m' := add_session_to_ipam session m in
  (exists e,
      get_entry (Sessions.host session) m' = Some e
      /\ session_name e = Some (Sessions.name session))
  /\ (forall a, a <> Sessions.host session ->
                get_entry a m' = get_entry a m).
Proof.
  intros Hhost Hip. unfold add_session_to_ipam, get_entry.
  assert (Ht : PyStr.truthy (Sessions.host session) = true)
    by (destruct (Sessions.host session); [contradiction|reflexivity]).
  rewrite Ht. cbn [negb].
  destruct (ip_address (Sessions.host session)) as [addr|]; [|contradiction].
  destruct (PyDict.get (Sessions.host session) (entries m)) as [old|];
    unfold add_ip_entry;
    cbn [snd save_data with_data entries ip session_entry new_entry];
    (split; [eexists; split; [apply get_set_same|reflexivity]|]);
    intros a Ha; apply get_set_other; congruence.
Qed.

(** X20. [add_session_to_ipam] does nothing for a session whose host is
    empty or is no IP address. Otherwise the entry of that address is
    linked to the session afterwards: the entry that was there with its
    session name replaced (and the session name for host name when it had
    none), or a new entry made from the session; no other entry and no
    subnet changes; and doing it a second time changes nothing more. *)
Theorem link_session (session : Sessions.Session) (m : IPAMManager) :
  (Sessions.host session = "" \/ ip_address (Sessions.host session) = None ->
   add_session_to_ipam session m = m)
  /\ (Sessions.host session <> "" ->
      ip_address (Sessions.host session) <> None ->
      let m' := add_session_to_ipam session m in
      (exists e,
          get_entry (Sessions.host session) m' = Some e
          /\ session_name e = Some (Sessions.name session)
          /\ match get_entry (Sessions.host session) m with
             | Some old => e = link_entry session old
             | None => e = session_entry session
             end)
      /\ (forall a, a <> Sessions.host session ->
                    get_entry a m' = get_entry a m)
      /\ subnets m' = subnets m
      /\ add_session_to_ipam session m' = m').
Proof.
  unfold add_session_to_ipam, get_entry. split.
  - intros [H|H]; rewrite H; [reflexivity|].
    now destruct (negb _).
  - intros Hhost Hip.
    assert (Ht : PyStr.truthy (Sessions.host session) = true)
      by (destruct (Sessions.host session); [contradiction|reflexivity]).
    rewrite Ht. cbn [negb].
    destruct (ip_address (Sessions.host session)) as [addr|]; [|contradiction].
    destruct (PyDict.get (Sessions.host session) (entries m)) as [old|] eqn:E.
    + cbn [save_data with_data entries subnets].
      rewrite get_set_same.
      split; [eexists; split; [reflexivity|]; split; reflexivity|].
      split; [intros a Ha; apply get_set_other; congruence|].
      split; [reflexivity|].
      rewrite link_entry_again, set_twice. apply save_data_again.
    + unfold add_ip_entry. cbn [snd save_data with_data entries subnets ip
                                session_entry new_entry].
      rewrite get_set_same.
      split; [eexists; split; [reflexivity|]; split; reflexivity|].
      split; [intros a Ha; apply get_set_other; congruence|].
      split; [reflexivity|].
      assert (L : link_entry session (session_entry session)
                  = session_entry session).
      { unfold link_entry, session_entry, new_entry. cbn.
        now destruct (PyStr.truthy (Sessions.name session)). }
      cbv beta iota. rewrite L, set_twice. apply save_data_again.
Qed.

(** X21. [update_session_in_ipam] after an edit of a session whose old
    host is given: nothing changes when the host is the old one. When the
    host changed and the entry of the old host was linked to the session,
    that entry is removed if the session has a new host, which gets an
    entry linked to the session when it is an IP address; if the session
    has no host any more the entry is kept, with the empty text for
    session name and every other field as it was. The entries of other
    addresses are the same before and after. *)
Theorem relink_session (session : Sessions.Session) (old : string)
  (m : IPAMManager) :
  old <> "" ->
  (Sessions.host session = old ->
   update_session_in_ipam session (Some old) m = m)
  /\ (forall e,
        get_entry old m = Some e ->
        session_name e = Some (Sessions.name session) ->
        Sessions.host session <> old ->
        let m' := update_session_in_ipam session (Some old) m in
        (Sessions.host session <> "" -> get_entry old m' = None)
        /\ (Sessions.host session <> "" ->
            ip_address (Sessions.host session) <> None ->
            exists e',
              get_entry (Sessions.host session) m' = Some e'
              /\ session_name e' = Some (Sessions.name session))
        /\ (Sessions.host session = "" ->
            exists e',
              get_entry old m' = Some e'
              /\ session_name e' = Some ""
              /\ ip e' = ip e /\ subnet e' = subnet e
              /\ hostname e' = hostname e /\ description e' = description e
              /\ status e' = status e /\ last_seen e' = last_seen e)
        /\ (forall a, a <> old -> a <> Sessions.host session ->
                      get_entry a m' = get_entry a m)).
Proof.
  intro Hold.
  assert (Ht : PyStr.truthy old = true)
    by (destruct old; [contradiction|reflexivity]).
  unfold update_session_in_ipam, get_entry. rewrite Ht. cbn [negb orb].
  split.
  - intros ->. rewrite Ht, String.eqb_refl. cbn [negb andb].
    destruct (PyDict.get old (entries m)); [|reflexivity].
    now destruct (text_eqb _ _).
  - intros e Hg Hsn Hne. rewrite Hg.
    assert (Hl : text_eqb (session_name e) (Sessions.name session) = true)
      by (rewrite Hsn; apply String.eqb_refl).
    rewrite Hl.
    assert (Hneq : String.eqb (Sessions.host session) old = false)
      by now apply String.eqb_neq.
    rewrite Hneq. cbn [negb]. rewrite !andb_true_r.
    destruct (PyStr.truthy (Sessions.host session)) eqn:Hh.
    + cbn [negb].
      assert (Hin : PyDict.contains old (entries m) = true)
        by (apply contains_true; eauto).
      set (m1 := snd (remove_ip_entry old m)).
      assert (Hm1 : entries m1 = PyDict.pop old (entries m)).
      { unfold m1, remove_ip_entry. rewrite Hin. reflexivity. }
      assert (Hhost : Sessions.host session <> "")
        by (intro E; rewrite E in Hh; discriminate).
      assert (Hothers : forall a, a <> old -> a <> Sessions.host session ->
                PyDict.get a (entries (add_session_to_ipam session m1))
                = PyDict.get a (entries m)).
      { intros a Ha Hb.
        destruct (ip_address (Sessions.host session)) eqn:Hip.
        - destruct (link_lookup session m1 Hhost) as (_ & Hother);
            [congruence|].
          unfold get_entry in Hother. rewrite Hother by exact Hb.
          rewrite Hm1. apply get_pop_other. congruence.
        - rewrite link_skips by now right.
          rewrite Hm1. apply get_pop_other. congruence. }
      split; [|split; [|split]].
      * intros _.
        destruct (ip_address (Sessions.host session)) eqn:Hip.
        -- destruct (link_lookup session m1 Hhost) as (_ & Hother);
             [congruence|].
           unfold get_entry in Hother. rewrite Hother by congruence.
           rewrite Hm1. apply get_pop_same.
        -- rewrite link_skips by now right.
           rewrite Hm1. apply get_pop_same.
      * intros _ Hip.
        destruct (link_lookup session m1 Hhost Hip) as ((e' & He' & Hs') & _).
        exists e'. auto.
      * intros E. contradiction.
      * exact Hothers.
    + cbn [negb]. split; [|split; [|split]].
      * intro Hhost. destruct (Sessions.host session);
          [contradiction|discriminate].
      * intro Hhost. destruct (Sessions.host session);
          [contradiction|discriminate].
      * intros _. exists (unlink_entry e).
        cbn [save_data with_data entries]. rewrite get_set_same.
        repeat split.
      * intros a Ha _. cbn [save_data with_data entries].
        apply get_set_other. congruence.
Qed.

End WithIpv6.

Lemma link_session_witness :
  add_session_to_ipam (ipv6 := colon_free) session_web_edited
    (add_session_to_ipam (ipv6 := colon_free) session_web_edited office_ipam)
  = add_session_to_ipam (ipv6 := colon_free) session_web_edited office_ipam.
Proof.
  apply (proj2 (link_session (ipv6 := colon_free) session_web_edited
                             office_ipam)).
  - discriminate.
  - vm_compute. discriminate.
Defined.

Lemma relink_session_witness :
  (* the host did not change *)
  update_session_in_ipam (ipv6 := colon_free) session_host
    (Some "192.168.1.10") linked_ipam
  = linked_ipam
  (* the host changed to another address *)
  /\ (let m' := update_session_in_ipam (ipv6 := colon_free) session_host_moved
                  (Some "192.168.1.10") linked_ipam in
      get_entry "192.168.1.10" m' = None
      /\ exists e',
           get_entry "192.168.1.11" m' = Some e'
           /\ session_name e' = Some "printer")
  (* the host was cleared *)
  /\ (let m' := update_session_in_ipam (ipv6 := colon_free)
                  session_host_cleared (Some "192.168.1.10") linked_ipam in
      exists e',
        get_entry "192.168.1.10" m' = Some e'
        /\ session_name e' = Some ""
        /\ hostname e' = Some "printer"
        /\ status e' = Some "Unknown").
Proof.
  assert (Hold : "192.168.1.10" <> "") by discriminate.
  split; [|split].
  - apply (proj1 (relink_session (ipv6 := colon_free) session_host
                                 "192.168.1.10" linked_ipam Hold)).
    reflexivity.
  - destruct (proj2 (relink_session (ipv6 := colon_free) session_host_moved
                                    "192.168.1.10" linked_ipam Hold)
                    (IpamUi.link_entry session_host
                       (office_entry "192.168.1.10" "192.168.1.0/24"))
                    eq_refl eq_refl ltac:(discriminate))
      as (Hgone & Hnew & _ & _).
    split.
    + apply Hgone. discriminate.
    + apply Hnew; [discriminate|]. vm_compute. discriminate.
  - destruct (proj2 (relink_session (ipv6 := colon_free) session_host_cleared
                                    "192.168.1.10" linked_ipam Hold)
                    (IpamUi.link_entry session_host
                       (office_entry "192.168.1.10" "192.168.1.0/24"))
                    eq_refl eq_refl ltac:(discriminate))
      as (_ & _ & Hkept & _).
    destruct (Hkept eq_refl)
      as (e' & Hget & Hname & _ & _ & Hhostname & _ & Hstatus & _).
    exists e'. split; [exact Hget|]. split; [exact Hname|].
    split; [exact Hhostname|exact Hstatus].
Defined.

End LinkFacts.

(** ** IPAM: exporting and importing again *)

Module CsvFacts.
Import Ipaddress Ipam Csv Samples.

Lemma zip_row_absent key fieldnames : forall r d,
  ~ In key fieldnames -> PyDict.get key d = None ->
  PyDict.get key (zip_row fieldnames r d) = None.
Proof.
  induction fieldnames as [|k ks IH]; intros r d Hn Hd; cbn [zip_row]; auto.
  assert (key <> k) by (intro; apply Hn; now left).
  assert (~ In key ks) by (intro; apply Hn; now right).
  destruct r; apply IH; auto; rewrite get_set_other; auto.
Qed.

Section WithIpv6.

Context {ipv6 : Ipv6Text}.

(** A row with no [ip] column leaves the entries alone. *)
Lemma import_row_no_ip r m :
  has_field r "ip" = false ->
  fst (import_row r m) <> Counted_ip
  /\ entries (snd (import_row r m)) = entries m
  /\ forall c, PyDict.contains c (subnets m) = true ->
               PyDict.contains c (subnets (snd (import_row r m))) = true.
Proof.
  intro Hip. unfold import_row. rewrite Hip.
  destruct (has_field r "cidr"); [|cbn; repeat split; auto; discriminate].
  destruct (new_subnet _ _ _) as [s|]; [|cbn; repeat split; auto; discriminate].
  unfold add_subnet.
  destruct (PyDict.contains (cidr s) (subnets m)) eqn:E;
    cbn; repeat split; auto; try discriminate.
  intros c Hc. apply contains_true in Hc. destruct Hc as [v Hv].
  apply contains_true.
  destruct (string_dec (cidr s) c) as [<-|Hne].
  - rewrite get_set_same. eauto.
  - rewrite get_set_other by exact Hne. eauto.
Qed.

Lemma import_rows_no_ip rows : forall m a s e,
  Forall (fun r => has_field r "ip" = false) rows ->
  exists s' e',
    fst (import_rows (stream rows) m a s e) = Imported a s' e'
    /\ entries (snd (import_rows (stream rows) m a s e)) = entries m
    /\ forall c,
         PyDict.contains c (subnets m) = true
         \/ (exists r n, In r rows /\ has_field r "cidr" = true
                         /\ field r "cidr" = c /\ ip_network c = Some n) ->
         PyDict.contains c
           (subnets (snd (import_rows (stream rows) m a s e))) = true.
Proof.
  induction rows as [|r rows IH]; intros m a s e Hrows; cbn [stream import_rows].
  - exists s, e. cbn. repeat split; auto.
    intros c [Hc|(r & n & [] & _)]. exact Hc.
  - pose proof (Forall_inv Hrows) as Hr. apply Forall_inv_tail in Hrows.
    destruct (import_row_no_ip r m Hr) as (Hout & Hent & Hsub).
    assert (Hnew : forall c n, has_field r "cidr" = true ->
                     field r "cidr" = c -> ip_network c = Some n ->
                     PyDict.contains c (subnets (snd (import_row r m))) = true).
    { intros c n Hf Hc Hn. unfold import_row. rewrite Hf.
      unfold new_subnet. rewrite Hc, Hn. unfold add_subnet. cbn [cidr].
      destruct (PyDict.contains c (subnets m)) eqn:E; cbn; auto.
      unfold PyDict.contains. now rewrite get_set_same. }
    destruct (import_row r m) as [outcome m1]. cbn [fst snd] in *.
    assert (Hstep : forall a1 s1 e1,
              exists s' e',
                fst (import_rows (stream rows) m1 a1 s1 e1) = Imported a1 s' e'
                /\ entries (snd (import_rows (stream rows) m1 a1 s1 e1))
                   = entries m
                /\ forall c,
                     PyDict.contains c (subnets m) = true
                     \/ (exists r0 n, In r0 (r :: rows)
                           /\ has_field r0 "cidr" = true
                           /\ field r0 "cidr" = c /\ ip_network c = Some n) ->
                     PyDict.contains c
                       (subnets (snd (import_rows (stream rows) m1 a1 s1 e1)))
                     = true).
    { intros a1 s1 e1.
      destruct (IH m1 a1 s1 e1 Hrows) as (s' & e' & H1 & H2 & H3).
      exists s', e'. split; [exact H1|]. split; [congruence|].
      intros c [Hc|(r0 & n & [<-|Hin] & Hf & Hc & Hn)]; apply H3.
      - left. apply Hsub. exact Hc.
      - left. eapply Hnew; eauto.
      - right. exists r0, n. auto. }
    destruct outcome; try apply Hstep. contradiction.
Qed.

Variable float_repr : spec_float -> string.

Lemma subnet_header_rows (records : list record) :
  Forall (fun r => has_field r "ip" = false)
         (map (fun r => zip_row subnet_fieldnames r [])
              (filter (fun r => negb (blank r)) records)).
Proof.
  apply Forall_forall. intros r Hr. apply in_map_iff in Hr.
  destruct Hr as (x & <- & _). unfold has_field.
  rewrite zip_row_absent; auto.
  cbn. intuition discriminate.
Qed.

(** X22. A file exported with its subnets section does not bring the
    entries back. [DictReader] takes the header of the subnets section for
    the header of the whole file, so an import of that file adds no IP
    entry and leaves the entries of the inventory it imports into as they
    were; instead, every exported entry whose address reads as a network
    is registered as a subnet. *)
Theorem full_export_reimport (include_ips : bool) (m target : IPAMManager) :
  subnets m <> [] ->
  let file := exported float_repr include_ips true m in
  let result := import_from_csv (stream (DictReader file)) target in
  export_to_csv float_repr true include_ips true m = (true, Some file)
  /\ (exists added_subnets errors,
         fst result = Imported 0 added_subnets errors)
  /\ entries (snd result) = entries target
  /\ (include_ips = true ->
      forall a e n,
        get_entry a m = Some e -> ip e <> "" -> ip_network (ip e) = Some n ->
        PyDict.contains (ip e) (subnets (snd result)) = true).
Proof.
  intros Hsub file result. split; [reflexivity|].
  assert (Hfile : exists records,
             file = subnet_fieldnames :: records
             /\ (include_ips = true ->
                 forall e, In e (PyDict.values (entries m)) ->
                           In (entry_record float_repr e) records)).
  { unfold file, exported. cbn [andb].
    destruct (subnets m) as [|kv rest] eqn:E; [contradiction|].
    cbn [nonempty]. eexists. split; [reflexivity|].
    intros -> e He. cbn [andb].
    destruct (entries m) as [|kv' rest'] eqn:E'; [destruct He|].
    cbn [nonempty]. apply in_or_app. right. right.
    now apply in_map. }
  destruct Hfile as (records & Hfile & Hrecords).
  unfold result, import_from_csv. rewrite Hfile. cbn [DictReader].
  destruct (import_rows_no_ip _ target 0 0 0 (subnet_header_rows records))
    as (s' & e' & H1 & H2 & H3).
  split; [eauto|]. split; [exact H2|].
  intros Hinc a e n Hg Hip Hn. apply H3. right.
  exists (zip_row subnet_fieldnames (entry_record float_repr e) []), n.
  split; [|split; [|split]].
  - apply in_map_iff. exists (entry_record float_repr e). split; [reflexivity|].
    apply filter_In. split; [|reflexivity].
    apply Hrecords; auto. unfold PyDict.values. apply in_map_iff.
    exists (a, e). split; [reflexivity|]. now apply get_In.
  - cbn. destruct (ip e); [contradiction|reflexivity].
  - reflexivity.
  - exact Hn.
Qed.

Lemma import_exported_entry e m :
  ip e <> "" ->
  import_row (zip_row entry_fieldnames (entry_record float_repr e) []) m
  = (Counted_ip, snd (add_ip_entry (reread e) m)).
Proof.
  intro Hip. unfold import_row, reread. cbn.
  destruct (ip e); [contradiction|reflexivity].
Qed.

Lemma import_exported_entries l : forall m a s e,
  Forall (fun x => ip x <> "") l ->
  import_rows
    (stream (map (fun r => zip_row entry_fieldnames r [])
                 (map (entry_record float_repr) l))) m a s e
  = (Imported (a + Z.of_nat (length l)) s e,
     fold_left (fun m x => snd (add_ip_entry (reread x) m)) l m).
Proof.
  induction l as [|x l IH]; intros m a s e Hl; cbn [map stream import_rows].
  - cbn. now rewrite Z.add_0_r.
  - pose proof (Forall_inv Hl) as Hx. apply Forall_inv_tail in Hl.
    rewrite import_exported_entry by exact Hx.
    rewrite IH by exact Hl. cbn [fold_left length]. f_equal. f_equal. lia.
Qed.

Lemma reimported_frame l : forall m,
  subnets (fold_left (fun m x => snd (add_ip_entry (reread x) m)) l m)
  = subnets m.
Proof.
  induction l as [|x l IH]; intro m; cbn [fold_left]; auto.
  now rewrite IH.
Qed.

Lemma reimported_get (d : PyDict.t IPAMEntry) :
  PyDict.wf d -> IpamStore.entries_keyed d ->
  forall m a,
    get_entry a (fold_left (fun m x => snd (add_ip_entry (reread x) m))
                           (PyDict.values d) m)
    = match PyDict.get a d with
      | Some e => Some (reread e)
      | None => get_entry a m
      end.
Proof.
  unfold PyDict.wf, IpamStore.entries_keyed.
  induction d as [|[k x] d IH]; intros Hwf Hk m a; cbn [PyDict.values map fold_left].
  - reflexivity.
  - cbn [PyDict.keys map fst] in Hwf. apply NoDup_cons_iff in Hwf.
    destruct Hwf as [Hn Hwf].
    pose proof (Forall_inv Hk) as Hx. cbn [fst snd] in Hx.
    apply Forall_inv_tail in Hk.
    fold (PyDict.values d). rewrite (IH Hwf Hk). cbn [PyDict.get snd].
    destruct (String.eqb a k) eqn:E.
    + apply String.eqb_eq in E. subst a.
      assert (Hd : PyDict.get k d = None) by now apply get_None_keys.
      rewrite Hd. unfold get_entry, add_ip_entry.
      cbn [snd save_data with_data entries reread new_entry ip].
      rewrite Hx. apply get_set_same.
    + apply String.eqb_neq in E.
      destruct (PyDict.get a d); [reflexivity|].
      unfold get_entry, add_ip_entry.
      cbn [snd save_data with_data entries reread new_entry ip].
      apply get_set_other. congruence.
Qed.

(** X23. A file exported without subnets section brings the entries
    back: the import counts one added address per exported entry and no
    error, touches no subnet, and afterwards each exported address has the
    exported entry, its text columns read back as text and without
    [last_seen]; the other addresses keep the entries they had. *)
Theorem entries_export_reimport (include_subnets : bool)
  (m target : IPAMManager) :
  include_subnets = false \/ subnets m = [] ->
  PyDict.wf (entries m) -> IpamStore.entries_keyed (entries m) ->
  (forall a e, get_entry a m = Some e -> a <> "") ->
  let file := exported float_repr true include_subnets m in
  let result := import_from_csv (stream (DictReader file)) target in
  export_to_csv float_repr true true include_subnets m = (true, Some file)
  /\ fst result = Imported (Z.of_nat (length (entries m))) 0 0
  /\ subnets (snd result) = subnets target
  /\ forall a,
       get_entry a (snd result)
       = match get_entry a m with
         | Some e => Some (reread e)
         | None => get_entry a target
         end.
Proof.
  intros Hs Hwf Hk Hne file result. split; [reflexivity|].
  assert (Hfile : file = if nonempty (entries m)
                         then entry_fieldnames
                              :: map (entry_record float_repr)
                                     (PyDict.values (entries m))
                         else []).
  { unfold file, exported.
    destruct Hs as [->|Hs]; [reflexivity|].
    rewrite Hs. cbn [nonempty]. rewrite andb_false_r. reflexivity. }
  assert (Hips : Forall (fun x => ip x <> "") (PyDict.values (entries m))).
  { apply Forall_forall. intros x Hx. unfold PyDict.values in Hx.
    apply in_map_iff in Hx. destruct Hx as ([k e] & <- & Hin). cbn [snd].
    unfold IpamStore.entries_keyed in Hk. rewrite Forall_forall in Hk.
    pose proof (Hk _ Hin) as Hown. cbn [fst snd] in Hown. rewrite Hown.
    apply (Hne k e). unfold get_entry.
    destruct (PyDict.get k (entries m)) as [e0|] eqn:E.
    - f_equal. apply get_In in E.
      eapply IpamFacts.wf_unique; eauto.
    - apply get_None_keys in E. exfalso. apply E.
      unfold PyDict.keys. apply in_map_iff. exists (k, e). auto. }
  unfold result, import_from_csv. rewrite Hfile.
  destruct (entries m) as [|kv rest] eqn:E.
  - cbn. repeat split; auto.
    intro a. unfold get_entry. now rewrite E.
  - cbn [nonempty DictReader].
    assert (Hnb : filter (fun r => negb (blank r))
                         (map (entry_record float_repr)
                              (PyDict.values (kv :: rest)))
                  = map (entry_record float_repr) (PyDict.values (kv :: rest))).
    { apply forallb_filter_id. apply forallb_forall. intros r Hr.
      apply in_map_iff in Hr. destruct Hr as (x & <- & _). reflexivity. }
    rewrite Hnb, import_exported_entries by exact Hips.
    cbn [fst snd]. split.
    + unfold PyDict.values. now rewrite length_map.
    + split; [apply reimported_frame|].
      intro a. unfold get_entry at 2. rewrite E.
      apply reimported_get; auto.
Qed.

End WithIpv6.

Lemma full_export_reimport_witness :
  let file := exported no_float true true office_ipam in
  let result :=
    import_from_csv (ipv6 := colon_free) (stream (DictReader file))
                    empty_ipam in
  fst result = Imported 0 2 1
  /\ entries (snd result) = []
  /\ PyDict.keys (subnets (snd result)) = ["192.168.1.0/24"; "192.168.1.10"].
Proof.
  intros file result.
  destruct (full_export_reimport (ipv6 := colon_free) no_float true
              office_ipam empty_ipam ltac:(discriminate))
    as (_ & _ & Hentries & _).
  split; [vm_compute; reflexivity|].
  split; [exact Hentries|vm_compute; reflexivity].
Defined.

Lemma entries_export_reimport_witness :
  let file := exported no_float true false office_ipam in
  let result :=
    import_from_csv (ipv6 := colon_free) (stream (DictReader file))
                    empty_ipam in
  fst result = Imported 1 0 0
  /\ get_entry "192.168.1.10" (snd result)
     = Some (office_entry "192.168.1.10" "192.168.1.0/24").
Proof.
  intros file result.
  destruct (entries_export_reimport (ipv6 := colon_free) no_float false
              office_ipam empty_ipam)
    as (_ & Hcount & _ & Hget).
  - now left.
  - unfold PyDict.wf. cbn. repeat constructor. intros [].
  - repeat constructor.
  - intros a e. unfold get_entry. cbn.
    destruct (String.eqb a "192.168.1.10") eqn:E; [|discriminate].
    apply String.eqb_eq in E. subst a. discriminate.
  - split; [exact Hcount|]. exact (Hget "192.168.1.10").
Defined.

End CsvFacts.

(** ** SSHKeyConverter: PPK files by name *)

Module KeyFileFacts.

Lemma length_lower s : String.length (PyStr.lower s) = String.length s.
Proof. induction s; simpl; congruence. Qed.

Lemma lower_app a b : PyStr.lower (a ++ b) = PyStr.lower a ++ PyStr.lower b.
Proof. induction a; simpl; congruence. Qed.

Lemma drop_lower n : forall s,
  PyStr.drop n (PyStr.lower s) = PyStr.lower (PyStr.drop n s).
Proof. induction n; intros [|c s]; simpl; auto. Qed.

Lemma drop_app a b : PyStr.drop (String.length a) (a ++ b) = b.
Proof. induction a; simpl; auto. Qed.

Lemma length_app a b :
  String.length (a ++ b) = (String.length a + String.length b)%nat.
Proof. induction a; simpl; congruence. Qed.

Lemma drop_split n : forall s,
  exists a, s = a ++ PyStr.drop n s
            /\ String.length a = Nat.min n (String.length s).
Proof.
  induction n; intros s.
  - exists "". destruct s; auto.
  - destruct s as [|c s].
    + exists "". auto.
    + destruct (IHn s) as (a & Ha & Hl). exists (String c a). simpl.
      split; congruence.
Qed.

(** X24. [is_ppk_file] accepts exactly the paths that end in [.ppk],
    written in any mix of upper and lower case. *)
Theorem is_ppk_file_spec (key_path : string) :
  SSHKeyConverter.is_ppk_file key_path = true
  <-> exists stem suffix,
        key_path = stem ++ suffix /\ PyStr.lower suffix = ".ppk".
Proof.
  unfold SSHKeyConverter.is_ppk_file, PyStr.endswith.
  rewrite andb_true_iff, Nat.leb_le, String.eqb_eq, length_lower, drop_lower.
  split.
  - intros [Hlen Hdrop].
    destruct (drop_split (String.length key_path - String.length ".ppk")
                         key_path) as (a & Ha & _).
    eauto.
  - intros (stem & suffix & -> & Hs).
    assert (Hl : String.length suffix = 4%nat)
      by (rewrite <- length_lower, Hs; reflexivity).
    rewrite length_app, Hl. cbn [String.length]. split; [lia|].
    replace (String.length stem + 4 - 4)%nat with (String.length stem) by lia.
    now rewrite drop_app.
Qed.

End KeyFileFacts.

(** ** Launcher: the command line of PuTTY *)

Module LauncherFacts.
Import Sessions Launcher Samples.

Lemma append_same ws : forall cmd,
  fold_left append_both ws (Same cmd)
  = Same (cmd ++ flat_map (fun param => [param; param]) ws)%list.
Proof.
  induction ws as [|w ws IH]; intro cmd; cbn [fold_left flat_map append_both].
  - now rewrite app_nil_r.
  - rewrite IH. f_equal. rewrite <- !app_assoc. reflexivity.
Qed.

Lemma append_copy ws : forall cmd safe_cmd,
  fold_left append_both ws (Copy cmd safe_cmd)
  = Copy (cmd ++ ws)%list (safe_cmd ++ ws)%list.
Proof.
  induction ws as [|w ws IH]; intros cmd safe_cmd;
    cbn [fold_left append_both].
  - now rewrite !app_nil_r.
  - rewrite IH. rewrite <- !app_assoc. reflexivity.
Qed.

Lemma split_whitespace_nil : PyStr.split_whitespace "" = [].
Proof. reflexivity. Qed.

Lemma truthy_iff s : PyStr.truthy s = true <-> s <> "".
Proof. destruct s; simpl; split; congruence. Qed.

(** X25. With a PPK key file that exists, [launch_putty] starts PuTTY with
    every additional parameter of the session twice: [safe_cmd] is then
    the list [cmd] itself, and the loop appends each parameter to both
    names. *)
Theorem key_launch_repeats_parameters (exists_ : string -> bool)
  (answer : bool) (s : Session) (putty : string) :
  find exists_ potential_paths = Some putty ->
  key_file s <> "" -> exists_ (key_file s) = true ->
  PyStr.endswith ".ppk" (PyStr.lower (key_file s)) = true ->
  let cmd :=
    ([putty; "-ssh"; host s; "-P"; "22"; "-i"; key_file s]
     ++ (if PyStr.truthy (username s) then ["-l"; username s] else [])
     ++ flat_map (fun param => [param; param])
                 (PyStr.split_whitespace (params s)))%list in
  launch_putty exists_ answer (Some s) = Started cmd cmd.
Proof.
  intros Hp Hk He Hppk. apply truthy_iff in Hk.
  unfold launch_putty. rewrite Hp, Hk, He, Hppk. cbn [andb negb].
  destruct (PyStr.truthy (params s)) eqn:Hparams.
  - rewrite append_same. cbn [app]. reflexivity.
  - destruct (params s); [|discriminate].
    cbn [PyStr.split_whitespace flat_map app]. now rewrite app_nil_r.
Qed.

Lemma putty_is_no_flag exists_ putty :
  find exists_ potential_paths = Some putty -> String.eqb putty "-pw" = false.
Proof.
  intro H. apply find_some in H. destruct H as [[<-|[<-|[]]] _]; reflexivity.
Qed.

(** X26. Without key file and with a password, [launch_putty] passes the
    password after [-pw], and the command it prints shows eight stars in
    its place, provided the target of the connection is not itself the
    text [-pw]: then the mask lands on the argument after the target, and
    the password is printed. *)
Theorem password_launch_masks (exists_ : string -> bool) (answer : bool)
  (s : Session) (putty : string) :
  find exists_ potential_paths = Some putty ->
  key_file s = "" -> password s <> "" ->
  let target :=
    if PyStr.truthy (username s) then username s ++ "@" ++ host s
    else host s in
  let words := PyStr.split_whitespace (params s) in
  let cmd :=
    ([putty; "-ssh"; target; "-P"; "22"; "-pw"; password s] ++ words)%list in
  (target <> "-pw" ->
   launch_putty exists_ answer (Some s)
   = Started cmd
       ([putty; "-ssh"; target; "-P"; "22"; "-pw"; "********"] ++ words)%list)
  /\ (target = "-pw" ->
      launch_putty exists_ answer (Some s)
      = Started cmd
          ([putty; "-ssh"; target; "********"; "22"; "-pw"; password s]
           ++ words)%list).
Proof.
  intros Hp Hk Hpw target words cmd. apply truthy_iff in Hpw.
  pose proof (putty_is_no_flag _ _ Hp) as Hflag.
  unfold launch_putty. rewrite Hp, Hk, Hpw. cbn [PyStr.truthy andb negb].
  fold target.
  assert (Hgen : forall safe,
             mask ([putty] ++ ["-ssh"; target; "-P"; port] ++ ["-pw"; password s])
             = Some safe ->
             match
               (if PyStr.truthy (params s)
                then fold_left append_both (PyStr.split_whitespace (params s))
                       (Copy ([putty] ++ ["-ssh"; target; "-P"; port]
                                      ++ ["-pw"; password s]) safe)
                else Copy ([putty] ++ ["-ssh"; target; "-P"; port]
                                   ++ ["-pw"; password s]) safe)
             with
             | Same c => Started c c
             | Copy c sc => Started c sc
             end
             = Started cmd (safe ++ words)%list).
  { intros safe _. destruct (PyStr.truthy (params s)) eqn:E.
    - rewrite append_copy. reflexivity.
    - destruct (params s); [|discriminate].
      unfold cmd, words. cbn [PyStr.split_whitespace].
      now rewrite !app_nil_r. }
  split; intro Ht.
  - assert (Hm : mask ([putty] ++ ["-ssh"; target; "-P"; port]
                               ++ ["-pw"; password s])
                 = Some [putty; "-ssh"; target; "-P"; "22"; "-pw"; "********"]).
    { unfold mask. cbn [app index]. rewrite Hflag.
      apply String.eqb_neq in Ht. rewrite Ht. reflexivity. }
    rewrite Hm. now rewrite (Hgen _ Hm).
  - assert (Hm : mask ([putty] ++ ["-ssh"; target; "-P"; port]
                               ++ ["-pw"; password s])
                 = Some [putty; "-ssh"; target; "********"; "22"; "-pw";
                         password s]).
    { unfold mask. cbn [app index]. rewrite Hflag.
      rewrite Ht. reflexivity. }
    rewrite Hm. now rewrite (Hgen _ Hm).
Qed.

Lemma key_launch_repeats_parameters_witness :
  launch_putty putty_installed true (Some session_with_key)
  = Started
      [ "C:\Program Files\PuTTY\putty.exe"; "-ssh"; "10.0.0.5"; "-P"; "22";
        "-i"; "C:\keys\web.PPK"; "-l"; "root"; "-v"; "-v"; "-C"; "-C" ]
      [ "C:\Program Files\PuTTY\putty.exe"; "-ssh"; "10.0.0.5"; "-P"; "22";
        "-i"; "C:\keys\web.PPK"; "-l"; "root"; "-v"; "-v"; "-C"; "-C" ].
Proof.
  apply (key_launch_repeats_parameters putty_installed true session_with_key
           "C:\Program Files\PuTTY\putty.exe").
  - reflexivity.
  - discriminate.
  - reflexivity.
  - reflexivity.
Defined.

Lemma password_launch_masks_witness :
  launch_putty putty_installed true (Some session_with_password)
  = Started
      [ "C:\Program Files\PuTTY\putty.exe"; "-ssh"; "root@10.0.0.5"; "-P";
        "22"; "-pw"; "secret"; "-v" ]
      [ "C:\Program Files\PuTTY\putty.exe"; "-ssh"; "root@10.0.0.5"; "-P";
        "22"; "-pw"; "********"; "-v" ].
Proof.
  apply (proj1 (password_launch_masks putty_installed true
                  session_with_password
                  "C:\Program Files\PuTTY\putty.exe"
                  eq_refl eq_refl ltac:(discriminate))).
  discriminate.
Defined.

End LauncherFacts.

(** ** The session tree *)

Module TreeFacts.
Import Sessions SessionTree Samples.

(** What the tree holds under a name after the sessions of a list. *)
Lemma place_lookup (done : list Session) tree s :
  PyDict.wf tree ->
  (forall g, PyDict.get g tree
             = match under g done with [] => None | l => Some l end) ->
  PyDict.wf (place tree s)
  /\ forall g, PyDict.get g (place tree s)
               = match under g (done ++ [s]) with [] => None | l => Some l end.
Proof.
  intros Hwf Hget. unfold place, PyDict.contains.
  set (k := group_of s).
  assert (Hk : exists l,
             PyDict.get k (if match PyDict.get k tree with
                                 | Some _ => true | None => false end
                           then tree else PyDict.set k [] tree) = Some l
             /\ l = under k done
             /\ PyDict.wf (if match PyDict.get k tree with
                                 | Some _ => true | None => false end
                           then tree else PyDict.set k [] tree)
             /\ forall g, g <> k ->
                  PyDict.get g (if match PyDict.get k tree with
                                      | Some _ => true | None => false end
                                then tree else PyDict.set k [] tree)
                  = PyDict.get g tree).
  { pose proof (Hget k) as Hgk.
    destruct (PyDict.get k tree) as [l|] eqn:E.
    - exists l. split; [exact E|]. split; [|split; auto].
      destruct (under k done); congruence.
    - exists []. split; [apply get_set_same|]. split; [|split].
      + destruct (under k done); congruence.
      + now apply wf_set.
      + intros g Hg. apply get_set_other. congruence. }
  destruct Hk as (l & Hl & Hunder & Hwf' & Hother). rewrite Hl.
  split; [now apply wf_set|].
  intro g. unfold under in *. rewrite filter_app. cbn [filter]. fold k.
  destruct (String.eqb k g) eqn:E.
  - apply String.eqb_eq in E. subst g.
    rewrite get_set_same, Hunder.
    destruct (filter _ done); reflexivity.
  - apply String.eqb_neq in E.
    rewrite get_set_other by exact E. rewrite Hother by congruence.
    rewrite app_nil_r. apply Hget.
Qed.

Lemma places_lookup rest : forall (done : list Session) tree,
  PyDict.wf tree ->
  (forall g, PyDict.get g tree
             = match under g done with [] => None | l => Some l end) ->
  PyDict.wf (fold_left place rest tree)
  /\ forall g, PyDict.get g (fold_left place rest tree)
               = match under g (done ++ rest) with
                 | [] => None
                 | l => Some l
                 end.
Proof.
  induction rest as [|s rest IH]; intros done tree Hwf Hget; cbn [fold_left].
  - rewrite app_nil_r. auto.
  - destruct (place_lookup done tree s Hwf Hget) as [Hwf' Hget'].
    destruct (IH (done ++ [s])%list (place tree s) Hwf' Hget') as [H1 H2].
    split; [exact H1|]. intro g. rewrite H2, <- app_assoc. reflexivity.
Qed.

(** X27. The session tree shows every session once, under its own group:
    the mapping built by [_populate_session_tree] has, under each group
    name, exactly the sessions of that group in the order of the
    repository, never an empty list; a session with no group goes under
    [Ungrouped]. *)
Theorem tree_partitions_sessions (m : SessionManager) :
  let tree := grouped_sessions m in
  let all := Queries.get_all_sessions m in
  PyDict.wf tree
  /\ (forall g l, PyDict.get g tree = Some l -> l = under g all /\ l <> [])
  /\ (forall s, In s all ->
        exists l, PyDict.get (group_of s) tree = Some l /\ In s l)
  /\ (forall g l s, PyDict.get g tree = Some l -> In s l ->
        group_of s = g /\ In s all).
Proof.
  intros tree all.
  destruct (places_lookup all [] [] ltac:(constructor)
                          ltac:(intro; reflexivity)) as [Hwf Hget].
  cbn [app] in Hget. fold tree in Hwf, Hget.
  split; [exact Hwf|]. split; [|split].
  - intros g l Hl. rewrite Hget in Hl.
    destruct (under g all); [discriminate|]. injection Hl as <-.
    split; [reflexivity|discriminate].
  - intros s Hs. rewrite Hget.
    assert (Hin : In s (under (group_of s) all)).
    { unfold under. apply filter_In. split; [exact Hs|apply String.eqb_refl]. }
    destruct (under (group_of s) all) as [|x l]; [destruct Hin|]. eauto.
  - intros g l s Hl Hs. rewrite Hget in Hl.
    assert (l = under g all)
      by (destruct (under g all); [discriminate|congruence]).
    subst l. unfold under in Hs. apply filter_In in Hs. destruct Hs as [Hs E].
    apply String.eqb_eq in E. auto.
Qed.

End TreeFacts.

(** ** IPAM: usage stays within the subnet *)

Module UsageFacts.
Import Ipaddress Ipam Samples.

Lemma length_addresses v first count :
  length (addresses v first count) = Z.to_nat count.
Proof. unfold addresses. now rewrite length_map, length_seq. Qed.

Lemma hosts_count n :
  ipv4_block n ->
  Z.of_nat (length (hosts n))
  = if 2 <? num_addresses n then num_addresses n - 2 else num_addresses n.
Proof.
  intros (Hv & Hp & _ & _). unfold hosts, iter, num_addresses.
  rewrite Hv. cbn [max_prefixlen].
  destruct (Z.eqb_spec (prefixlen n) 31) as [E|N31].
  - rewrite E, length_addresses. reflexivity.
  - destruct (Z.eqb_spec (prefixlen n) 32) as [E|N32].
    + rewrite E. reflexivity.
    + rewrite length_addresses.
      assert (4 <= 2 ^ (32 - prefixlen n)).
      { change 4 with (2 ^ 2). apply Z.pow_le_mono_r; lia. }
      destruct (Z.ltb_spec 2 (2 ^ (32 - prefixlen n))); lia.
Qed.

Section WithIpv6.

Context {ipv6 : Ipv6Text}.

(** X28. For an IPv4 subnet made by the constructor, [total] of
    [get_usage_stats] is the number of addresses [get_ip_range] lists, and
    it is positive; so [used] never exceeds [total] and [available] is
    never negative, whatever the entries. *)
Theorem usage_within_total cidr name description (s : Subnet)
  (entries : PyDict.t IPAMEntry) :
  new_subnet cidr name description = Ok s ->
  network_version (network s) = V4 ->
  let st := get_usage_stats s entries in
  total st = Z.of_nat (length (get_ip_range s))
  /\ 0 < total st
  /\ 0 <= used st <= total st
  /\ 0 <= available st <= total st.
Proof.
  intros Hs Hv st.
  destruct (InventoryFacts.new_subnet_inv _ _ _ _ Hs) as (net & Hnet & Heq).
  assert (Hn : network s = net) by (rewrite Heq; reflexivity).
  assert (H4 : ipv4_network cidr = Some net).
  { unfold ip_network in Hnet. destruct (ipv4_network cidr); [exact Hnet|].
    destruct (ipv6_network cidr) as [[x p]|]; [|discriminate].
    injection Hnet as <-. rewrite Hn in Hv. discriminate. }
  pose proof (Ipv4Facts.ipv4_network_block _ _ H4) as Hblock.
  pose proof (hosts_count _ Hblock) as Hcount.
  assert (Hpos : 0 < num_addresses net).
  { destruct Hblock as (Hv' & Hp & _). unfold num_addresses.
    apply Z.pow_pos_nonneg; rewrite ?Hv'; cbn [max_prefixlen]; lia. }
  assert (Htotal : total st = Z.of_nat (length (get_ip_range s))).
  { unfold st, get_usage_stats, get_ip_range. cbn [total].
    rewrite Hv, Hn, length_map, Hcount. reflexivity. }
  assert (Hused : 0 <= used st <= Z.of_nat (length (get_ip_range s))).
  { unfold st, get_usage_stats. cbn [used].
    pose proof (ScanFacts.length_filter_le
                  (fun ip => PyDict.contains ip entries) (get_ip_range s)).
    lia. }
  assert (Ht : 0 < total st).
  { rewrite Htotal. unfold get_ip_range. rewrite Hv, Hn, length_map, Hcount.
    destruct (Z.ltb_spec 2 (num_addresses net)); lia. }
  assert (Ha : available st = total st - used st) by reflexivity.
  rewrite Ha. rewrite <- Htotal in Hused. repeat split; try lia; exact Htotal.
Qed.

End WithIpv6.

Lemma usage_within_total_witness :
  let st := get_usage_stats (ipv6 := colon_free) office_subnet
                            (entries office_ipam) in
  total st = Z.of_nat (length (get_ip_range (ipv6 := colon_free)
                                            office_subnet))
  /\ 0 < total st
  /\ 0 <= used st <= total st
  /\ 0 <= available st <= total st.
Proof.
  apply (usage_within_total (ipv6 := colon_free) "192.168.1.0/24"
                            (Some "office") (Some "") office_subnet
                            (entries office_ipam)).
  - vm_compute. reflexivity.
  - reflexivity.
Defined.

End UsageFacts.
